(** * gradio_sample_viewer: layout resolution, path fallback and sample discovery

    A shallow embedding of [layout_decode.py] and [backend.py], of the
    validation and the resolver of [config.py], and of the callbacks of
    [ui.py] that compute on the state of the page.

    Conventions of the model.
    - A Python [str] is a [string]; one [ascii] is one code point below 256.
    - A Python [int] is a [Z].  Floats do not occur in the model.
    - A raised exception is the left injection of [result]; the constructor
      names the Python exception class.  [OutOfModel] is no Python
      exception: the model stops with it where an input leaves the modelled
      fragment (a float, a code point from 256 on, a list-like selector of a
      table).
    - [pathlib.Path] is the POSIX flavour: a root and a list of names.
    - The file system is an explicit record of oracles ([FileSystem]); code
      that writes a file returns the updated record. *)

From Stdlib Require Import List String Ascii ZArith NArith Bool Arith Lia.
From Stdlib Require Import Sorting.Sorted Sorting.Permutation.
From Stdlib Require Decimal DecimalString DecimalZ DecimalPos DecimalFacts.
Import ListNotations.

Open Scope string_scope.
Open Scope list_scope.

(* ================================================================== *)
(** ** Exceptions and the error monad                                  *)
(* ================================================================== *)

Inductive exn : Type :=
| IndexError
| KeyError
| TypeError
| ValueError
| AttributeError
| FileNotFoundError
| NotImplementedError
| OSError
| JSONDecodeError
| OutOfModel.

Definition result (A : Type) : Type := (exn + A)%type.

Definition ret {A : Type} (a : A) : result A := inr a.
Definition raise {A : Type} (e : exn) : result A := inl e.

Definition bind {A B : Type} (m : result A) (k : A -> result B) : result B :=
  match m with
  | inl e => inl e
  | inr a => k a
  end.

Notation "x <- m ;; k" := (bind m (fun x => k))
  (at level 61, m at next level, right associativity).

Definition is_ok {A : Type} (m : result A) : bool :=
  match m with inr _ => true | inl _ => false end.

(** [mapM f l] runs [f] on the elements from left to right and stops at the
    first exception, as a list comprehension does. *)
Section mapM.
Context {A B : Type}.
Variable f : A -> result B.

Fixpoint mapM (l : list A) : result (list B) :=
  match l with
  | [] => ret []
  | a :: l' => b <- f a ;; bs <- mapM l' ;; ret (b :: bs)
  end.
End mapM.

(* ================================================================== *)
(** ** Strings                                                         *)
(* ================================================================== *)

Definition slash : ascii := "/"%char.
Definition dot : ascii := "."%char.

Definition str1 (c : ascii) : string := String c EmptyString.

Fixpoint split_on (sep : ascii) (s : string) : list string :=
  match s with
  | EmptyString => [EmptyString]
  | String c s' =>
      if Ascii.eqb c sep then EmptyString :: split_on sep s'
      else match split_on sep s' with
           | [] => [str1 c]
           | w :: ws => String c w :: ws
           end
  end.

Fixpoint join_with (sep : string) (l : list string) : string :=
  match l with
  | [] => EmptyString
  | [w] => w
  | w :: ws => w ++ sep ++ join_with sep ws
  end.

Fixpoint leading (c : ascii) (s : string) : nat :=
  match s with
  | String d s' => if Ascii.eqb d c then S (leading c s') else 0
  | EmptyString => 0
  end.

Definition is_empty_str (s : string) : bool :=
  match s with EmptyString => true | _ => false end.

(* ================================================================== *)
(** ** pathlib (POSIX flavour)                                         *)
(* ================================================================== *)

Module pathlib.

(** [root] is the empty string, a single slash or two slashes;
    [names] are the components after the root. *)
Record Path : Type := mkPath { root : string; names : list string }.

(** [Path(s)]: a root of exactly two slashes is kept, any other run of
    leading slashes is one slash; empty components and single dots are
    dropped. *)
Definition of_str (s : string) : Path :=
  {| root := match leading slash s with
             | 0 => EmptyString
             | 2 => "//"
             | _ => "/"
             end;
     names := filter (fun w => negb (is_empty_str w) && negb (w =? "."))
                     (split_on slash s) |}.

Definition is_absolute (p : Path) : bool := negb (is_empty_str (root p)).

(** [a / b]: an absolute right operand replaces the left one. *)
Definition joinpath (a b : Path) : Path :=
  if is_absolute b then b
  else {| root := root a; names := names a ++ names b |}.

(** [p.parts]: the root is the first part of an absolute path. *)
Definition parts (p : Path) : list string :=
  if is_absolute p then root p :: names p else names p.

(** [p.name]: the last component, empty when there is none. *)
Definition name (p : Path) : string := last (names p) EmptyString.

(** [p.suffix]: the extension of the last component, from its last dot
    on; empty when the name has no dot, starts with its only dot or ends
    with a dot. *)
Definition suffix (p : Path) : string :=
  let n := name p in
  match rev (split_on dot n) with
  | [] | [_] => EmptyString
  | ext :: before =>
      if is_empty_str ext then EmptyString
      else if is_empty_str (join_with "." (rev before)) then EmptyString
      else String dot ext
  end.

(** [p.as_posix()], also [str(p)]. *)
Definition as_posix (p : Path) : string :=
  match root p, names p with
  | EmptyString, [] => "."
  | r, ns => r ++ join_with "/" ns
  end.

Fixpoint strip_prefix (pre l : list string) : option (list string) :=
  match pre, l with
  | [], _ => Some l
  | a :: pre', b :: l' => if a =? b then strip_prefix pre' l' else None
  | _ :: _, [] => None
  end.

(** [p.relative_to(base)]: [ValueError] when [p] is not under [base]. *)
Definition relative_to (p base : Path) : result Path :=
  if root p =? root base then
    match strip_prefix (names base) (names p) with
    | Some rest => ret {| root := EmptyString; names := rest |}
    | None => raise ValueError
    end
  else raise ValueError.

Fixpoint names_eqb (l m : list string) : bool :=
  match l, m with
  | [], [] => true
  | a :: l', b :: m' => (a =? b) && names_eqb l' m'
  | _, _ => false
  end.

Definition eqb (p q : Path) : bool :=
  (root p =? root q) && names_eqb (names p) (names q).

End pathlib.

Import pathlib.

(* ================================================================== *)
(** ** Python values                                                   *)
(* ================================================================== *)

(** Row and column labels of a table, and its cells. *)
Inductive label : Type :=
| LStr (s : string)
| LInt (z : Z).

Inductive cell : Type :=
| CInt (z : Z)
| CStr (s : string).

(** [pandas.DataFrame], as [read_csv(path, index_col=0)] builds it: the
    first column labels the rows, the header labels the columns. *)
Record DataFrame : Type := mkFrame {
  df_index : list label;
  df_columns : list label;
  df_data : list (list cell)
}.

(** [pandas.Series]: one row, labelled by the columns. *)
Record Series : Type := mkSeries {
  sr_index : list label;
  sr_data : list cell
}.

Unset Elimination Schemes.

Inductive value : Type :=
| VNone
| VBool (b : bool)
| VInt (z : Z)
| VStr (s : string)
| VList (items : list value)
| VDict (pairs : list (string * value))
| VPath (p : Path)
| VFrame (df : DataFrame)
| VSeries (sr : Series).

Set Elimination Schemes.

Section value_induction.

Variable P : value -> Prop.
Hypothesis HNone : P VNone.
Hypothesis HBool : forall b, P (VBool b).
Hypothesis HInt : forall z, P (VInt z).
Hypothesis HStr : forall s, P (VStr s).
Hypothesis HList : forall items, Forall P items -> P (VList items).
Hypothesis HDict :
  forall pairs, Forall (fun kv => P (snd kv)) pairs -> P (VDict pairs).
Hypothesis HPath : forall p, P (VPath p).
Hypothesis HFrame : forall df, P (VFrame df).
Hypothesis HSeries : forall sr, P (VSeries sr).

Fixpoint value_ind (v : value) : P v :=
  match v with
  | VNone => HNone
  | VBool b => HBool b
  | VInt z => HInt z
  | VStr s => HStr s
  | VList items =>
      HList items
        ((fix go (l : list value) : Forall P l :=
            match l with
            | [] => Forall_nil _
            | x :: l' => Forall_cons x (value_ind x) (go l')
            end) items)
  | VDict pairs =>
      HDict pairs
        ((fix go (l : list (string * value))
            : Forall (fun kv => P (snd kv)) l :=
            match l with
            | [] => Forall_nil _
            | kv :: l' =>
                @Forall_cons _ (fun kv => P (snd kv)) kv l'
                             (value_ind (snd kv)) (go l')
            end) pairs)
  | VPath p => HPath p
  | VFrame df => HFrame df
  | VSeries sr => HSeries sr
  end.

End value_induction.

(** [isinstance(v, (dict, list))] *)
Definition is_container (v : value) : bool :=
  match v with
  | VList _ | VDict _ => true
  | _ => false
  end.

(** [bool(v)]; a table has no truth value. *)
Definition truthy (v : value) : result bool :=
  match v with
  | VNone => ret false
  | VBool b => ret b
  | VInt z => ret (negb (z =? 0)%Z)
  | VStr s => ret (negb (is_empty_str s))
  | VList l => ret (match l with [] => false | _ => true end)
  | VDict d => ret (match d with [] => false | _ => true end)
  | VPath _ => ret true
  | VFrame _ | VSeries _ => raise ValueError
  end.

(** Dictionaries keep insertion order; keys are strings. *)
Fixpoint dict_lookup (k : string) (d : list (string * value)) : option value :=
  match d with
  | [] => None
  | (k', v) :: d' => if k =? k' then Some v else dict_lookup k d'
  end.

Definition dict_mem (k : string) (d : list (string * value)) : bool :=
  match dict_lookup k d with Some _ => true | None => false end.

(** [d[k] = v]: an existing key keeps its position. *)
Fixpoint dict_set (k : string) (v : value) (d : list (string * value))
  : list (string * value) :=
  match d with
  | [] => [(k, v)]
  | (k', v') :: d' =>
      if k =? k' then (k, v) :: d' else (k', v') :: dict_set k v d'
  end.

(** [dict(pairs)]: later pairs overwrite earlier ones. *)
Definition dict_of_pairs (pairs : list (string * value)) : list (string * value) :=
  fold_left (fun d kv => dict_set (fst kv) (snd kv) d) pairs [].

(** [iter(v)]: the items a [for] loop visits. *)
Definition chars (s : string) : list string := map str1 (list_ascii_of_string s).

Definition py_iter (v : value) : result (list value) :=
  match v with
  | VList l => ret l
  | VStr s => ret (map VStr (chars s))
  | VDict d => ret (map (fun kv => VStr (fst kv)) d)
  | VFrame _ | VSeries _ => raise OutOfModel
  | VNone | VBool _ | VInt _ | VPath _ => raise TypeError
  end.

(** [v[0]] *)
Definition py_getitem0 (v : value) : result value :=
  match v with
  | VList l => match l with [] => raise IndexError | x :: _ => ret x end
  | VStr s => match s with
              | EmptyString => raise IndexError
              | String c _ => ret (VStr (str1 c))
              end
  | VDict _ => raise KeyError
  | VFrame _ | VSeries _ => raise OutOfModel
  | VNone | VBool _ | VInt _ | VPath _ => raise TypeError
  end.

(** [Path(v)] *)
Definition to_Path (v : value) : result Path :=
  match v with
  | VStr s => ret (of_str s)
  | VPath p => ret p
  | _ => raise TypeError
  end.

(* ================================================================== *)
(** ** json: [dumps] and [loads] of the standard library               *)
(* ================================================================== *)

Module json.

Import Decimal.

Definition quote : ascii := ascii_of_nat 34.
Definition backslash : ascii := ascii_of_nat 92.

(** *** Encoder ([ensure_ascii], default separators) *)

Definition hex_digit (n : nat) : ascii :=
  match n with
  | 0 => "0" | 1 => "1" | 2 => "2" | 3 => "3" | 4 => "4" | 5 => "5"
  | 6 => "6" | 7 => "7" | 8 => "8" | 9 => "9" | 10 => "a" | 11 => "b"
  | 12 => "c" | 13 => "d" | 14 => "e" | _ => "f"
  end%char.

(** A character that a string literal holds as it is: printable ASCII
    other than the quote and the backslash. *)
Definition plain (c : ascii) : bool :=
  let n := nat_of_ascii c in
  Nat.leb 32 n && Nat.leb n 126
  && negb (Ascii.eqb c quote) && negb (Ascii.eqb c backslash).

Definition escape_char (c : ascii) : string :=
  let n := nat_of_ascii c in
  if Ascii.eqb c quote then String backslash (str1 quote)
  else if Ascii.eqb c backslash then String backslash (str1 backslash)
  else if Nat.eqb n 8 then String backslash "b"
  else if Nat.eqb n 12 then String backslash "f"
  else if Nat.eqb n 10 then String backslash "n"
  else if Nat.eqb n 13 then String backslash "r"
  else if Nat.eqb n 9 then String backslash "t"
  else if Nat.leb 32 n && Nat.leb n 126 then str1 c
  else String backslash
         (String "u" (String "0" (String "0"
            (String (hex_digit (n / 16)) (str1 (hex_digit (n mod 16))))))).

(** The body of [encode_basestring_ascii], without the two quotes. *)
Fixpoint escape (s : string) : string :=
  match s with
  | EmptyString => EmptyString
  | String c s' => escape_char c ++ escape s'
  end.

Definition string_of_Z (z : Z) : string :=
  DecimalString.NilZero.string_of_int (Z.to_int z).

Section encode.

(** [enc] renders the body of a string literal; [dumps] uses [escape]. *)
Variable enc : string -> string.

Definition literal (s : string) : string :=
  String quote (enc s ++ str1 quote).

Section items.
Variable encode : value -> result string.

Fixpoint encode_items (l : list value) : result (list string) :=
  match l with
  | [] => ret []
  | x :: l' =>
      t <- encode x ;; ts <- encode_items l' ;; ret (t :: ts)
  end.

Fixpoint encode_members (d : list (string * value))
  : result (list string) :=
  match d with
  | [] => ret []
  | (k, x) :: d' =>
      t <- encode x ;; ts <- encode_members d' ;;
      ret ((literal k ++ ": " ++ t)%string :: ts)
  end.
End items.

Fixpoint encode (v : value) : result string :=
  match v with
  | VNone => ret "null"
  | VBool true => ret "true"
  | VBool false => ret "false"
  | VInt z => ret (string_of_Z z)
  | VStr s => ret (literal s)
  | VList l =>
      ts <- encode_items encode l ;;
      ret ("[" ++ join_with ", " ts ++ "]")%string
  | VDict d =>
      ts <- encode_members encode d ;;
      ret ("{" ++ join_with ", " ts ++ "}")%string
  | VPath _ | VFrame _ | VSeries _ => raise TypeError
  end.

End encode.

Definition dumps (v : value) : result string := encode escape v.

(** *** Decoder (strict) *)

Definition is_ws (c : ascii) : bool :=
  let n := nat_of_ascii c in
  Nat.eqb n 32 || Nat.eqb n 9 || Nat.eqb n 10 || Nat.eqb n 13.

Fixpoint skip_ws (s : string) : string :=
  match s with
  | String c s' => if is_ws c then skip_ws s' else s
  | EmptyString => s
  end.

(** The value of a hexadecimal digit, in either case. *)
Definition hex_value (c : ascii) : option nat :=
  let n := nat_of_ascii c in
  if Nat.leb 48 n && Nat.leb n 57 then Some (n - 48)
  else if Nat.leb 97 n && Nat.leb n 102 then Some (n - 87)
  else if Nat.leb 65 n && Nat.leb n 70 then Some (n - 55)
  else None.

(** The character a [\uXXXX] escape stands for. *)
Definition decode_uXXXX (h1 h2 h3 h4 : ascii) : result ascii :=
  match hex_value h1, hex_value h2, hex_value h3, hex_value h4 with
  | Some a, Some b, Some c, Some d =>
      if Nat.eqb a 0 && Nat.eqb b 0 then ret (ascii_of_nat (c * 16 + d))
      else raise OutOfModel
  | _, _, _, _ => raise JSONDecodeError
  end.

Definition unescape (e : ascii) : option ascii :=
  if Ascii.eqb e quote then Some quote
  else if Ascii.eqb e backslash then Some backslash
  else match e with
       | "/" => Some "/"
       | "b" => Some (ascii_of_nat 8)
       | "f" => Some (ascii_of_nat 12)
       | "n" => Some (ascii_of_nat 10)
       | "r" => Some (ascii_of_nat 13)
       | "t" => Some (ascii_of_nat 9)
       | _ => None
       end%char.

Definition cons_char (c : ascii) (r : result (string * string))
  : result (string * string) :=
  p <- r ;; ret (String c (fst p), snd p).

(** [scanstring]: the input starts after the opening quote; the result is
    the decoded string and the text after the closing quote. *)
Fixpoint scanstring (s : string) : result (string * string) :=
  match s with
  | EmptyString => raise JSONDecodeError
  | String c s' =>
      if Ascii.eqb c quote then ret (EmptyString, s')
      else if Ascii.eqb c backslash then
        match s' with
        | EmptyString => raise JSONDecodeError
        | String e s'' =>
            if Ascii.eqb e "u" then
              match s'' with
              | String h1 (String h2 (String h3 (String h4 s3))) =>
                  ch <- decode_uXXXX h1 h2 h3 h4 ;;
                  cons_char ch (scanstring s3)
              | _ => raise JSONDecodeError
              end
            else
              match unescape e with
              | Some ch => cons_char ch (scanstring s'')
              | None => raise JSONDecodeError
              end
        end
      else if Nat.ltb (nat_of_ascii c) 32 then raise JSONDecodeError
      else cons_char c (scanstring s')
  end.

Definition digit_of (c : ascii) : option (uint -> uint) :=
  match c with
  | "0" => Some D0 | "1" => Some D1 | "2" => Some D2 | "3" => Some D3
  | "4" => Some D4 | "5" => Some D5 | "6" => Some D6 | "7" => Some D7
  | "8" => Some D8 | "9" => Some D9
  | _ => None
  end%char.

Definition is_digit (c : ascii) : bool :=
  match digit_of c with Some _ => true | None => false end.

Fixpoint lex_digits (s : string) : uint * string :=
  match s with
  | EmptyString => (Nil, s)
  | String c s' =>
      match digit_of c with
      | Some d => let (u, r) := lex_digits s' in (d u, r)
      | None => (Nil, s)
      end
  end.

(** The integer part of a number: a single zero, or a non-zero digit
    and all the digits after it. *)
Definition match_integer (s : string) : option (uint * string) :=
  match s with
  | EmptyString => None
  | String c s' =>
      if Ascii.eqb c "0" then Some (D0 Nil, s')
      else if is_digit c then Some (lex_digits s)
      else None
  end.

(** A fraction or an exponent after the integer part makes a float. *)
Definition starts_frac (s : string) : bool :=
  match s with
  | String "." (String d _) => is_digit d
  | _ => false
  end.

Definition starts_exp (s : string) : bool :=
  match s with
  | String e (String d r) =>
      (Ascii.eqb e "e" || Ascii.eqb e "E")
      && (is_digit d
          || ((Ascii.eqb d "+" || Ascii.eqb d "-")
              && match r with
                 | String d' _ => is_digit d'
                 | EmptyString => false
                 end))
  | _ => false
  end.

Definition match_number (s : string) : option (result value * string) :=
  let (neg, body) :=
    match s with
    | String "-" s' => (true, s')
    | _ => (false, s)
    end in
  match match_integer body with
  | None => None
  | Some (u, r) =>
      if starts_frac r || starts_exp r then Some (raise OutOfModel, r)
      else Some (ret (VInt (if neg then Z.opp (Z.of_uint u) else Z.of_uint u)),
                 r)
  end.

Fixpoint starts_with (pre s : string) : option string :=
  match pre, s with
  | EmptyString, _ => Some s
  | String a pre', String b s' =>
      if Ascii.eqb a b then starts_with pre' s' else None
  | String _ _, EmptyString => None
  end.

(** The scanner.  Every call consumes a character before it recurses, so
    [fuel] above the length of the text is never used up. *)
Fixpoint scan_once (fuel : nat) (s : string) {struct fuel}
  : result (value * string) :=
  match fuel with
  | 0 => raise OutOfModel
  | S fuel' =>
      match s with
      | EmptyString => raise JSONDecodeError
      | String c s' =>
          if Ascii.eqb c quote then
            p <- scanstring s' ;; ret (VStr (fst p), snd p)
          else if Ascii.eqb c "{" then
            match skip_ws s' with
            | String c1 r =>
                if Ascii.eqb c1 "}" then ret (VDict [], r)
                else if Ascii.eqb c1 quote then
                  p <- object_members fuel' r ;;
                  ret (VDict (dict_of_pairs (fst p)), snd p)
                else raise JSONDecodeError
            | EmptyString => raise JSONDecodeError
            end
          else if Ascii.eqb c "[" then
            match skip_ws s' with
            | String c1 r =>
                if Ascii.eqb c1 "]" then ret (VList [], r)
                else
                  p <- array_items fuel' (String c1 r) ;;
                  ret (VList (fst p), snd p)
            | EmptyString => raise JSONDecodeError
            end
          else
            match starts_with "null" s, starts_with "true" s,
                  starts_with "false" s with
            | Some r, _, _ => ret (VNone, r)
            | _, Some r, _ => ret (VBool true, r)
            | _, _, Some r => ret (VBool false, r)
            | None, None, None =>
                match match_number s with
                | Some (v, r) => x <- v ;; ret (x, r)
                | None =>
                    match starts_with "NaN" s, starts_with "Infinity" s,
                          starts_with "-Infinity" s with
                    | None, None, None => raise JSONDecodeError
                    | _, _, _ => raise OutOfModel
                    end
                end
            end
      end
  end

(** The input starts at the first character of an element. *)
with array_items (fuel : nat) (s : string) {struct fuel}
  : result (list value * string) :=
  match fuel with
  | 0 => raise OutOfModel
  | S fuel' =>
      p <- scan_once fuel' s ;;
      match skip_ws (snd p) with
      | String c r =>
          if Ascii.eqb c "]" then ret ([fst p], r)
          else if Ascii.eqb c "," then
            q <- array_items fuel' (skip_ws r) ;;
            ret (fst p :: fst q, snd q)
          else raise JSONDecodeError
      | EmptyString => raise JSONDecodeError
      end
  end

(** The input starts after the opening quote of a key. *)
with object_members (fuel : nat) (s : string) {struct fuel}
  : result (list (string * value) * string) :=
  match fuel with
  | 0 => raise OutOfModel
  | S fuel' =>
      k <- scanstring s ;;
      match skip_ws (snd k) with
      | String c r =>
          if Ascii.eqb c ":" then
            p <- scan_once fuel' (skip_ws r) ;;
            match skip_ws (snd p) with
            | String c1 r1 =>
                if Ascii.eqb c1 "}" then ret ([(fst k, fst p)], r1)
                else if Ascii.eqb c1 "," then
                  match skip_ws r1 with
                  | String c2 r2 =>
                      if Ascii.eqb c2 quote then
                        q <- object_members fuel' r2 ;;
                        ret ((fst k, fst p) :: fst q, snd q)
                      else raise JSONDecodeError
                  | EmptyString => raise JSONDecodeError
                  end
                else raise JSONDecodeError
            | EmptyString => raise JSONDecodeError
            end
          else raise JSONDecodeError
      | EmptyString => raise JSONDecodeError
      end
  end.

(** [json.loads]: one value between optional white space. *)
Definition loads (s : string) : result value :=
  p <- scan_once (S (String.length s)) (skip_ws s) ;;
  match skip_ws (snd p) with
  | EmptyString => ret (fst p)
  | String _ _ => raise JSONDecodeError
  end.

End json.

(* ================================================================== *)
(** ** [str.replace]                                                   *)
(* ================================================================== *)

(** Occurrences are found from left to right and do not overlap; [skip]
    counts the characters of a found occurrence that are still to drop. *)
Fixpoint replace_from (old new : string) (skip : nat) (s : string) : string :=
  match s with
  | EmptyString => EmptyString
  | String c s' =>
      match skip with
      | S k => replace_from old new k s'
      | 0 =>
          if String.prefix old s
          then (new ++ replace_from old new (String.length old - 1) s')%string
          else String c (replace_from old new 0 s')
      end
  end.

Fixpoint intersperse (new : string) (s : string) : string :=
  match s with
  | EmptyString => new
  | String c s' => (new ++ String c (intersperse new s'))%string
  end.

Definition replace (old new s : string) : string :=
  match old with
  | EmptyString => intersperse new s
  | String _ _ => replace_from old new 0 s
  end.

(* ================================================================== *)
(** ** Tables                                                          *)
(* ================================================================== *)

Definition label_eqb (a b : label) : bool :=
  match a, b with
  | LStr s, LStr t => s =? t
  | LInt x, LInt y => (x =? y)%Z
  | _, _ => false
  end.

Definition cell_value (c : cell) : value :=
  match c with
  | CInt z => VInt z
  | CStr s => VStr s
  end.

(** [df.empty]: an axis of length zero. *)
Definition df_empty (df : DataFrame) : bool :=
  match df_index df, df_columns df with
  | [], _ | _, [] => true
  | _, _ => false
  end.

(** A key selects by label when it is a string or an integer. *)
Definition key_label (key : value) : result label :=
  match key with
  | VStr s => ret (LStr s)
  | VInt z => ret (LInt z)
  | _ => raise OutOfModel
  end.

Definition select {A : Type} (lab : label) (index : list label) (data : list A)
  : list A :=
  map snd (filter (fun p => label_eqb (fst p) lab) (combine index data)).

(** [df.loc[key]]: an absent label raises [KeyError]; one matching row is a
    [Series], several are a table. *)
Definition frame_loc (df : DataFrame) (key : value) : result value :=
  lab <- key_label key ;;
  match select lab (df_index df) (df_data df) with
  | [] => raise KeyError
  | [row] => ret (VSeries {| sr_index := df_columns df; sr_data := row |})
  | rows =>
      ret (VFrame {| df_index := repeat lab (List.length rows);
                     df_columns := df_columns df;
                     df_data := rows |})
  end.

(** [sr.loc[key]] *)
Definition series_loc (sr : Series) (key : value) : result value :=
  lab <- key_label key ;;
  match select lab (sr_index sr) (sr_data sr) with
  | [] => raise KeyError
  | [c] => ret (cell_value c)
  | cs => ret (VSeries {| sr_index := repeat lab (List.length cs);
                          sr_data := cs |})
  end.

(** [v.loc[key]] *)
Definition py_loc (v : value) (key : value) : result value :=
  match v with
  | VFrame df => frame_loc df key
  | VSeries sr => series_loc sr key
  | _ => raise AttributeError
  end.

(** [v.get(key, None)]: only a dictionary (or a table) has [get]; a list
    or a dictionary is no hashable key. *)
Definition py_get (v : value) (key : value) : result value :=
  match v with
  | VDict d =>
      match key with
      | VStr k => ret (match dict_lookup k d with Some x => x | None => VNone end)
      | VList _ | VDict _ => raise TypeError
      | VFrame _ | VSeries _ => raise TypeError
      | VNone | VBool _ | VInt _ | VPath _ => ret VNone
      end
  | VFrame _ | VSeries _ => raise OutOfModel
  | _ => raise AttributeError
  end.

(* ================================================================== *)
(** ** The file system                                                 *)
(* ================================================================== *)

Record FileSystem : Type := mkFS {
  (** [Path.exists()]; [OSError] is how a denied [stat] surfaces. *)
  path_exists : Path -> result bool;
  (** [open().read()] *)
  read_text : Path -> result string;
  (** [pandas.read_csv(path, index_col=0)] *)
  read_csv : Path -> result DataFrame;
  (** [Path.rglob(pattern)], in the order the directory walk yields. *)
  rglob : Path -> string -> result (list Path);
  (** [Path.iterdir()] *)
  iterdir : Path -> result (list Path);
  (** [Path.home()] *)
  home : Path
}.

(** [open("w")] followed by a write of [text]. *)
Definition write_text (fs : FileSystem) (p : Path) (text : string) : FileSystem :=
  {| path_exists := fun q => if pathlib.eqb q p then ret true else path_exists fs q;
     read_text := fun q => if pathlib.eqb q p then ret text else read_text fs q;
     read_csv := read_csv fs;
     rglob := rglob fs;
     iterdir := iterdir fs;
     home := home fs |}.

(* ================================================================== *)
(** ** config.py                                                       *)
(* ================================================================== *)

Record GradioConfig : Type := mkConfig {
  results_folder : option Path;
  layout : value;
  thumbnail_path : value;
  filter_results_by_existance_of : option string;
  filename : option string;
  page_limit : Z;
  cache_folder : option Path
}.

(** [a / s] for a string [s] *)
Definition div (a : Path) (s : string) : Path := joinpath a (of_str s).

(** [__post_init__] *)
Definition post_init (fs : FileSystem) (cfg : GradioConfig) : result GradioConfig :=
  let cfg' :=
    match cache_folder cfg with
    | Some _ => cfg
    | None =>
        {| results_folder := results_folder cfg;
           layout := layout cfg;
           thumbnail_path := thumbnail_path cfg;
           filter_results_by_existance_of := filter_results_by_existance_of cfg;
           filename := filename cfg;
           page_limit := page_limit cfg;
           cache_folder :=
             Some (div (div (div (home fs) ".cache") "hoigen3d") "gradio_app") |}
    end in
  match thumbnail_path cfg with
  | VStr _ | VPath _ => ret cfg'
  | VDict d =>
      match dict_lookup "first_path_exists" d with
      | Some (VList l) =>
          match l with
          | [] => raise IndexError
          | VStr _ :: _ | VPath _ :: _ => ret cfg'
          | _ :: _ => raise TypeError
          end
      | _ => raise TypeError
      end
  | _ => raise TypeError
  end.

(* ================================================================== *)
(** ** layout_decode.py                                                *)
(* ================================================================== *)

Definition placeholder : string := "${sample_folder_name}".

(** The function under the [lru_cache] decorator of [load_file]: what a
    call gives when the memo has no entry for the path.  The decorated
    function is [cached.load_file]; the resolution of a layout with it
    gives what the resolution with this function gives as long as the
    entries of the memo are what the files give. *)
Definition load_file (fs : FileSystem) (filepath : Path) : result value :=
  let sfx := suffix filepath in
  if sfx =? ".json" then text <- read_text fs filepath ;; json.loads text
  else if sfx =? ".csv" then df <- read_csv fs filepath ;; ret (VFrame df)
  else if sfx =? ".txt" then text <- read_text fs filepath ;; ret (VStr text)
  else raise NotImplementedError.

(** The loop of [get_first_path_exists]: the first candidate whose full
    path exists. *)
Fixpoint first_existing (fs : FileSystem) (items : list value)
         (sample_folder : Path) : result (option Path) :=
  match items with
  | [] => ret None
  | path :: rest =>
      full_path <- to_Path path ;;
      let full_path :=
        if negb (is_absolute full_path) then joinpath sample_folder full_path
        else full_path in
      found <- path_exists fs full_path ;;
      if found then ret (Some full_path)
      else first_existing fs rest sample_folder
  end.

Definition get_first_path_exists (fs : FileSystem) (path_candidates : value)
           (sample_folder : Path) : result value :=
  items <- py_iter path_candidates ;;
  found <- first_existing fs items sample_folder ;;
  match found with
  | Some full_path => ret (VPath full_path)
  | None => py_getitem0 path_candidates
  end.

(** [for index_key in indices: to_return = to_return.get(index_key, None)],
    left as soon as a lookup gives [None]. *)
Fixpoint get_chain (to_return : value) (keys : list value) : result value :=
  match keys with
  | [] => ret to_return
  | index_key :: keys' =>
      x <- py_get to_return index_key ;;
      match x with
      | VNone => ret VNone
      | _ => get_chain x keys'
      end
  end.

(** [for index_key in indices: to_return = to_return.loc[index_key]] *)
Fixpoint loc_chain (to_return : value) (keys : list value) : result value :=
  match keys with
  | [] => ret to_return
  | index_key :: keys' =>
      x <- py_loc to_return index_key ;;
      loc_chain x keys'
  end.

(** [indices in (None, [])] *)
Definition no_indices (indices : value) : result bool :=
  match indices with
  | VNone | VList [] => ret true
  | VFrame _ | VSeries _ => raise ValueError
  | _ => ret false
  end.

Section resolve.

Variable fs : FileSystem.
Variable sample_name : string.
Variable results_folder : option Path.

(** [results_folder / sample_name] *)
Definition sample_folder : result Path :=
  match results_folder with
  | Some r => ret (div r sample_name)
  | None => raise TypeError
  end.

(** The part of [load_layout_files] after the test of [load_contents]. *)
Definition load_contents (data : list (string * value)) : result value :=
  match dict_lookup "load_path" data with
  | None => raise ValueError
  | Some lp =>
      load_path <- to_Path lp ;;
      load_path <-
        (if negb (is_absolute load_path)
         then base <- sample_folder ;; ret (joinpath base load_path)
         else ret load_path) ;;
      found <- path_exists fs load_path ;;
      if negb found then raise FileNotFoundError
      else
        file_contents <- load_file fs load_path ;;
        let indices :=
          match dict_lookup "indices" data with
          | Some i => i
          | None => VNone
          end in
        none <- no_indices indices ;;
        if none then ret file_contents
        else
          match file_contents with
          | VDict d =>
              match d with
              | [] => ret VNone
              | _ :: _ =>
                  keys <- py_iter indices ;;
                  get_chain file_contents keys
              end
          | VFrame df =>
              if df_empty df then ret VNone
              else
                keys <- py_iter indices ;;
                loc_chain file_contents keys
          | _ => raise TypeError
          end
  end.

Fixpoint load_layout_files (data : value) : result value :=
  match data with
  | VList l =>
      r <- mapM load_layout_files l ;; ret (VList r)
  | VDict d =>
      match dict_lookup "first_path_exists" d with
      | Some candidates =>
          base <- sample_folder ;;
          get_first_path_exists fs candidates base
      | None =>
          flag <- truthy (match dict_lookup "load_contents" d with
                          | Some x => x
                          | None => VBool false
                          end) ;;
          if negb flag then
            r <- mapM (fun kv =>
                         let (k, v) := kv : string * value in
                         if negb (is_container v) then ret (k, v)
                         else x <- load_layout_files v ;; ret (k, x)) d ;;
            ret (VDict r)
          else load_contents d
      end
  | _ => raise TypeError
  end.

End resolve.

Definition prepare_layout_components (fs : FileSystem) (cfg : GradioConfig)
           (folder_name : string) : result value :=
  text <- json.dumps (layout cfg) ;;
  layout <- json.loads (replace placeholder folder_name text) ;;
  load_layout_files fs folder_name (results_folder cfg) layout.

(* ================================================================== *)
(** ** hashlib.sha256                                                  *)
(* ================================================================== *)

Module sha256.

Local Open Scope N_scope.

(** Words are 32-bit, kept in [N] and reduced after each addition. *)
Definition mask : N := 0xffffffff.

Definition add32 (a b : N) : N := N.land (a + b) mask.
Definition rotr (n x : N) : N :=
  N.lor (N.shiftr x n) (N.land (N.shiftl x (32 - n)) mask).
Definition xor3 (a b c : N) : N := N.lxor (N.lxor a b) c.

Definition ch (x y z : N) : N :=
  N.lxor (N.land x y) (N.land (N.lxor x mask) z).
Definition maj (x y z : N) : N :=
  xor3 (N.land x y) (N.land x z) (N.land y z).
Definition bsig0 (x : N) : N := xor3 (rotr 2 x) (rotr 13 x) (rotr 22 x).
Definition bsig1 (x : N) : N := xor3 (rotr 6 x) (rotr 11 x) (rotr 25 x).
Definition ssig0 (x : N) : N := xor3 (rotr 7 x) (rotr 18 x) (N.shiftr x 3).
Definition ssig1 (x : N) : N := xor3 (rotr 17 x) (rotr 19 x) (N.shiftr x 10).

(** A word from its high and low halves. *)
Definition w (hi lo : N) : N := hi * 0x10000 + lo.

(** The round constants and the initial hash value of FIPS 180-4. *)
Definition K : list N :=
  [w 0x428a 0x2f98; w 0x7137 0x4491; w 0xb5c0 0xfbcf; w 0xe9b5 0xdba5;
   w 0x3956 0xc25b; w 0x59f1 0x11f1; w 0x923f 0x82a4; w 0xab1c 0x5ed5;
   w 0xd807 0xaa98; w 0x1283 0x5b01; w 0x2431 0x85be; w 0x550c 0x7dc3;
   w 0x72be 0x5d74; w 0x80de 0xb1fe; w 0x9bdc 0x06a7; w 0xc19b 0xf174;
   w 0xe49b 0x69c1; w 0xefbe 0x4786; w 0x0fc1 0x9dc6; w 0x240c 0xa1cc;
   w 0x2de9 0x2c6f; w 0x4a74 0x84aa; w 0x5cb0 0xa9dc; w 0x76f9 0x88da;
   w 0x983e 0x5152; w 0xa831 0xc66d; w 0xb003 0x27c8; w 0xbf59 0x7fc7;
   w 0xc6e0 0x0bf3; w 0xd5a7 0x9147; w 0x06ca 0x6351; w 0x1429 0x2967;
   w 0x27b7 0x0a85; w 0x2e1b 0x2138; w 0x4d2c 0x6dfc; w 0x5338 0x0d13;
   w 0x650a 0x7354; w 0x766a 0x0abb; w 0x81c2 0xc92e; w 0x9272 0x2c85;
   w 0xa2bf 0xe8a1; w 0xa81a 0x664b; w 0xc24b 0x8b70; w 0xc76c 0x51a3;
   w 0xd192 0xe819; w 0xd699 0x0624; w 0xf40e 0x3585; w 0x106a 0xa070;
   w 0x19a4 0xc116; w 0x1e37 0x6c08; w 0x2748 0x774c; w 0x34b0 0xbcb5;
   w 0x391c 0x0cb3; w 0x4ed8 0xaa4a; w 0x5b9c 0xca4f; w 0x682e 0x6ff3;
   w 0x748f 0x82ee; w 0x78a5 0x636f; w 0x84c8 0x7814; w 0x8cc7 0x0208;
   w 0x90be 0xfffa; w 0xa450 0x6ceb; w 0xbef9 0xa3f7; w 0xc671 0x78f2].

Definition H0 : list N :=
  [w 0x6a09 0xe667; w 0xbb67 0xae85; w 0x3c6e 0xf372; w 0xa54f 0xf53a;
   w 0x510e 0x527f; w 0x9b05 0x688c; w 0x1f83 0xd9ab; w 0x5be0 0xcd19].

(** Padding: a one bit, zeros, and the bit length on 64 bits. *)
Definition be_bytes (count : nat) (x : N) : list N :=
  map (fun i => N.land (N.shiftr x (8 * N.of_nat i)) 0xff) (rev (seq 0 count)).

Definition pad (msg : list N) : list N :=
  let len := List.length msg in
  let zeros := ((64 + 55 - len mod 64) mod 64)%nat in
  (msg ++ [0x80] ++ repeat 0 zeros ++ be_bytes 8 (8 * N.of_nat len))%list.

Definition word_of (bs : list N) : N :=
  fold_left (fun acc b => N.lor (N.shiftl acc 8) b) bs 0.

Fixpoint words (count : nat) (bs : list N) : list N :=
  match count with
  | O => []
  | S n => word_of (firstn 4 bs) :: words n (skipn 4 bs)
  end.

(** The message schedule, latest word first. *)
Fixpoint schedule (count : nat) (rw : list N) : list N :=
  match count with
  | O => rw
  | S n =>
      let w := add32 (add32 (ssig1 (nth 1 rw 0)) (nth 6 rw 0))
                     (add32 (ssig0 (nth 14 rw 0)) (nth 15 rw 0)) in
      schedule n (w :: rw)
  end.

Definition round (st : list N) (kw : N * N) : list N :=
  match st with
  | [a; b; c; d; e; f; g; h] =>
      let t1 := add32 (add32 (add32 h (bsig1 e)) (add32 (ch e f g) (fst kw)))
                      (snd kw) in
      let t2 := add32 (bsig0 a) (maj a b c) in
      [add32 t1 t2; a; b; c; add32 d t1; e; f; g]
  | _ => st
  end.

Definition compress (h : list N) (block : list N) : list N :=
  let w := rev (schedule 48 (rev (words 16 block))) in
  map (fun p => add32 (fst p) (snd p))
      (combine h (fold_left round (combine K w) h)).

Fixpoint blocks (count : nat) (h : list N) (bs : list N) : list N :=
  match count with
  | O => h
  | S n => blocks n (compress h (firstn 64 bs)) (skipn 64 bs)
  end.

Definition digest (msg : list N) : list N :=
  let padded := pad msg in
  blocks (List.length padded / 64) H0 padded.

Definition hex_of (x : N) : string :=
  string_of_list_ascii
    (map (fun i => json.hex_digit
                     (N.to_nat (N.land (N.shiftr x (4 * N.of_nat i)) 0xf)))
         (rev (seq 0 8))).

(** [hashlib.sha256(data).hexdigest()] *)
Definition hexdigest (msg : list N) : string :=
  String.concat EmptyString (map hex_of (digest msg)).

End sha256.

(** [s.encode()]: UTF-8; a code point from 128 on takes two bytes. *)
Definition encode_utf8 (s : string) : list N :=
  flat_map (fun c =>
              let n := N_of_ascii c in
              if (n <? 128)%N then [n]
              else [N.lor 0xc0 (N.shiftr n 6); N.lor 0x80 (N.land n 0x3f)]%N)
           (list_ascii_of_string s).

(* ================================================================== *)
(** ** backend.py                                                      *)
(* ================================================================== *)

(** *** [sorted] on paths

    Paths compare by their parts, strings by code points. *)

Fixpoint parts_leb (l m : list string) : bool :=
  match l, m with
  | [], _ => true
  | _ :: _, [] => false
  | a :: l', b :: m' =>
      if a =? b then parts_leb l' m' else String.ltb a b
  end.

Definition path_leb (p q : Path) : bool := parts_leb (parts p) (parts q).

Fixpoint insert_sorted (x : Path) (l : list Path) : list Path :=
  match l with
  | [] => [x]
  | y :: l' => if path_leb x y then x :: l else y :: insert_sorted x l'
  end.

Definition sorted (l : list Path) : list Path := fold_right insert_sorted [] l.

(** *** Slices: [l[lo:hi]] with Python's treatment of negative and
    out-of-range bounds *)

Definition clamp (len i : Z) : Z :=
  if (i <? 0)%Z then Z.max 0 (i + len) else Z.min i len.

Definition py_slice {A : Type} (l : list A) (lo hi : Z) : list A :=
  let len := Z.of_nat (List.length l) in
  let lo' := clamp len lo in
  let hi' := clamp len hi in
  firstn (Z.to_nat (hi' - lo')) (skipn (Z.to_nat lo') l).

(** *** The logger *)

Inductive log_record : Type :=
| LogError (msg : string)
| LogInfo (msg : string)
| LogException (msg : string) (e : exn).

(** The state outside the [Backend] object: the files and the log. *)
Record World : Type := mkWorld {
  files : FileSystem;
  log : list log_record
}.

Definition emit (w : World) (r : log_record) : World :=
  {| files := files w; log := (log w ++ [r])%list |}.

(** [mkdir(parents=True, exist_ok=True)]: the directory and the
    directories above it exist afterwards. *)
Definition is_ancestor_or_self (q dir : Path) : bool :=
  (root q =? root dir)
  && match strip_prefix (names q) (names dir) with
     | Some _ => true
     | None => false
     end.

Definition mkdir_parents (fs : FileSystem) (dir : Path) : FileSystem :=
  {| path_exists := fun q => if is_ancestor_or_self q dir then ret true
                             else path_exists fs q;
     read_text := read_text fs;
     read_csv := read_csv fs;
     rglob := rglob fs;
     iterdir := iterdir fs;
     home := home fs |}.

(** *** The [Backend] object; [all_samples_dirs] is [None] while the
    attribute has not been assigned. *)
Record Backend : Type := mkBackend {
  b_filename : option string;
  results_path : option Path;
  project_root : Path;
  b_thumbnail_path : value;
  b_filter : option string;
  cached_path : Path;
  all_samples_dirs : option (list Path)
}.

Definition set_samples (b : Backend) (dirs : list Path) : Backend :=
  {| b_filename := b_filename b;
     results_path := results_path b;
     project_root := project_root b;
     b_thumbnail_path := b_thumbnail_path b;
     b_filter := b_filter b;
     cached_path := cached_path b;
     all_samples_dirs := Some dirs |}.

(** [self.filter_results_by_existance_of or str()]: a missing or empty
    pattern counts as the empty string. *)
Definition or_empty (o : option string) : string :=
  match o with
  | Some s => if is_empty_str s then EmptyString else s
  | None => EmptyString
  end.

(** The name of the cache file, as [__init__] computes it. *)
Definition results_path_hash (results_path : option Path) (filter : option string)
  : string :=
  match results_path with
  | Some rp =>
      sha256.hexdigest (encode_utf8 (as_posix rp ++ or_empty filter)%string)
  | None => "null"
  end.

Definition cache_file_name (results_path : option Path) (filter : option string)
  : string :=
  (results_path_hash results_path filter ++ ".json")%string.

(** [p.parts[0]] *)
Definition first_part (p : Path) : result string :=
  match parts p with
  | [] => raise IndexError
  | x :: _ => ret x
  end.

(** The sample folders of a filtered discovery. *)
Definition filtered_folders (rp : Path) (found : list Path) : result (list Path) :=
  let all_samples := sorted found in
  all_samples_rel_path <- mapM (fun p => relative_to p rp) all_samples ;;
  mapM (fun p => x <- first_part p ;; ret (div rp x)) all_samples_rel_path.

Definition discover_all_samples (w : World) (b : Backend)
  : result (World * Backend) :=
  match results_path b with
  | None => ret (emit w (LogError "Results path is None"), b)
  | Some rp =>
      found <- path_exists (files w) rp ;;
      if negb found then
        ret (emit w (LogError ("Results path does not exist: " ++ as_posix rp)), b)
      else
        let w := emit w (LogInfo ("Loading results from " ++ as_posix rp)) in
        all_samples_folders <-
          match b_filter b with
          | Some pattern =>
              found <- rglob (files w) rp pattern ;;
              filtered_folders rp found
          | None =>
              children <- iterdir (files w) rp ;;
              ret (sorted children)
          end ;;
        let w := emit w (LogInfo ("Found "
                   ++ json.string_of_Z (Z.of_nat (List.length all_samples_folders))
                   ++ " samples")) in
        text <- json.dumps
                  (VList (map (fun p => VStr (as_posix p)) all_samples_folders)) ;;
        let w := {| files := write_text (files w) (cached_path b) text;
                    log := log w |} in
        ret (w, set_samples b all_samples_folders)
  end.

(** The folder of the cache file. *)
Definition cache_dir (fs : FileSystem) (config : GradioConfig) : Path :=
  match cache_folder config with
  | Some c => c
  | None => div (div (home fs) ".cache") "gradio_sample_viewer"
  end.

(** The object after the assignments of [__init__], before the sample
    list is loaded or discovered. *)
Definition new_backend (fs : FileSystem) (config : GradioConfig) (root : Path)
  : Backend :=
  {| b_filename := filename config;
     results_path := results_folder config;
     project_root := root;
     b_thumbnail_path := thumbnail_path config;
     b_filter := filter_results_by_existance_of config;
     cached_path :=
       div (cache_dir fs config)
           (cache_file_name (results_folder config)
                            (filter_results_by_existance_of config));
     all_samples_dirs := None |}.

(** [Backend.__init__] *)
Definition init (w : World) (config : GradioConfig) (root : Path)
  : result (World * Backend) :=
  let b := new_backend (files w) config root in
  let w := {| files := mkdir_parents (files w) (cache_dir (files w) config);
              log := log w |} in
  found <- path_exists (files w) (cached_path b) ;;
  if found then
    text <- read_text (files w) (cached_path b) ;;
    listed <- json.loads text ;;
    items <- py_iter listed ;;
    dirs <- mapM to_Path items ;;
    ret (w, set_samples b dirs)
  else discover_all_samples w b.

(** One entry of a page: the sample id and the gallery image. *)
Record SampleMeta : Type := mkMeta {
  id : string;
  image : value * string
}.

(** [v["first_path_exists"]] *)
Definition getitem_first_path_exists (v : value) : result value :=
  match v with
  | VDict d =>
      match dict_lookup "first_path_exists" d with
      | Some x => ret x
      | None => raise KeyError
      end
  | VFrame _ | VSeries _ => raise OutOfModel
  | _ => raise TypeError
  end.

(** The body of the loop of [get_samples_metadata]. *)
Definition sample_meta (fs : FileSystem) (b : Backend) (sample_dir : Path)
  : result SampleMeta :=
  thumbnail <-
    match b_thumbnail_path b with
    | VStr s => ret (VStr s)
    | other =>
        candidates <- getitem_first_path_exists other ;;
        get_first_path_exists fs candidates sample_dir
    end ;;
  ret {| id := name sample_dir; image := (thumbnail, name sample_dir) |}.

(** The [try] block of [get_samples_metadata]. *)
Definition list_samples (fs : FileSystem) (b : Backend) (offset limit : Z)
  : result (list SampleMeta) :=
  match all_samples_dirs b with
  | None => raise AttributeError
  | Some dirs => mapM (sample_meta fs b) (py_slice dirs offset (offset + limit))
  end.

(** [get_samples_metadata]: any exception of the block is logged and the
    page is empty. *)
Definition get_samples_metadata (w : World) (b : Backend) (offset limit : Z)
  : World * list SampleMeta :=
  match list_samples (files w) b offset limit with
  | inr results => (w, results)
  | inl e => (emit w (LogException "Error listing samples" e), [])
  end.

(* ================================================================== *)
(** ** The object store                                                *)
(* ================================================================== *)

(** Lists and dictionaries are objects with an identity: the configuration
    holds a reference to its layout, and [make_gradio_components] pops keys
    off the dictionaries it is given.  The store maps an address to the
    object that lives there; a new object takes the next address. *)

Module heap.

Definition loc : Type := nat.

(** A reference: an immutable value kept as it is, or the address of a
    list or a dictionary. *)
Inductive ref : Type :=
| RVal (v : value)
| RLoc (l : loc).

Inductive obj : Type :=
| OList (items : list ref)
| ODict (pairs : list (string * ref)).

Definition store : Type := list obj.

Definition refs_of (o : obj) : list ref :=
  match o with
  | OList items => items
  | ODict pairs => map snd pairs
  end.

Section traverse.
Context {A B : Type}.
Variable f : A -> option B.

Fixpoint mapO (l : list A) : option (list B) :=
  match l with
  | [] => Some []
  | a :: l' =>
      match f a, mapO l' with
      | Some b, Some bs => Some (b :: bs)
      | _, _ => None
      end
  end.
End traverse.

(** The tree a reference stands for; [None] when the walk meets a
    dangling address or runs deeper than [fuel] objects. *)
Fixpoint read (fuel : nat) (h : store) (r : ref) : option value :=
  match r with
  | RVal v => Some v
  | RLoc l =>
      match fuel with
      | 0 => None
      | S fuel' =>
          match nth_error h l with
          | Some (OList items) =>
              option_map VList (mapO (read fuel' h) items)
          | Some (ODict pairs) =>
              option_map VDict
                (mapO (fun kr => option_map (pair (fst kr))
                                            (read fuel' h (snd kr))) pairs)
          | None => None
          end
      end
  end.

Section thread.
Context {A B : Type}.
Variable f : A -> store -> B * store.

Fixpoint mapS (l : list A) (h : store) : list B * store :=
  match l with
  | [] => ([], h)
  | a :: l' =>
      let (b, h1) := f a h in
      let (bs, h2) := mapS l' h1 in
      (b :: bs, h2)
  end.
End thread.

(** Building the objects of a tree, children first, as the decoder does. *)
Fixpoint alloc (v : value) (h : store) : ref * store :=
  match v with
  | VList items =>
      let (rs, h1) := mapS alloc items h in
      (RLoc (List.length h1), (h1 ++ [OList rs])%list)
  | VDict pairs =>
      let (rs, h1) :=
        mapS (fun kv h => let (r, h') := alloc (snd kv) h in ((fst kv, r), h'))
             pairs h in
      (RLoc (List.length h1), (h1 ++ [ODict rs])%list)
  | other => (RVal other, h)
  end.

(** [json.dumps(obj)] on a stored object: the encoder walks the objects
    and raises [ValueError] on a circular reference. *)
Definition dumps (h : store) (r : ref) : result string :=
  match read (List.length h) h r with
  | Some v => json.dumps v
  | None => raise ValueError
  end.

(** [json.loads(text)]: the decoded tree is made of new objects. *)
Definition loads (text : string) (h : store) : result (ref * store) :=
  v <- json.loads text ;; ret (alloc v h).

(** Line 124 of [layout_decode.py]: the copy of the layout that the
    traversal then works on. *)
Definition copy_layout (h : store) (layout : ref) (folder_name : string)
  : result (ref * store) :=
  text <- dumps h layout ;;
  loads (replace placeholder folder_name text) h.

(** [prepare_layout_components] with the layout held in the store; the
    traversal reads the copy. *)
Definition prepare_layout_components (fs : FileSystem) (h : store)
           (layout : ref) (results_folder : option Path)
           (folder_name : string) : result (value * store) :=
  c <- copy_layout h layout folder_name ;;
  match read (List.length (snd c)) (snd c) (fst c) with
  | Some tree =>
      r <- load_layout_files fs folder_name results_folder tree ;;
      ret (r, snd c)
  | None => raise ValueError
  end.

(** The addresses a reference leads to. *)
Inductive reachable (h : store) : ref -> loc -> Prop :=
| reach_here : forall l, reachable h (RLoc l) l
| reach_step : forall l o r l',
    nth_error h l = Some o -> In r (refs_of o) -> reachable h r l' ->
    reachable h (RLoc l) l'.

(** Every object refers to objects built before it. *)
Definition ordered (h : store) : Prop :=
  forall l o r l', nth_error h l = Some o -> In r (refs_of o) ->
                   r = RLoc l' -> l' < l.

End heap.

(* ================================================================== *)
(** ** Notions used in the statements                                  *)
(* ================================================================== *)

(** A candidate of the declared type [str | Path]. *)
Definition pathlike (v : value) : bool :=
  match v with
  | VStr _ | VPath _ => true
  | _ => false
  end.

(** The path [get_first_path_exists] probes for a candidate. *)
Definition probed (sample_folder : Path) (p : Path) : Path :=
  if negb (is_absolute p) then joinpath sample_folder p else p.

(** The path a returned value denotes. *)
Definition denoted (v : value) : option Path :=
  match v with
  | VStr s => Some (of_str s)
  | VPath p => Some p
  | _ => None
  end.

(** A tree made of what [json] can encode. *)
Fixpoint json_tree (v : value) : bool :=
  match v with
  | VNone | VBool _ | VInt _ | VStr _ => true
  | VList l => forallb json_tree l
  | VDict d => forallb (fun kv => json_tree (snd kv)) d
  | VPath _ | VFrame _ | VSeries _ => false
  end.

(** [f] applied to every string of a tree, keys included; keys that become
    equal merge as [dict] merges them. *)
Fixpoint map_strings (f : string -> string) (v : value) : value :=
  match v with
  | VStr s => VStr (f s)
  | VList l => VList (map (map_strings f) l)
  | VDict d =>
      VDict (dict_of_pairs
               (map (fun kv => (f (fst kv), map_strings f (snd kv))) d))
  | other => other
  end.

(** Textual substitution of the placeholder in every string of a tree. *)
Definition subst_tree (folder_name : string) (v : value) : value :=
  map_strings (replace placeholder folder_name) v.

(** No mapping of the tree has the key [first_path_exists] or a true
    [load_contents]. *)
Fixpoint plain_nodes (v : value) : bool :=
  match v with
  | VList l => forallb plain_nodes l
  | VDict d =>
      negb (dict_mem "first_path_exists" d)
      && match dict_lookup "load_contents" d with
         | None => true
         | Some x => match truthy x with inr false => true | _ => false end
         end
      && forallb (fun kv => plain_nodes (snd kv)) d
  | _ => true
  end.

(** [load_contents] is absent or false. *)
Definition load_contents_off (d : list (string * value)) : bool :=
  match dict_lookup "load_contents" d with
  | None => true
  | Some x => match truthy x with inr false => true | _ => false end
  end.

(** A layout tree without [first_path_exists] and [load_contents] nodes:
    sequences of sequences and mappings, scalars as mapping values only. *)
Fixpoint passive (v : value) : bool :=
  match v with
  | VList l => forallb passive l
  | VDict d =>
      negb (dict_mem "first_path_exists" d)
      && load_contents_off d
      && forallb (fun kv => negb (is_container (snd kv)) || passive (snd kv)) d
  | _ => false
  end.

(** The text [json.dumps] produces for a tree, with [enc] for the bodies
    of the string literals. *)
Fixpoint render (enc : string -> string) (v : value) : string :=
  match v with
  | VNone => "null"
  | VBool true => "true"
  | VBool false => "false"
  | VInt z => json.string_of_Z z
  | VStr s => json.literal enc s
  | VList l => "[" ++ join_with ", " (map (render enc) l) ++ "]"
  | VDict d =>
      "{" ++ join_with ", "
               (map (fun kv => json.literal enc (fst kv) ++ ": "
                               ++ render enc (snd kv)) d)
          ++ "}"
  | VPath _ | VFrame _ | VSeries _ => EmptyString
  end%string.

(** Text after a value inside a document: the end, or a comma or a closing
    bracket. *)
Definition delimits (rest : string) : bool :=
  match rest with
  | EmptyString => true
  | String c _ => Ascii.eqb c "," || Ascii.eqb c "]" || Ascii.eqb c "}"
  end.

(** A folder name whose characters a JSON string literal holds as they
    are. *)
Definition safe_name (s : string) : bool :=
  forallb json.plain (list_ascii_of_string s).

(** The page entry of a sample whose thumbnail is [thumbnail]. *)
Definition meta_of (thumbnail : value) (sample_dir : Path) : SampleMeta :=
  {| id := name sample_dir; image := (thumbnail, name sample_dir) |}.

(** A match of the recursive search lies strictly below the results
    folder. *)
Definition below (rp p : Path) : bool :=
  (root p =? root rp)
  && match strip_prefix (names rp) (names p) with
     | Some (_ :: _) => true
     | _ => false
     end.

(** The sample folder a match belongs to. *)
Definition sample_dir_of (rp p : Path) : Path :=
  match strip_prefix (names rp) (names p) with
  | Some (x :: _) => div rp x
  | _ => rp
  end.

(** No candidate of [l] exists under [base]: every probe answers [False]. *)
Definition none_exists (fs : FileSystem) (base : Path) (l : list value) : Prop :=
  forall v p, In v l -> to_Path v = inr p ->
              path_exists fs (probed base p) = inr false.

(** Every probe for a candidate of [l] answers. *)
Definition probes_answer (fs : FileSystem) (base : Path) (l : list value) : Prop :=
  forall v p, In v l -> to_Path v = inr p ->
              is_ok (path_exists fs (probed base p)) = true.

(** The results folder is unset or the probe says it does not exist. *)
Definition results_missing (fs : FileSystem) (rp : option Path) : Prop :=
  rp = None \/ exists p, rp = Some p /\ path_exists fs p = inr false.

(** No character of [s] is a slash. *)
Definition no_slash (s : string) : bool :=
  forallb (fun c => negb (Ascii.eqb c slash)) (list_ascii_of_string s).

(** A reference into the addresses from [lo] up to [hi]. *)
Definition in_range (lo hi : nat) (r : heap.ref) : Prop :=
  match r with
  | heap.RLoc l => lo <= l < hi
  | heap.RVal _ => True
  end.

(** The objects of [new], stored from address [n] on, refer to objects of
    [new] built before them. *)
Definition closed_from (n : nat) (new : heap.store) : Prop :=
  forall i o r, nth_error new i = Some o -> In r (heap.refs_of o) ->
                in_range n (n + i) r.

(** What [alloc] does for the tree [v]: it appends new objects that refer
    to each other only, and returns a reference that reads back as [v]. *)
Definition alloc_ok (v : value) : Prop :=
  forall h r h',
    heap.alloc v h = (r, h') ->
    exists new,
      h' = (h ++ new)%list
      /\ closed_from (List.length h) new
      /\ in_range (List.length h) (List.length h') r
      /\ heap.read (List.length h') h' r = Some v.

(** [c] occurs in [s]. *)
Fixpoint has_char (c : ascii) (s : string) : bool :=
  match s with
  | EmptyString => false
  | String d s' => Ascii.eqb d c || has_char c s'
  end.

(** [s[n:]] *)
Fixpoint drop (n : nat) (s : string) : string :=
  match n, s with
  | 0, _ => s
  | S k, String _ s' => drop k s'
  | S _, EmptyString => EmptyString
  end.

(** Every character of [s] is plain. *)
Fixpoint all_plain (s : string) : bool :=
  match s with
  | EmptyString => true
  | String c s' => json.plain c && all_plain s'
  end.

(** [a] put in front of the string a scan returns. *)
Definition prepend (a : string) (r : result (string * string))
  : result (string * string) :=
  p <- r ;; ret ((a ++ fst p)%string, snd p).

(** The text does not go on with a digit. *)
Definition head_not_digit (s : string) : bool :=
  match s with
  | EmptyString => true
  | String c _ => negb (json.is_digit c)
  end.

(** The text starts with a character that is neither white space nor a
    closing square bracket. *)
Definition head_ok (s : string) : bool :=
  match s with
  | EmptyString => false
  | String c _ => negb (json.is_ws c) && negb (Ascii.eqb c "]")
  end.

(** The rest of [object_members] once the key [k] and the colon are read. *)
Definition after_colon (f : nat) (k t : string)
  : result (list (string * value) * string) :=
  p <- json.scan_once f (json.skip_ws t) ;;
  match json.skip_ws (snd p) with
  | String c1 r1 =>
      if Ascii.eqb c1 "}" then ret ([(k, fst p)], r1)
      else if Ascii.eqb c1 "," then
        match json.skip_ws r1 with
        | String c2 r2 =>
            if Ascii.eqb c2 json.quote then
              q <- json.object_members f r2 ;;
              ret ((k, fst p) :: fst q, snd q)
            else raise JSONDecodeError
        | EmptyString => raise JSONDecodeError
        end
      else raise JSONDecodeError
  | EmptyString => raise JSONDecodeError
  end.

(* ================================================================== *)
(** ** Fixtures                                                        *)
(* ================================================================== *)

(** A file system on which nothing exists. *)
Definition empty_fs : FileSystem :=
  {| path_exists := fun _ => ret false;
     read_text := fun _ => raise FileNotFoundError;
     read_csv := fun _ => raise FileNotFoundError;
     rglob := fun _ _ => ret [];
     iterdir := fun _ => raise FileNotFoundError;
     home := of_str "/home/u" |}.

(** Three samples [a], [b], [c] under [/r]. *)
Definition abc_dirs : list Path :=
  [of_str "/r/a"; of_str "/r/b"; of_str "/r/c"].

(** A backend over [/r] with the given thumbnail specification and
    sample list. *)
Definition backend_at (thumbnail : value) (filter : option string)
           (dirs : option (list Path)) : Backend :=
  {| b_filename := None;
     results_path := Some (of_str "/r");
     project_root := of_str ".";
     b_thumbnail_path := thumbnail;
     b_filter := filter;
     cached_path := of_str "/cache/x.json";
     all_samples_dirs := dirs |}.

Definition thumbs : value :=
  VDict [("first_path_exists", VList [VStr "thumb.png"])].

(** A file system where the probe of [/r/b/thumb.png] is denied and
    nothing else exists. *)
Definition denied_fs : FileSystem :=
  {| path_exists := fun p => if pathlib.eqb p (of_str "/r/b/thumb.png")
                             then raise OSError else ret false;
     read_text := fun _ => raise FileNotFoundError;
     read_csv := fun _ => raise FileNotFoundError;
     rglob := fun _ _ => ret [];
     iterdir := fun _ => raise FileNotFoundError;
     home := of_str "/home/u" |}.

(** A results folder [/r] with one sample [s1] that holds two marker
    files. *)
Definition two_markers_fs : FileSystem :=
  {| path_exists := fun p => ret (pathlib.eqb p (of_str "/r"));
     read_text := fun _ => raise FileNotFoundError;
     read_csv := fun _ => raise FileNotFoundError;
     rglob := fun _ _ => ret [of_str "/r/s1/b/meta.json";
                              of_str "/r/s1/a/meta.json"];
     iterdir := fun _ => ret [of_str "/r/s1"];
     home := of_str "/home/u" |}.

Definition world_of (fs : FileSystem) : World := {| files := fs; log := [] |}.

(** The configuration of the scenario: results under [/r], samples marked
    by [meta.json]. *)
Definition meta_config : GradioConfig :=
  {| results_folder := Some (of_str "/r");
     layout := VList [];
     thumbnail_path := VStr "thumb.png";
     filter_results_by_existance_of := Some "meta.json";
     filename := None;
     page_limit := 10;
     cache_folder := Some (of_str "/cache") |}.

(** A sample [/r/s] holding [table.csv] with the rows [row1] and [row2] and
    the column [score]. *)
Definition table_fs : FileSystem :=
  {| path_exists := fun p => ret (pathlib.eqb p (of_str "/r/s/table.csv"));
     read_text := fun _ => raise FileNotFoundError;
     read_csv := fun _ => ret {| df_index := [LStr "row1"; LStr "row2"];
                                 df_columns := [LStr "score"];
                                 df_data := [[CInt 1]; [CInt 2]] |};
     rglob := fun _ _ => ret [];
     iterdir := fun _ => raise FileNotFoundError;
     home := of_str "/home/u" |}.

(** A file-backed node that asks for the row [row5] of [table.csv]. *)
Definition row5_node : value :=
  VDict [("type", VStr "Textbox");
         ("load_contents", VBool true);
         ("load_path", VStr "table.csv");
         ("indices", VList [VStr "row5"])].


(** A layout with a dropdown whose choices are a list of strings. *)
Definition dropdown_config : GradioConfig :=
  {| results_folder := Some (of_str "/r");
     layout := VList [VDict [("type", VStr "Dropdown");
                             ("choices", VList [VStr "a"; VStr "b"])]];
     thumbnail_path := VStr "thumb.png";
     filter_results_by_existance_of := None;
     filename := None;
     page_limit := 10;
     cache_folder := Some (of_str "/cache") |}.

(** A layout with a title that names the sample. *)
Definition title_config : GradioConfig :=
  {| results_folder := Some (of_str "/r");
     layout := VList [VDict [("type", VStr "Markdown");
                             ("value", VStr "# ${sample_folder_name}");
                             ("visible", VBool true)]];
     thumbnail_path := VStr "thumb.png";
     filter_results_by_existance_of := None;
     filename := None;
     page_limit := 10;
     cache_folder := Some (of_str "/cache") |}.

(* ================================================================== *)
(** ** layout_decode.py: values handed to the components               *)
(* ================================================================== *)

(** [sub in s] for two strings *)
Fixpoint contains (sub s : string) : bool :=
  String.prefix sub s
  || match s with
     | EmptyString => false
     | String _ s' => contains sub s'
     end.

(** [str(v)] for a string or a path. *)
Definition path_text (v : value) : string :=
  match v with
  | VStr s => s
  | VPath p => as_posix p
  | _ => EmptyString
  end.

(** [_resolve_relative_path], the helper of
    [create_gradio_component_by_name]; its caller has made a [Path] of the
    sample folder. *)
Definition resolve_relative_path (fs : FileSystem) (val : value)
           (sample_folder : option Path) : result value :=
  match sample_folder with
  | None => ret val
  | Some folder =>
      match val with
      | VStr _ | VPath _ =>
          if contains "://" (path_text val) then ret val
          else
            path_value <- to_Path val ;;
            if is_absolute path_value then ret val
            else
              let candidate := joinpath folder path_value in
              found <- path_exists fs candidate ;;
              ret (if found then VPath candidate else val)
      | _ => ret val
      end
  end.

(* ================================================================== *)
(** ** config.py: the [first_path_exists] resolver                     *)
(* ================================================================== *)

(** [c.isspace()] for a code point below 256. *)
Definition isspace (c : ascii) : bool :=
  let n := nat_of_ascii c in
  (Nat.leb 9 n && Nat.leb n 13) || (Nat.leb 28 n && Nat.leb n 32)
  || Nat.eqb n 133 || Nat.eqb n 160.

Fixpoint lstrip (s : string) : string :=
  match s with
  | String c s' => if isspace c then lstrip s' else s
  | EmptyString => EmptyString
  end.

Fixpoint rstrip (s : string) : string :=
  match s with
  | EmptyString => EmptyString
  | String c s' =>
      match rstrip s' with
      | EmptyString => if isspace c then EmptyString else str1 c
      | r => String c r
      end
  end.

(** [s.strip()] *)
Definition strip (s : string) : string := lstrip (rstrip s).

(** [s.strip()] on a value: only a string has the method. *)
Definition strip_value (s : value) : result value :=
  match s with
  | VStr t => ret (VStr (strip t))
  | _ => raise AttributeError
  end.

(** The resolver that [_ensure_resolvers_registered] registers under the
    name [first_path_exists]. *)
Definition first_path_exists_resolver (args : list value) : result value :=
  items <- mapM strip_value args ;;
  ret (VDict [("first_path_exists", VList items)]).

(** A configuration with another thumbnail specification. *)
Definition with_thumbnail (cfg : GradioConfig) (thumbnail : value) : GradioConfig :=
  {| results_folder := results_folder cfg;
     layout := layout cfg;
     thumbnail_path := thumbnail;
     filter_results_by_existance_of := filter_results_by_existance_of cfg;
     filename := filename cfg;
     page_limit := page_limit cfg;
     cache_folder := cache_folder cfg |}.

(* ================================================================== *)
(** ** ui.py: the callbacks of [build_demo]                            *)
(* ================================================================== *)

(** [a or b] on integers *)
Definition py_or (a b : Z) : Z := if (a =? 0)%Z then b else a.

(** [gr.update(choices=..., value=...)] *)
Record Update : Type := mkUpdate {
  choices : list string;
  u_value : string
}.

(** The tuple [load_more] returns, in the order of its outputs. *)
Record Loaded : Type := mkLoaded {
  out_text : string;
  out_state : list SampleMeta;
  out_imgs : list (value * string);
  out_gallery : list (value * string);
  out_ids : list string;
  out_offset : Z;
  out_dropdown : Update
}.

(** [load_more]; [backend] is the object that [build_demo] created. *)
Definition load_more (w : World) (backend : Backend) (cfg : GradioConfig)
           (samples_state : list SampleMeta)
           (samples_imgs : list (value * string)) (samples_ids : list string)
           (offset_state pagination_limit : Z) : World * Loaded :=
  let (w', more) :=
    get_samples_metadata w backend (py_or offset_state 0)
                         (py_or pagination_limit (page_limit cfg)) in
  let imgs := samples_imgs ++ map image more in
  let ids := samples_ids ++ map id more in
  (w', {| out_text := "rerender";
          out_state := samples_state ++ more;
          out_imgs := imgs;
          out_gallery := imgs;
          out_ids := ids;
          out_offset := offset_state + Z.of_nat (List.length more);
          out_dropdown := {| choices := "all" :: ids; u_value := "all" |} |}).

(** [l[i]] on a list: a negative index counts from the end. *)
Definition py_index {A : Type} (l : list A) (i : Z) : result A :=
  let len := Z.of_nat (List.length l) in
  let j := if (i <? 0)%Z then (i + len)%Z else i in
  if (j <? 0)%Z || (len <=? j)%Z then raise IndexError
  else match nth_error l (Z.to_nat j) with
       | Some x => ret x
       | None => raise IndexError
       end.

(** [gr.SelectData]: the selected value and its position. *)
Record SelectData : Type := mkSelect {
  ev_value : value;
  ev_index : Z
}.

(** What [show_sample] returns: the value of the dropdown, the selected
    index of the gallery and the text for [dummy_rerender_text]. *)
Record Selection : Type := mkSelection {
  sel_dropdown : string;
  sel_gallery : option Z;
  sel_text : string
}.

Definition show_sample (event : SelectData) (samples_ids : list string)
  : result Selection :=
  let is_dropdown := match ev_value event with VStr _ => true | _ => false end in
  sample_id <- match ev_value event with
               | VStr s => ret s
               | _ => py_index samples_ids (ev_index event)
               end ;;
  let idx := (ev_index event - (if is_dropdown then 1 else 0))%Z in
  ret {| sel_dropdown := sample_id;
         sel_gallery := if sample_id =? "all" then None else Some idx;
         sel_text := "selected_" ++ (if sample_id =? "all" then "all"
                                     else json.string_of_Z idx) |}.

(** [show_all]: the value of the dropdown and the text. *)
Definition show_all : string * string := ("all", "selected_all").

(** [s.rsplit(sep, maxsplit=1)[-1]]: the text after the last separator,
    the whole text when there is none. *)
Definition after_last (sep : ascii) (s : string) : string :=
  last (split_on sep s) EmptyString.

(** A character that [int] neither skips nor joins digits with: printable,
    no blank, no underscore. *)
Definition strict_char (c : ascii) : bool :=
  let n := nat_of_ascii c in
  Nat.leb 33 n && Nat.leb n 126 && negb (Ascii.eqb c "_").

(** One digit or more and nothing else. *)
Definition int_digits (s : string) : option Z :=
  match s with
  | EmptyString => None
  | String _ _ =>
      match json.lex_digits s with
      | (u, EmptyString) => Some (Z.of_uint u)
      | _ => None
      end
  end.

(** [int(s)] in base ten: an optional sign and digits.  Blanks around the
    number and underscores between digits are left out of the model. *)
Definition py_int (s : string) : result Z :=
  let (neg, body) :=
    match s with
    | String "-" r => (true, r)
    | String "+" r => (false, r)
    | _ => (false, s)
    end in
  match int_digits body with
  | Some z => ret (if neg then Z.opp z else z)
  | None =>
      if forallb strict_char (list_ascii_of_string s) then raise ValueError
      else raise OutOfModel
  end.

(** The loop of [render_samples] over the rows when a selection is shown:
    the [visible] flag each row gets; a row that is not visible is
    unrendered. *)
Definition select_rows (selected_idx : string) (rows : nat) : result (list bool) :=
  mapM (fun idx =>
          if selected_idx =? "all" then ret true
          else n <- py_int selected_idx ;; ret (Z.of_nat idx =? n)%Z)
       (seq 0 rows).

(** What [render_samples] does with the rows of [samples_gradio], by the
    text of [dummy_rerender_text]: show a selection, leave them, or go on
    to [create_samples_rows].  [rows] is the number of rows; a row stands
    in the model by the [visible] flag it is given, and the building of
    new rows is outside the model. *)
Inductive rendering : Type :=
| Selected (visible : list bool)
| Unchanged
| Rerender.

Definition render_samples (rows : nat) (dummy_rerender_text : string)
  : result rendering :=
  if contains "selected" dummy_rerender_text then
    let selected_idx := after_last "_" dummy_rerender_text in
    visible <- select_rows selected_idx rows ;;
    ret (Selected visible)
  else if negb (dummy_rerender_text =? "rerender") then ret Unchanged
  else ret Rerender.

(** The keys of [samples_gradio] after [create_samples_rows]: a sample
    whose id is a key already gets no row.  The rows themselves are gradio
    components and outside the model; every row is taken to build. *)
Fixpoint create_samples_rows (samples : list SampleMeta)
         (samples_gradio : list string) : list string :=
  match samples with
  | [] => samples_gradio
  | sample :: rest =>
      if existsb (String.eqb (id sample)) samples_gradio
      then create_samples_rows rest samples_gradio
      else create_samples_rows rest (samples_gradio ++ [id sample])
  end.

(* ================================================================== *)
(** ** Notions used in the statements, continued                       *)
(* ================================================================== *)

(** A path as [pathlib] holds it: a root of no, one or two slashes, and
    names that are not empty, not a single dot and without a slash. *)
Definition normal_name (s : string) : bool :=
  negb (is_empty_str s) && negb (s =? ".") && no_slash s.

Definition normal (p : Path) : bool :=
  ((root p =? EmptyString) || (root p =? "/") || (root p =? "//"))
  && forallb normal_name (names p).

(** The keys of every mapping of the tree differ from each other, as the
    keys of a [dict] do. *)
Fixpoint distinct (l : list string) : bool :=
  match l with
  | [] => true
  | k :: l' => negb (existsb (String.eqb k) l') && distinct l'
  end.

Fixpoint unique_keys (v : value) : bool :=
  match v with
  | VList l => forallb unique_keys l
  | VDict d => distinct (map fst d)
               && forallb (fun kv => unique_keys (snd kv)) d
  | _ => true
  end.

(** No string of the tree, key or value, holds a dollar sign. *)
Fixpoint dollar_free (v : value) : bool :=
  match v with
  | VStr s => negb (has_char "$" s)
  | VList l => forallb dollar_free l
  | VDict d => forallb (fun kv => negb (has_char "$" (fst kv))
                                  && dollar_free (snd kv)) d
  | _ => true
  end.

(** The slice [[offset, offset + limit)] as the specification words it:
    the entries whose position in the list lies in that interval. *)
Definition interval {A : Type} (l : list A) (offset limit : Z) : list A :=
  map snd
      (filter (fun ix => (offset <=? Z.of_nat (fst ix))%Z
                         && (Z.of_nat (fst ix) <? offset + limit)%Z)
              (combine (seq 0 (List.length l)) l)).

(** The order of [sorted] on paths. *)
Definition path_le (p q : Path) : Prop := path_leb p q = true.

(** The state of the page is in step: the ids and the images are those of
    the loaded samples and the offset counts them. *)
Definition in_step (samples_state : list SampleMeta)
           (samples_imgs : list (value * string)) (samples_ids : list string)
           (offset_state : Z) : Prop :=
  samples_imgs = map image samples_state
  /\ samples_ids = map id samples_state
  /\ offset_state = Z.of_nat (List.length samples_state).

(** File contents that [indices] can select from. *)
Definition indexable (v : value) : bool :=
  match v with
  | VDict _ | VFrame _ => true
  | _ => false
  end.

(* ================================================================== *)
(** ** Fixtures, continued                                             *)
(* ================================================================== *)

(** A sample [/r/s] that holds [notes.txt] with the text [hello]. *)
Definition notes_fs : FileSystem :=
  {| path_exists := fun p => ret (pathlib.eqb p (of_str "/r/s/notes.txt"));
     read_text := fun p => if pathlib.eqb p (of_str "/r/s/notes.txt")
                           then ret "hello" else raise FileNotFoundError;
     read_csv := fun _ => raise FileNotFoundError;
     rglob := fun _ _ => ret [];
     iterdir := fun _ => raise FileNotFoundError;
     home := of_str "/home/u" |}.

(** A file-backed node for the file [load_path], with more keys. *)
Definition file_node (load_path : string) (more : list (string * value))
  : list (string * value) :=
  ("type", VStr "Textbox") :: ("load_contents", VBool true)
  :: ("load_path", VStr load_path) :: more.

(** A layout with a fixed title. *)
Definition fixed_config : GradioConfig :=
  {| results_folder := Some (of_str "/r");
     layout := VList [VDict [("type", VStr "Markdown");
                             ("value", VStr "# Results");
                             ("visible", VBool true)]];
     thumbnail_path := VStr "thumb.png";
     filter_results_by_existance_of := None;
     filename := None;
     page_limit := 10;
     cache_folder := Some (of_str "/cache") |}.

(** A results folder [/r] with the entries [b] and [a], listed in this
    order. *)
Definition listing_fs : FileSystem :=
  {| path_exists := fun p => ret (pathlib.eqb p (of_str "/r"));
     read_text := fun _ => raise FileNotFoundError;
     read_csv := fun _ => raise FileNotFoundError;
     rglob := fun _ _ => ret [];
     iterdir := fun _ => ret [of_str "/r/b"; of_str "/r/a"];
     home := of_str "/home/u" |}.

(** Results under [/r], no filter pattern. *)
Definition listing_config : GradioConfig :=
  {| results_folder := Some (of_str "/r");
     layout := VList [];
     thumbnail_path := VStr "thumb.png";
     filter_results_by_existance_of := None;
     filename := None;
     page_limit := 10;
     cache_folder := Some (of_str "/cache") |}.

(** Results under [/r], no cache folder configured. *)
Definition uncached_config : GradioConfig :=
  {| results_folder := Some (of_str "/r");
     layout := VList [];
     thumbnail_path := VStr "thumb.png";
     filter_results_by_existance_of := None;
     filename := None;
     page_limit := 10;
     cache_folder := None |}.

(** The files of [listing_fs] and a cache file for [listing_config] that
    holds an opening bracket and nothing else. *)
Definition broken_cache_fs : FileSystem :=
  write_text listing_fs
             (cached_path (new_backend listing_fs listing_config (of_str ".")))
             "[".

(** The first page of two over [a], [b], [c], loaded into an empty
    state. *)
Definition first_page : Loaded :=
  snd (load_more (world_of empty_fs)
                 (backend_at (VStr "thumb.png") None (Some abc_dirs))
                 meta_config [] [] [] 0 2).

(** A file system on which every path exists and no file can be read. *)
Definition full_fs : FileSystem :=
  {| path_exists := fun _ => ret true;
     read_text := fun _ => raise OSError;
     read_csv := fun _ => raise OSError;
     rglob := fun _ _ => ret [];
     iterdir := fun _ => ret [];
     home := of_str "/home/u" |}.

(** The samples [s1], with two marker files, and [s2], with one, under
    [/r]. *)
Definition three_markers_fs : FileSystem :=
  {| path_exists := fun p => ret (pathlib.eqb p (of_str "/r"));
     read_text := fun _ => raise FileNotFoundError;
     read_csv := fun _ => raise FileNotFoundError;
     rglob := fun _ _ => ret [of_str "/r/s2/meta.json";
                              of_str "/r/s1/b/meta.json";
                              of_str "/r/s1/a/meta.json"];
     iterdir := fun _ => ret [of_str "/r/s1"; of_str "/r/s2"];
     home := of_str "/home/u" |}.

(* ================================================================== *)
(** ** layout_decode.py: [load_file] with its memo                     *)
(* ================================================================== *)

(** [load_file] is decorated with [lru_cache]: a call whose argument has
    been seen returns the object of the earlier call and does not read
    the file.  The memo is state of the process; here it is passed in and
    out.  An entry is the very object that was returned: code that
    changes that object, as [make_gradio_components] does when it pops
    keys off a mapping, changes the entry, and a file that changes on disk
    does not.  The statements are therefore made for every memo. *)
Module cached.

(** The entries by their argument, the most recently used first. *)
Definition memo : Type := list (Path * value).

(** [lru_cache] without arguments keeps 128 entries. *)
Definition maxsize : nat := 128.

Fixpoint lookup (p : Path) (m : memo) : option value :=
  match m with
  | [] => None
  | (q, v) :: m' => if pathlib.eqb p q then Some v else lookup p m'
  end.

Definition remove (p : Path) (m : memo) : memo :=
  filter (fun qv => negb (pathlib.eqb p (fst qv))) m.

(** A computation that reads and writes the memo; the memo is kept when
    an exception is raised. *)
Definition M (A : Type) : Type := memo -> result A * memo.

Definition retS {A : Type} (a : A) : M A := fun m => (inr a, m).
Definition raiseS {A : Type} (e : exn) : M A := fun m => (inl e, m).
Definition lift {A : Type} (r : result A) : M A := fun m => (r, m).

Definition bindS {A B : Type} (c : M A) (k : A -> M B) : M B :=
  fun m => match c m with
           | (inr a, m') => k a m'
           | (inl e, m') => (inl e, m')
           end.

Notation "x <~ c ;; k" := (bindS c (fun x => k))
  (at level 61, c at next level, right associativity).

Section mapMS.
Context {A B : Type}.
Variable f : A -> M B.

Fixpoint mapMS (l : list A) : M (list B) :=
  match l with
  | [] => retS []
  | a :: l' => b <~ f a ;; bs <~ mapMS l' ;; retS (b :: bs)
  end.
End mapMS.

(** The function under the decorator. *)
Local Abbreviation wrapped := load_file (only parsing).

(** [load_file]: a hit moves the entry to the front; a miss calls the
    function, and what it returns is stored at the front, the least
    recently used entry making room; an exception stores nothing. *)
Definition load_file (fs : FileSystem) (filepath : Path) : M value :=
  fun m =>
    match lookup filepath m with
    | Some v => (ret v, (filepath, v) :: remove filepath m)
    | None =>
        match wrapped fs filepath with
        | inr v => (ret v, firstn maxsize ((filepath, v) :: m))
        | inl e => (raise e, m)
        end
    end.

Section resolve.

Variable fs : FileSystem.
Variable sample_name : string.
Variable results_folder : option Path.

(** The part of [load_layout_files] after the test of
    [load_contents]. *)
Definition load_contents (data : list (string * value)) : M value :=
  match dict_lookup "load_path" data with
  | None => raiseS ValueError
  | Some lp =>
      load_path <~ lift (to_Path lp) ;;
      load_path <~
        lift (if negb (is_absolute load_path)
              then base <- sample_folder sample_name results_folder ;;
                   ret (joinpath base load_path)
              else ret load_path) ;;
      found <~ lift (path_exists fs load_path) ;;
      if negb found then raiseS FileNotFoundError
      else
        file_contents <~ load_file fs load_path ;;
        let indices :=
          match dict_lookup "indices" data with
          | Some i => i
          | None => VNone
          end in
        none <~ lift (no_indices indices) ;;
        if none then retS file_contents
        else
          match file_contents with
          | VDict d =>
              match d with
              | [] => retS VNone
              | _ :: _ =>
                  keys <~ lift (py_iter indices) ;;
                  lift (get_chain file_contents keys)
              end
          | VFrame df =>
              if df_empty df then retS VNone
              else
                keys <~ lift (py_iter indices) ;;
                lift (loc_chain file_contents keys)
          | _ => raiseS TypeError
          end
  end.

Fixpoint load_layout_files (data : value) : M value :=
  match data with
  | VList l =>
      r <~ mapMS load_layout_files l ;; retS (VList r)
  | VDict d =>
      match dict_lookup "first_path_exists" d with
      | Some candidates =>
          lift (base <- sample_folder sample_name results_folder ;;
                get_first_path_exists fs candidates base)
      | None =>
          flag <~ lift (truthy (match dict_lookup "load_contents" d with
                                | Some x => x
                                | None => VBool false
                                end)) ;;
          if negb flag then
            r <~ mapMS (fun kv =>
                          let (k, v) := kv : string * value in
                          if negb (is_container v) then retS (k, v)
                          else x <~ load_layout_files v ;; retS (k, x))
                       d ;;
            retS (VDict r)
          else load_contents d
      end
  | _ => raiseS TypeError
  end.

End resolve.

Definition prepare_layout_components (fs : FileSystem) (cfg : GradioConfig)
           (folder_name : string) : M value :=
  layout <~ lift (text <- json.dumps (layout cfg) ;;
                  json.loads (replace placeholder folder_name text)) ;;
  load_layout_files fs folder_name (results_folder cfg) layout.

(** Every entry of the memo is what the file of its path gives now. *)
Definition agrees (m : memo) (fs : FileSystem) : Prop :=
  forall p v, lookup p m = Some v -> wrapped fs p = inr v.

End cached.

(** The memoised computation [c] gives what the computation [r] without
    memo gives, and keeps the memo in agreement with the files. *)
Definition refines {A : Type} (fs : FileSystem) (c : cached.M A)
           (r : result A) : Prop :=
  forall m, cached.agrees m fs ->
            fst (c m) = r /\ cached.agrees (snd (c m)) fs.

(** A memo that holds, for [/r/s/notes.txt], a text loaded before the
    file was changed. *)
Definition stale_memo : cached.memo :=
  [(of_str "/r/s/notes.txt", VStr "old")].

(* ================================================================== *)
(** ** The error monad                                                 *)
(* ================================================================== *)

Lemma bind_ok {A B : Type} (m : result A) (k : A -> result B) (a : A) :
  m = inr a -> bind m k = k a.
Proof. intros ->. reflexivity. Qed.

Lemma bind_inr_inv {A B : Type} (m : result A) (k : A -> result B) (b : B) :
  bind m k = inr b -> exists a, m = inr a /\ k a = inr b.
Proof.
  destruct m as [e | a]; simpl; intros H.
  - discriminate.
  - exists a. split; [reflexivity | exact H].
Qed.

Lemma mapM_ok {A B : Type} (f : A -> result B) (g : A -> B) (l : list A) :
  (forall a, In a l -> f a = inr (g a)) -> mapM f l = inr (map g l).
Proof.
  induction l as [| a l IH]; intros H; simpl.
  - reflexivity.
  - rewrite (H a (or_introl eq_refl)). simpl.
    rewrite IH by (intros x Hx; apply H; right; exact Hx).
    reflexivity.
Qed.

Lemma mapM_length {A B : Type} (f : A -> result B) (l : list A) (r : list B) :
  mapM f l = inr r -> List.length r = List.length l.
Proof.
  revert r. induction l as [| a l IH]; simpl; intros r H.
  - injection H as <-. reflexivity.
  - destruct (f a) as [e | b]; simpl in H; [discriminate |].
    destruct (mapM f l) as [e | bs]; simpl in H; [discriminate |].
    injection H as <-. simpl. f_equal. apply IH. reflexivity.
Qed.

Lemma mapM_fails {A B : Type} (f : A -> result B) (l : list A) (a : A) (e : exn) :
  In a l -> f a = inl e -> exists e', mapM f l = inl e'.
Proof.
  induction l as [| x l IH]; simpl; intros Hin Hf.
  - contradiction.
  - destruct Hin as [-> | Hin].
    + rewrite Hf. simpl. exists e. reflexivity.
    + destruct (f x) as [e0 | b]; simpl.
      * exists e0. reflexivity.
      * destruct (IH Hin Hf) as [e' ->]. simpl. exists e'. reflexivity.
Qed.

(* ================================================================== *)
(** ** The path resolver                                               *)
(* ================================================================== *)

Section path_resolver.

Variable fs : FileSystem.
Variable base : Path.

Lemma pathlike_to_Path (v : value) :
  pathlike v = true -> exists p, to_Path v = inr p /\ denoted v = Some p.
Proof.
  destruct v; simpl; try discriminate; intros _; eexists; split; reflexivity.
Qed.

Lemma first_existing_none (l : list value) :
  Forall (fun v => pathlike v = true) l -> none_exists fs base l ->
  first_existing fs l base = inr None.
Proof.
  induction l as [| v l IH]; intros Hl Hn; simpl.
  - reflexivity.
  - inversion Hl as [| ? ? Hv Hl']; subst.
    destruct (pathlike_to_Path v Hv) as [p [Hp _]].
    rewrite Hp. simpl.
    pose proof (Hn v p (or_introl eq_refl) Hp) as He.
    unfold probed in He. rewrite He. simpl.
    apply IH; [exact Hl' |].
    intros v' p' Hin. apply Hn. right. exact Hin.
Qed.

Lemma first_existing_answers (l : list value) :
  Forall (fun v => pathlike v = true) l -> probes_answer fs base l ->
  exists o, first_existing fs l base = inr o.
Proof.
  induction l as [| v l IH]; intros Hl Hn; simpl.
  - exists None. reflexivity.
  - inversion Hl as [| ? ? Hv Hl']; subst.
    destruct (pathlike_to_Path v Hv) as [p [Hp _]].
    rewrite Hp. simpl.
    pose proof (Hn v p (or_introl eq_refl) Hp) as He.
    unfold probed in He.
    destruct (path_exists fs _) as [e | [|]]; simpl in *.
    + discriminate.
    + eexists. reflexivity.
    + apply IH; [exact Hl' |].
      intros v' p' Hin. apply Hn. right. exact Hin.
Qed.

Lemma get_first_path_exists_list (l : list value) :
  get_first_path_exists fs (VList l) base
  = (found <- first_existing fs l base ;;
     match found with
     | Some full_path => ret (VPath full_path)
     | None => py_getitem0 (VList l)
     end).
Proof. reflexivity. Qed.

End path_resolver.

(** C1, as stated, fails: with no candidate on disk the resolver returns
    the first candidate as it was given, not joined with the base
    directory.  For the candidates [thumb.png], [thumb.jpg] under
    [/r/s] the result is the relative [thumb.png], while existing
    candidates are returned as [/r/s/...]. *)
Lemma fallback_is_not_joined :
  ~ (forall (fs : FileSystem) (base : Path) (c : value) (cands : list value),
        Forall (fun v => pathlike v = true) (c :: cands) ->
        none_exists fs base (c :: cands) ->
        exists r p,
          get_first_path_exists fs (VList (c :: cands)) base = inr r
          /\ to_Path c = inr p
          /\ denoted r = Some (probed base p)).
Proof.
  intros H.
  destruct (H empty_fs (of_str "/r/s") (VStr "thumb.png") [VStr "thumb.jpg"])
    as [r [p [Hr [Hp Hd]]]].
  - repeat constructor.
  - intros v q _ _. reflexivity.
  - vm_compute in Hr. injection Hr as <-.
    vm_compute in Hp. injection Hp as <-.
    vm_compute in Hd. discriminate.
Qed.

(** C1 (amended): for every non-empty list of candidates none of which
    exists on disk, [get_first_path_exists] returns the first candidate
    exactly as it was given (not joined with the base directory), and so
    never any other candidate. *)
Theorem fallback_is_first_candidate
        (fs : FileSystem) (base : Path) (c : value) (cands : list value) :
  Forall (fun v => pathlike v = true) (c :: cands) ->
  none_exists fs base (c :: cands) ->
  get_first_path_exists fs (VList (c :: cands)) base = inr c.
Proof.
  intros Hl Hn. rewrite get_first_path_exists_list.
  rewrite (first_existing_none fs base (c :: cands) Hl Hn).
  reflexivity.
Qed.

Lemma fallback_is_first_candidate_witness :
  get_first_path_exists empty_fs (VList [VStr "thumb.png"; VStr "thumb.jpg"])
                        (of_str "/r/s")
  = inr (VStr "thumb.png").
Proof.
  apply (fallback_is_first_candidate empty_fs (of_str "/r/s")
           (VStr "thumb.png") [VStr "thumb.jpg"]).
  - repeat constructor.
  - intros v p _ _. reflexivity.
Defined.

(** C5, as stated, fails: a list that is not empty does not always give a
    path.  The probe of the only candidate is denied, and the error of the
    probe leaves the resolver. *)
Lemma denied_probe_gives_no_path :
  ~ (forall (fs : FileSystem) (base : Path) (c : value) (cands : list value),
        Forall (fun v => pathlike v = true) (c :: cands) ->
        exists r, get_first_path_exists fs (VList (c :: cands)) base = inr r
                  /\ pathlike r = true).
Proof.
  intros H.
  destruct (H denied_fs (of_str "/r/b") (VStr "thumb.png") [])
    as [r [Hr _]].
  - repeat constructor.
  - vm_compute in Hr. discriminate Hr.
Qed.

(** C5 (amended): with an empty candidate list the resolver raises
    [IndexError]: the loop does nothing and the lookup of the first
    element fails; the code has no check of its own for this.  For every
    list of candidates that is not empty, whose candidates are strings or
    paths and whose probes answer, a string or a path is returned. *)
Theorem empty_fails_nonempty_defined (fs : FileSystem) (base : Path) :
  get_first_path_exists fs (VList []) base = inl IndexError
  /\ forall c cands,
      Forall (fun v => pathlike v = true) (c :: cands) ->
      probes_answer fs base (c :: cands) ->
      exists r, get_first_path_exists fs (VList (c :: cands)) base = inr r
                /\ pathlike r = true.
Proof.
  split; [reflexivity |].
  intros c cands Hl Hp. rewrite get_first_path_exists_list.
  destruct (first_existing_answers fs base (c :: cands) Hl Hp) as [o Ho].
  rewrite Ho. simpl. destruct o as [p |].
  - exists (VPath p). split; reflexivity.
  - exists c. split; [reflexivity |]. inversion Hl; assumption.
Qed.

Lemma empty_fails_nonempty_defined_witness :
  get_first_path_exists empty_fs (VList []) (of_str "/r/s") = inl IndexError
  /\ exists r, get_first_path_exists empty_fs (VList [VStr "thumb.png"])
                                     (of_str "/r/s") = inr r
               /\ pathlike r = true.
Proof.
  destruct (empty_fails_nonempty_defined empty_fs (of_str "/r/s")) as [H0 H1].
  split; [exact H0 |].
  apply (H1 (VStr "thumb.png") []).
  - repeat constructor.
  - intros v p _ _. reflexivity.
Defined.

(** The same failure is met earlier, when the configuration is built: an
    empty candidate list for the thumbnail is rejected by [__post_init__]
    with [IndexError]. *)
Lemma empty_thumbnail_candidates_rejected
      (fs : FileSystem) (cfg : GradioConfig) (d : list (string * value)) :
  thumbnail_path cfg = VDict d ->
  dict_lookup "first_path_exists" d = Some (VList []) ->
  post_init fs cfg = inl IndexError.
Proof.
  intros Ht Hd. unfold post_init. rewrite Ht, Hd. reflexivity.
Qed.

(* ================================================================== *)
(** ** Pagination                                                      *)
(* ================================================================== *)

Lemma firstn_min_length {A : Type} (n : nat) (l : list A) :
  firstn (Nat.min n (List.length l)) l = firstn n l.
Proof.
  destruct (Nat.le_ge_cases n (List.length l)) as [H | H].
  - rewrite Nat.min_l by exact H. reflexivity.
  - rewrite Nat.min_r by exact H.
    rewrite firstn_all. symmetry. apply firstn_all2. exact H.
Qed.

(** For bounds that are not negative a Python slice is [skipn] followed by
    [firstn]. *)
Lemma py_slice_nonneg {A : Type} (l : list A) (offset limit : Z) :
  (0 <= offset)%Z -> (0 <= limit)%Z ->
  py_slice l offset (offset + limit)
  = firstn (Z.to_nat limit) (skipn (Z.to_nat offset) l).
Proof.
  intros Ho Hl. unfold py_slice, clamp.
  destruct (Z.ltb_spec offset 0) as [? | _]; [lia |].
  destruct (Z.ltb_spec (offset + limit) 0) as [? | _]; [lia |].
  set (len := Z.of_nat (List.length l)).
  destruct (Z.le_gt_cases len offset) as [Hge | Hlt].
  - rewrite (skipn_all2 l (n := Z.to_nat offset)) by (subst len; lia).
    rewrite (skipn_all2 l (n := Z.to_nat (Z.min offset len))) by (subst len; lia).
    rewrite !firstn_nil. reflexivity.
  - rewrite (Z.min_l offset len) by lia.
    rewrite <- (firstn_min_length (Z.to_nat limit)).
    f_equal. rewrite length_skipn. subst len. lia.
Qed.

Lemma py_slice_out_of_range {A : Type} (l : list A) (offset hi : Z) :
  (Z.of_nat (List.length l) <= offset)%Z -> py_slice l offset hi = [].
Proof.
  intros H. unfold py_slice, clamp.
  destruct (Z.ltb_spec offset 0) as [? | _]; [lia |].
  rewrite (Z.min_r offset) by lia. rewrite Nat2Z.id.
  rewrite skipn_all. apply firstn_nil.
Qed.

Lemma sample_meta_literal (fs : FileSystem) (b : Backend) (s : string) (d : Path) :
  b_thumbnail_path b = VStr s -> sample_meta fs b d = inr (meta_of (VStr s) d).
Proof. intros H. unfold sample_meta. rewrite H. reflexivity. Qed.

Section interval_facts.

Context {A : Type}.
Variables n k : nat.

Let inside (ix : nat * A) : bool :=
  (Z.of_nat n <=? Z.of_nat (fst ix))%Z
  && (Z.of_nat (fst ix) <? Z.of_nat n + Z.of_nat k)%Z.

Lemma interval_from (l : list A) (s : nat) :
  map snd (filter inside (combine (seq s (List.length l)) l))
  = firstn (n + k - Nat.max s n) (skipn (n - s) l).
Proof.
  revert s. induction l as [| x l IH]; intros s.
  - rewrite skipn_nil, firstn_nil. reflexivity.
  - cbn [List.length seq combine filter]. unfold inside at 1. cbn [fst].
    destruct (Z.leb_spec (Z.of_nat n) (Z.of_nat s)) as [Hle | Hlt].
    + destruct (Z.ltb_spec (Z.of_nat s) (Z.of_nat n + Z.of_nat k))
        as [Hin | Hout]; cbn [andb map snd]; rewrite IH.
      * replace (n - s) with 0 by lia. replace (n - S s) with 0 by lia.
        replace (n + k - Nat.max s n) with (S (n + k - Nat.max (S s) n))
          by lia.
        reflexivity.
      * replace (n + k - Nat.max (S s) n) with 0 by lia.
        replace (n + k - Nat.max s n) with 0 by lia.
        reflexivity.
    + cbn [andb]. rewrite IH.
      replace (n - s) with (S (n - S s)) by lia.
      replace (Nat.max (S s) n) with (Nat.max s n) by lia.
      reflexivity.
Qed.

End interval_facts.

(** For bounds that are not negative the interval of the specification
    is [skipn] followed by [firstn]. *)
Lemma interval_nonneg {A : Type} (l : list A) (offset limit : Z) :
  (0 <= offset)%Z -> (0 <= limit)%Z ->
  interval l offset limit
  = firstn (Z.to_nat limit) (skipn (Z.to_nat offset) l).
Proof.
  intros Ho Hl. unfold interval.
  rewrite <- (Z2Nat.id offset Ho), <- (Z2Nat.id limit Hl), !Nat2Z.id.
  rewrite (interval_from (Z.to_nat offset) (Z.to_nat limit) l 0).
  f_equal; [lia | f_equal; lia].
Qed.

(** C7, as stated, fails: from the offset [-2] the slice of Python counts
    from the end of the list.  Over the samples [a], [b], [c], with a
    thumbnail given as a string, the page for offset [-2] and limit [1]
    holds [b], and no position of the list lies in the interval from [-2]
    to [-1]. *)
Lemma negative_offset_counts_from_the_end :
  ~ (forall (w : World) (b : Backend) (dirs : list Path) (offset limit : Z)
            (s : string),
        all_samples_dirs b = Some dirs ->
        b_thumbnail_path b = VStr s ->
        snd (get_samples_metadata w b offset limit)
        = map (meta_of (VStr s)) (interval dirs offset limit)).
Proof.
  intros H.
  specialize (H (world_of empty_fs)
                (backend_at (VStr "thumb.png") None (Some abc_dirs))
                abc_dirs (-2)%Z 1%Z "thumb.png" eq_refl eq_refl).
  vm_compute in H. discriminate H.
Qed.

(** C7 (amended): for a sample list [dirs], an offset and a limit that are
    not negative, and thumbnails that resolve for the samples of the page,
    [get_samples_metadata] returns exactly the entries of the slice
    [[offset, offset + limit)] of [dirs], in order, and this slice is the
    one Python takes, [dirs[offset : offset + limit]]; an offset past the
    end gives the empty page.  The function returns a list in every case:
    no exception leaves it. *)
Theorem page_is_slice (w : World) (b : Backend) (dirs : list Path)
        (offset limit : Z) (thumbnail : Path -> value) :
  all_samples_dirs b = Some dirs ->
  (0 <= offset)%Z -> (0 <= limit)%Z ->
  (forall d, In d (firstn (Z.to_nat limit) (skipn (Z.to_nat offset) dirs)) ->
             sample_meta (files w) b d = inr (meta_of (thumbnail d) d)) ->
  get_samples_metadata w b offset limit
  = (w, map (fun d => meta_of (thumbnail d) d)
            (firstn (Z.to_nat limit) (skipn (Z.to_nat offset) dirs)))
  /\ ((Z.of_nat (List.length dirs) <= offset)%Z ->
      get_samples_metadata w b offset limit = (w, []))
  /\ firstn (Z.to_nat limit) (skipn (Z.to_nat offset) dirs)
     = interval dirs offset limit.
Proof.
  intros Hd Ho Hl Hs.
  assert (Hpage : get_samples_metadata w b offset limit
                  = (w, map (fun d => meta_of (thumbnail d) d)
                            (firstn (Z.to_nat limit)
                                    (skipn (Z.to_nat offset) dirs)))).
  { unfold get_samples_metadata, list_samples. rewrite Hd.
    rewrite py_slice_nonneg by assumption.
    rewrite (mapM_ok _ (fun d => meta_of (thumbnail d) d)) by exact Hs.
    reflexivity. }
  split; [exact Hpage |].
  split; [| symmetry; apply interval_nonneg; assumption].
  intros Hout. rewrite Hpage.
  rewrite skipn_all2 by lia. rewrite firstn_nil. reflexivity.
Qed.

Lemma page_is_slice_witness :
  get_samples_metadata (world_of empty_fs)
                       (backend_at (VStr "thumb.png") None (Some abc_dirs)) 2 2
  = (world_of empty_fs, [meta_of (VStr "thumb.png") (of_str "/r/c")]).
Proof.
  apply (page_is_slice (world_of empty_fs)
           (backend_at (VStr "thumb.png") None (Some abc_dirs))
           abc_dirs 2 2 (fun _ => VStr "thumb.png")).
  - reflexivity.
  - lia.
  - lia.
  - intros d _. reflexivity.
Defined.

(** The scenario of the specification: pages of two over [a], [b], [c]. *)
Example pages_of_two :
  let b := backend_at (VStr "thumb.png") None (Some abc_dirs) in
  map id (snd (get_samples_metadata (world_of empty_fs) b 0 2)) = ["a"; "b"]
  /\ map id (snd (get_samples_metadata (world_of empty_fs) b 2 2)) = ["c"]
  /\ snd (get_samples_metadata (world_of empty_fs) b 4 2) = [].
Proof. repeat split. Qed.

(* ================================================================== *)
(** ** Failures within a page                                          *)
(* ================================================================== *)

(** C4, as stated, fails: the probe for sample [b] is denied, samples [a]
    and [c] resolve, and the page comes back empty. *)
Lemma one_failure_empties_page :
  ~ (forall (w : World) (b : Backend) (dirs : list Path) (offset limit : Z)
            (d : Path),
        all_samples_dirs b = Some dirs ->
        In d (py_slice dirs offset (offset + limit)) ->
        is_ok (sample_meta (files w) b d) = true ->
        exists m, In m (snd (get_samples_metadata w b offset limit))
                  /\ id m = name d).
Proof.
  intros H.
  destruct (H (world_of denied_fs) (backend_at thumbs None (Some abc_dirs))
              abc_dirs 0%Z 3%Z (of_str "/r/a")) as [m [Hin _]].
  - reflexivity.
  - left. reflexivity.
  - reflexivity.
  - vm_compute in Hin. exact Hin.
Qed.

(** C4 (amended): an error raised while the entry of any sample of the
    requested page is built is caught around the whole loop: it is logged
    and the page is returned empty, whatever the other samples would have
    given; no exception leaves [get_samples_metadata]. *)
Theorem failure_is_batch_wide (w : World) (b : Backend) (dirs : list Path)
        (offset limit : Z) (d : Path) (e : exn) :
  all_samples_dirs b = Some dirs ->
  In d (py_slice dirs offset (offset + limit)) ->
  sample_meta (files w) b d = inl e ->
  exists e',
    get_samples_metadata w b offset limit
    = (emit w (LogException "Error listing samples" e'), []).
Proof.
  intros Hd Hin He. unfold get_samples_metadata, list_samples. rewrite Hd.
  destruct (mapM_fails _ _ _ _ Hin He) as [e' ->].
  exists e'. reflexivity.
Qed.

Lemma failure_is_batch_wide_witness :
  exists e',
    get_samples_metadata (world_of denied_fs)
                         (backend_at thumbs None (Some abc_dirs)) 0 3
    = (emit (world_of denied_fs) (LogException "Error listing samples" e'), []).
Proof.
  apply (failure_is_batch_wide (world_of denied_fs)
           (backend_at thumbs None (Some abc_dirs)) abc_dirs 0 3
           (of_str "/r/b") OSError).
  - reflexivity.
  - right. left. reflexivity.
  - reflexivity.
Defined.

(* ================================================================== *)
(** ** Discovery without a results folder                              *)
(* ================================================================== *)

(** C8, as stated, fails: a rescan over a results folder that has
    disappeared keeps the sample list that was loaded before, and the next
    page shows its samples. *)
Lemma failed_rescan_keeps_samples :
  ~ (forall (w w' : World) (b b' : Backend) (offset limit : Z),
        results_missing (files w) (results_path b) ->
        discover_all_samples w b = inr (w', b') ->
        snd (get_samples_metadata w' b' offset limit) = []).
Proof.
  intros H.
  specialize (H (world_of empty_fs)
                (emit (world_of empty_fs)
                      (LogError "Results path does not exist: /r"))
                (backend_at (VStr "thumb.png") None (Some abc_dirs))
                (backend_at (VStr "thumb.png") None (Some abc_dirs))
                0%Z 2%Z).
  assert (Hm : results_missing (files (world_of empty_fs))
                 (results_path (backend_at (VStr "thumb.png") None
                                           (Some abc_dirs)))).
  { right. exists (of_str "/r"). split; reflexivity. }
  specialize (H Hm eq_refl). vm_compute in H. discriminate.
Qed.

Lemma page_of_unset_list (w : World) (b : Backend) (offset limit : Z) :
  all_samples_dirs b = None ->
  get_samples_metadata w b offset limit
  = (emit w (LogException "Error listing samples" AttributeError), []).
Proof.
  intros H. unfold get_samples_metadata, list_samples. rewrite H. reflexivity.
Qed.

(** Discovery without a results folder logs an error and changes neither
    the files nor the backend. *)
Lemma discover_missing (w : World) (b : Backend) :
  results_missing (files w) (results_path b) ->
  exists msg, discover_all_samples w b = inr (emit w (LogError msg), b).
Proof.
  intros [Hn | [rp [Hs He]]]; unfold discover_all_samples.
  - rewrite Hn. eexists. reflexivity.
  - rewrite Hs, He. simpl. eexists. reflexivity.
Qed.

(** C8 (amended): if the results folder is unset or does not exist,
    discovery logs an error and returns; it writes no cache file and
    leaves the backend as it was, so a sample list loaded before is kept.
    While the list has never been assigned, as after a construction that
    found no cache file, every page request returns the empty page. *)
Theorem failed_discovery_leaves_backend (w : World) (b : Backend) :
  results_missing (files w) (results_path b) ->
  exists msg,
    discover_all_samples w b = inr (emit w (LogError msg), b)
    /\ (all_samples_dirs b = None ->
        forall offset limit,
          snd (get_samples_metadata (emit w (LogError msg)) b offset limit) = []).
Proof.
  intros Hm. destruct (discover_missing w b Hm) as [msg Hd].
  exists msg. split; [exact Hd |].
  intros Hu offset limit. rewrite page_of_unset_list by exact Hu. reflexivity.
Qed.

Lemma failed_discovery_leaves_backend_witness :
  exists msg,
    discover_all_samples (world_of empty_fs) (backend_at (VStr "t.png") None None)
    = inr (emit (world_of empty_fs) (LogError msg),
           backend_at (VStr "t.png") None None)
    /\ (all_samples_dirs (backend_at (VStr "t.png") None None) = None ->
        forall offset limit,
          snd (get_samples_metadata (emit (world_of empty_fs) (LogError msg))
                                    (backend_at (VStr "t.png") None None)
                                    offset limit) = []).
Proof.
  apply (failed_discovery_leaves_backend (world_of empty_fs)
           (backend_at (VStr "t.png") None None)).
  right. exists (of_str "/r"). split; reflexivity.
Defined.

(** Construction: no cache file and no results folder give a backend whose
    sample list is unset, and every page of it is empty. *)
Lemma construction_without_results (w : World) (config : GradioConfig)
      (root : Path) :
  let fs1 := mkdir_parents (files w) (cache_dir (files w) config) in
  let b := new_backend (files w) config root in
  path_exists fs1 (cached_path b) = inr false ->
  results_missing fs1 (results_folder config) ->
  exists msg,
    init w config root
    = inr (emit {| files := fs1; log := log w |} (LogError msg), b)
    /\ forall w' offset limit, snd (get_samples_metadata w' b offset limit) = [].
Proof.
  intros fs1 b Hc Hm. unfold init. fold b. fold fs1.
  cbn [files]. rewrite Hc. cbn [bind].
  destruct (discover_missing {| files := fs1; log := log w |} b Hm)
    as [msg Hd].
  exists msg. split; [exact Hd |].
  intros w' offset limit. rewrite page_of_unset_list by reflexivity. reflexivity.
Qed.

(* ================================================================== *)
(** ** The name of the cache file                                      *)
(* ================================================================== *)

Lemma no_slash_app (a b : string) :
  no_slash (a ++ b) = no_slash a && no_slash b.
Proof.
  unfold no_slash. induction a as [| c a IH]; simpl.
  - reflexivity.
  - rewrite IH. apply andb_assoc.
Qed.

Lemma hex_digit_not_slash (n : nat) :
  negb (Ascii.eqb (json.hex_digit n) slash) = true.
Proof.
  do 16 (destruct n as [| n]; [reflexivity |]). reflexivity.
Qed.

Lemma no_slash_hex_of (x : N) : no_slash (sha256.hex_of x) = true.
Proof.
  unfold sha256.hex_of, no_slash.
  rewrite list_ascii_of_string_of_list_ascii.
  rewrite forallb_forall. intros c Hc.
  apply in_map_iff in Hc. destruct Hc as [i [<- _]].
  apply hex_digit_not_slash.
Qed.

Lemma no_slash_concat (l : list string) :
  (forall s, In s l -> no_slash s = true) ->
  no_slash (String.concat EmptyString l) = true.
Proof.
  induction l as [| s l IH]; intros H.
  - reflexivity.
  - destruct l as [| t l'].
    + simpl. apply H. left. reflexivity.
    + change (String.concat EmptyString (s :: t :: l'))
        with (s ++ EmptyString ++ String.concat EmptyString (t :: l'))%string.
      rewrite no_slash_app. rewrite (H s (or_introl eq_refl)).
      simpl. apply IH. intros u Hu. apply H. right. exact Hu.
Qed.

Lemma no_slash_hexdigest (msg : list N) : no_slash (sha256.hexdigest msg) = true.
Proof.
  unfold sha256.hexdigest. apply no_slash_concat.
  intros s Hs. apply in_map_iff in Hs. destruct Hs as [x [<- _]].
  apply no_slash_hex_of.
Qed.

Lemma split_on_no_sep (s : string) :
  no_slash s = true -> split_on slash s = [s].
Proof.
  unfold no_slash. induction s as [| c s IH]; simpl; intros H.
  - reflexivity.
  - apply andb_true_iff in H. destruct H as [Hc Hs].
    apply negb_true_iff in Hc. rewrite Hc. rewrite (IH Hs). reflexivity.
Qed.

Lemma leading_no_slash (s : string) :
  no_slash s = true -> leading slash s = 0.
Proof.
  unfold no_slash. destruct s as [| c s]; simpl; intros H.
  - reflexivity.
  - apply andb_true_iff in H. destruct H as [Hc _].
    apply negb_true_iff in Hc. rewrite Hc. reflexivity.
Qed.

(** A string without a slash that is neither empty nor a single dot is
    one relative component. *)
Lemma of_str_component (s : string) :
  no_slash s = true -> s <> EmptyString -> s <> "." ->
  of_str s = {| root := EmptyString; names := [s] |}.
Proof.
  intros Hs He Hd. unfold of_str.
  rewrite (leading_no_slash s Hs), (split_on_no_sep s Hs).
  apply String.eqb_neq in Hd. cbn [filter]. rewrite Hd.
  destruct s as [| c s]; [contradiction He; reflexivity |]. reflexivity.
Qed.

Lemma name_div_component (dir : Path) (s : string) :
  no_slash s = true -> s <> EmptyString -> s <> "." ->
  name (div dir s) = s.
Proof.
  intros Hs He Hd. unfold div. rewrite (of_str_component s Hs He Hd).
  unfold joinpath, name. simpl. apply last_last.
Qed.

Lemma length_append (a b : string) :
  String.length (a ++ b) = String.length a + String.length b.
Proof. induction a as [| c a IH]; simpl; [reflexivity | rewrite IH; reflexivity]. Qed.

Lemma or_empty_spec (o : option string) :
  or_empty o = match o with Some f => f | None => EmptyString end.
Proof. destruct o as [[| c s] |]; reflexivity. Qed.

Lemma discover_keeps_cached_path (w w' : World) (b b' : Backend) :
  discover_all_samples w b = inr (w', b') -> cached_path b' = cached_path b.
Proof.
  unfold discover_all_samples. destruct (results_path b) as [rp |].
  - intros H. apply bind_inr_inv in H. destruct H as [found [_ H]].
    destruct found; simpl in H.
    + apply bind_inr_inv in H. destruct H as [dirs [_ H]].
      apply bind_inr_inv in H. destruct H as [text [_ H]].
      injection H as _ <-. reflexivity.
    + injection H as _ <-. reflexivity.
  - intros H. injection H as _ <-. reflexivity.
Qed.

Lemma init_keeps_cached_path (w w' : World) (config : GradioConfig)
      (root : Path) (b : Backend) :
  init w config root = inr (w', b) ->
  cached_path b = cached_path (new_backend (files w) config root).
Proof.
  unfold init. intros H.
  apply bind_inr_inv in H. destruct H as [found [_ H]].
  destruct found.
  - apply bind_inr_inv in H. destruct H as [text [_ H]].
    apply bind_inr_inv in H. destruct H as [listed [_ H]].
    apply bind_inr_inv in H. destruct H as [items [_ H]].
    apply bind_inr_inv in H. destruct H as [dirs [_ H]].
    injection H as _ <-. reflexivity.
  - apply discover_keeps_cached_path in H. exact H.
Qed.

(** C9: for every results folder and optional filter pattern, the cache
    file of a backend is named by the hexadecimal SHA-256 digest of the
    UTF-8 bytes of the POSIX string of the results folder directly followed
    by the filter pattern (nothing when there is no filter), followed by
    [.json]; construction does not change that path. *)
Theorem cache_file_is_sha256_of_folder_and_filter
        (w : World) (config : GradioConfig) (root rp : Path) :
  results_folder config = Some rp ->
  name (cached_path (new_backend (files w) config root))
  = (sha256.hexdigest
       (encode_utf8
          (as_posix rp ++ match filter_results_by_existance_of config with
                          | Some pattern => pattern
                          | None => EmptyString
                          end))
     ++ ".json")%string
  /\ forall w' b, init w config root = inr (w', b) ->
                  cached_path b = cached_path (new_backend (files w) config root).
Proof.
  intros Hrp. split.
  - unfold new_backend. cbn [cached_path].
    unfold cache_file_name, results_path_hash. rewrite Hrp.
    rewrite or_empty_spec.
    apply name_div_component.
    + rewrite no_slash_app, no_slash_hexdigest. reflexivity.
    + intros H. apply (f_equal String.length) in H.
      rewrite length_append in H. simpl in H. lia.
    + intros H. apply (f_equal String.length) in H.
      rewrite length_append in H. simpl in H. lia.
  - intros w' b. apply init_keeps_cached_path.
Qed.

Lemma cache_file_is_sha256_of_folder_and_filter_witness :
  name (cached_path (new_backend empty_fs meta_config (of_str ".")))
  = "3d83ad91b3d6ff8459129c697c0a94a20137207059cec292bc540f09651008a1.json".
Proof.
  destruct (cache_file_is_sha256_of_folder_and_filter
              (world_of empty_fs) meta_config (of_str ".") (of_str "/r")
              eq_refl) as [H _].
  etransitivity; [exact H | vm_compute; reflexivity].
Defined.

(* ================================================================== *)
(** ** Filtered discovery                                              *)
(* ================================================================== *)

Lemma names_eqb_refl (l : list string) : names_eqb l l = true.
Proof.
  induction l as [| a l IH]; simpl; [reflexivity |].
  rewrite String.eqb_refl. exact IH.
Qed.

Lemma path_eqb_refl (p : Path) : pathlib.eqb p p = true.
Proof.
  unfold pathlib.eqb. rewrite String.eqb_refl. apply names_eqb_refl.
Qed.

Lemma insert_sorted_perm (x : Path) (l : list Path) :
  Permutation (insert_sorted x l) (x :: l).
Proof.
  induction l as [| y l IH]; simpl.
  - apply Permutation_refl.
  - destruct (path_leb x y).
    + apply Permutation_refl.
    + eapply perm_trans; [apply perm_skip, IH | apply perm_swap].
Qed.

Lemma sorted_perm (l : list Path) : Permutation (sorted l) l.
Proof.
  induction l as [| x l IH]; simpl.
  - apply perm_nil.
  - eapply perm_trans; [apply insert_sorted_perm | apply perm_skip, IH].
Qed.

(** [sorted] puts the paths in ascending order. *)
Lemma ltb_total (a b : string) :
  (a =? b) = false -> String.ltb a b = false -> String.ltb b a = true.
Proof.
  unfold String.ltb. intros Hne Hlt.
  rewrite String.compare_antisym.
  destruct (String.compare a b) eqn:E; simpl.
  - apply String.compare_eq_iff in E. subst b.
    rewrite String.eqb_refl in Hne. discriminate Hne.
  - discriminate Hlt.
  - reflexivity.
Qed.

Lemma parts_leb_total (l m : list string) :
  parts_leb l m = false -> parts_leb m l = true.
Proof.
  revert m. induction l as [| a l IH]; intros [| b m] H; simpl in *;
    try discriminate H; try reflexivity.
  rewrite String.eqb_sym.
  destruct (a =? b) eqn:E.
  - apply IH. exact H.
  - apply ltb_total; assumption.
Qed.

Lemma path_le_total (x y : Path) : path_leb x y = false -> path_le y x.
Proof. unfold path_le, path_leb. apply parts_leb_total. Qed.

Lemma insert_sorted_Sorted (x : Path) (l : list Path) :
  Sorted path_le l -> Sorted path_le (insert_sorted x l).
Proof.
  induction l as [| a l IH]; intros H; simpl.
  - repeat constructor.
  - destruct (path_leb x a) eqn:E.
    + constructor; [exact H | constructor; exact E].
    + inversion H as [| ? ? Hs Hh]; subst.
      constructor; [apply IH; exact Hs |].
      destruct l as [| c l]; simpl.
      * constructor. apply path_le_total. exact E.
      * destruct (path_leb x c).
        -- constructor. apply path_le_total. exact E.
        -- inversion Hh; subst. constructor. assumption.
Qed.

Lemma sorted_Sorted (l : list Path) : Sorted path_le (sorted l).
Proof.
  induction l as [| x l IH]; simpl.
  - constructor.
  - apply insert_sorted_Sorted. exact IH.
Qed.

(** The relative path of a match below [rp]. *)
Lemma relative_to_below (rp p : Path) :
  below rp p = true ->
  exists x rest,
    strip_prefix (names rp) (names p) = Some (x :: rest)
    /\ relative_to p rp = inr {| root := EmptyString; names := x :: rest |}.
Proof.
  unfold below, relative_to. intros H.
  apply andb_true_iff in H. destruct H as [Hr Hs]. rewrite Hr.
  destruct (strip_prefix (names rp) (names p)) as [[| x rest] |];
    try discriminate.
  exists x, rest. split; reflexivity.
Qed.

Lemma filtered_folders_below (rp : Path) (l : list Path) :
  Forall (fun p => below rp p = true) l ->
  (rel <- mapM (fun p => relative_to p rp) l ;;
   mapM (fun p => x <- first_part p ;; ret (div rp x)) rel)
  = inr (map (sample_dir_of rp) l).
Proof.
  intros H. rewrite Forall_forall in H.
  pose (rel_of := fun p : Path =>
          {| root := EmptyString;
             names := match strip_prefix (names rp) (names p) with
                      | Some r => r
                      | None => []
                      end |}).
  rewrite (mapM_ok _ rel_of).
  - cbn [bind].
    rewrite (mapM_ok _ (fun q => match names q with
                                 | x :: _ => div rp x
                                 | [] => rp
                                 end)).
    + rewrite map_map. f_equal. apply map_ext_in. intros p Hp.
      unfold sample_dir_of, rel_of. cbn [names].
      destruct (relative_to_below rp p (H p Hp)) as [x [rest [Hs _]]].
      rewrite Hs. reflexivity.
    + intros q Hq. apply in_map_iff in Hq. destruct Hq as [p [<- Hp]].
      destruct (relative_to_below rp p (H p Hp)) as [x [rest [Hs _]]].
      unfold rel_of, first_part, parts, is_absolute. cbn [root names is_empty_str negb].
      rewrite Hs. reflexivity.
  - intros p Hp.
    destruct (relative_to_below rp p (H p Hp)) as [x [rest [Hs Hr]]].
    rewrite Hr. unfold rel_of. rewrite Hs. reflexivity.
Qed.

Lemma filtered_folders_ok (rp : Path) (found : list Path) :
  Forall (fun p => below rp p = true) found ->
  filtered_folders rp found = inr (map (sample_dir_of rp) (sorted found)).
Proof.
  intros H. unfold filtered_folders. apply filtered_folders_below.
  rewrite Forall_forall in *. intros p Hp. apply H.
  eapply Permutation_in; [apply sorted_perm | exact Hp].
Qed.

Lemma encode_items_strs (enc : string -> string) (l : list string) :
  json.encode_items (json.encode enc) (map VStr l)
  = inr (map (json.literal enc) l).
Proof.
  induction l as [| s l IH]; simpl.
  - reflexivity.
  - rewrite IH. reflexivity.
Qed.

Lemma dumps_strs (l : list string) :
  json.dumps (VList (map VStr l))
  = inr ("[" ++ join_with ", " (map (json.literal json.escape) l) ++ "]")%string.
Proof.
  unfold json.dumps. cbn [json.encode]. rewrite encode_items_strs. reflexivity.
Qed.

(** A filtered discovery removes no entry: the sample list need not be
    free of duplicates. *)
Lemma filtered_discovery_keeps_duplicates :
  ~ (forall (w w' : World) (b b' : Backend) (pattern : string)
            (dirs : list Path),
        b_filter b = Some pattern ->
        discover_all_samples w b = inr (w', b') ->
        all_samples_dirs b' = Some dirs ->
        NoDup dirs).
Proof.
  intros H.
  pose (w := world_of two_markers_fs).
  pose (b := backend_at (VStr "thumb.png") (Some "meta.json") None).
  destruct (discover_all_samples w b) as [e | [w' b']] eqn:Hd;
    [vm_compute in Hd; discriminate |].
  specialize (H w w' b b' "meta.json" [of_str "/r/s1"; of_str "/r/s1"]
                eq_refl Hd).
  vm_compute in Hd. injection Hd as _ <-.
  specialize (H eq_refl).
  inversion H as [| ? ? Hnotin _]. apply Hnotin. left. reflexivity.
Qed.

(** What a filtered discovery does: when a filter pattern is set and the
    results folder exists, it sorts the matches of the recursive search
    and maps each match, in that order, to the results folder joined with
    the first component of the match's path relative to it.  The list has
    one directory per match.  The same list is kept in memory and
    written, as POSIX strings, to the cache file. *)
Lemma filtered_discovery_maps_sorted_matches
      (w : World) (b : Backend) (rp : Path) (pattern : string)
      (found : list Path) :
  results_path b = Some rp ->
  path_exists (files w) rp = inr true ->
  b_filter b = Some pattern ->
  rglob (files w) rp pattern = inr found ->
  Forall (fun p => below rp p = true) found ->
  let dirs := map (sample_dir_of rp) (sorted found) in
  exists w',
    discover_all_samples w b = inr (w', set_samples b dirs)
    /\ read_text (files w') (cached_path b)
       = json.dumps (VList (map VStr (map as_posix dirs)))
    /\ is_ok (read_text (files w') (cached_path b)) = true
    /\ Permutation (sorted found) found
    /\ List.length dirs = List.length found
    /\ Sorted path_le (sorted found).
Proof.
  intros Hrp He Hf Hg Hb dirs.
  unfold discover_all_samples. rewrite Hrp, He. cbn [bind negb].
  rewrite Hf. cbn [files emit]. rewrite Hg. cbn [bind].
  rewrite (filtered_folders_ok rp found Hb). fold dirs. cbn [bind].
  rewrite <- (map_map as_posix VStr dirs).
  rewrite dumps_strs. cbn [bind ret].
  eexists. split; [reflexivity |].
  cbn [files write_text read_text]. rewrite path_eqb_refl.
  split; [reflexivity |]. split; [reflexivity |].
  split; [apply sorted_perm |].
  split; [| apply sorted_Sorted].
  subst dirs. rewrite length_map.
  apply Permutation_length, sorted_perm.
Qed.

(** C3 (the code departs from it): the sample [s1] holds two marker
    files and the sample [s2] one; the filtered discovery puts [/r/s1]
    twice into the sample list and into the cache file.  Nothing in
    [discover_all_samples] removes the second entry. *)
Theorem filtered_discovery_lists_sample_twice :
  exists w',
    discover_all_samples (world_of three_markers_fs)
                         (backend_at (VStr "thumb.png") (Some "meta.json") None)
    = inr (w', set_samples
                 (backend_at (VStr "thumb.png") (Some "meta.json") None)
                 [of_str "/r/s1"; of_str "/r/s1"; of_str "/r/s2"])
    /\ read_text (files w')
                 (cached_path
                    (backend_at (VStr "thumb.png") (Some "meta.json") None))
       = json.dumps (VList [VStr "/r/s1"; VStr "/r/s1"; VStr "/r/s2"]).
Proof.
  destruct (filtered_discovery_maps_sorted_matches
              (world_of three_markers_fs)
              (backend_at (VStr "thumb.png") (Some "meta.json") None)
              (of_str "/r") "meta.json"
              [of_str "/r/s2/meta.json"; of_str "/r/s1/b/meta.json";
               of_str "/r/s1/a/meta.json"]
              eq_refl eq_refl eq_refl eq_refl)
    as [w' [H1 [H2 _]]].
  - repeat constructor.
  - exists w'. split; [exact H1 | exact H2].
Qed.

(** The page built from that list does not fit the rows of the viewer,
    which are keyed by sample id: the ids of the page are [s1], [s1],
    [s2], a click on the third image asks for the row at index 2, and
    none of the two rows is shown. *)
Example duplicate_entry_hides_the_selected_row :
  let b := backend_at (VStr "thumb.png") (Some "meta.json")
                      (Some [of_str "/r/s1"; of_str "/r/s1"; of_str "/r/s2"]) in
  let page := snd (load_more (world_of three_markers_fs) b meta_config
                             [] [] [] 0 10) in
  out_ids page = ["s1"; "s1"; "s2"]
  /\ create_samples_rows (out_state page) [] = ["s1"; "s2"]
  /\ show_sample {| ev_value := VDict []; ev_index := 2 |} (out_ids page)
     = inr {| sel_dropdown := "s2"; sel_gallery := Some 2%Z;
              sel_text := "selected_2" |}
  /\ render_samples (List.length (create_samples_rows (out_state page) []))
                    "selected_2"
     = inr (Selected [false; false]).
Proof. repeat split. Qed.

(* ================================================================== *)
(** ** Index chains                                                    *)
(* ================================================================== *)

(** A chain that has reached a value other than [None] goes on from
    there. *)
Lemma get_chain_app (v v' : value) (pre post : list value) :
  get_chain v pre = inr v' -> v' <> VNone ->
  get_chain v (pre ++ post) = get_chain v' post.
Proof.
  revert v. induction pre as [| k pre IH]; intros v H Hn; simpl in *.
  - injection H as ->. reflexivity.
  - destruct (py_get v k) as [e | x]; simpl in *; [discriminate |].
    destruct x; try (apply IH; assumption).
    injection H as <-. contradiction Hn. reflexivity.
Qed.

(** Mappings: a key that is absent at any position of the chain gives
    [None], whatever follows. *)
Lemma get_chain_absent_key (v : value) (pre post : list value)
      (d : list (string * value)) (k : string) :
  get_chain v pre = inr (VDict d) -> dict_lookup k d = None ->
  get_chain v (pre ++ VStr k :: post) = inr VNone.
Proof.
  intros H Hk. rewrite (get_chain_app v (VDict d)) by (assumption || discriminate).
  simpl. rewrite Hk. reflexivity.
Qed.

(** Tables: a label that is absent from the index of a table raises
    [KeyError]. *)
Lemma loc_chain_absent_label (df : DataFrame) (k : string) (post : list value) :
  select (LStr k) (df_index df) (df_data df) = [] ->
  loc_chain (VFrame df) (VStr k :: post) = inl KeyError.
Proof.
  intros H. simpl. unfold frame_loc. simpl. rewrite H. reflexivity.
Qed.

Section file_backed.

Variable fs : FileSystem.
Variable sample_name : string.
Variable results_folder : Path.
Variable data : list (string * value).
Variable load_path : string.
Variable indices : list value.

Hypothesis Hpath : dict_lookup "load_path" data = Some (VStr load_path).
Hypothesis Hexists :
  path_exists fs (probed (div results_folder sample_name) (of_str load_path))
  = inr true.
Hypothesis Hindices : dict_lookup "indices" data = Some (VList indices).
Hypothesis Hnonempty : indices <> [].

Lemma load_contents_indexed (content : value) :
  load_file fs (probed (div results_folder sample_name) (of_str load_path))
  = inr content ->
  load_contents fs sample_name (Some results_folder) data
  = match content with
    | VDict [] => ret VNone
    | VDict (_ :: _) => get_chain content indices
    | VFrame df => if df_empty df then ret VNone
                   else loc_chain content indices
    | _ => raise TypeError
    end.
Proof.
  intros Hload. unfold load_contents. rewrite Hpath. cbn [to_Path bind ret].
  unfold probed in Hexists, Hload. unfold sample_folder.
  destruct (negb (is_absolute (of_str load_path))); cbn [bind ret];
    rewrite Hexists; cbn [bind negb]; rewrite Hload; cbn [bind];
    rewrite Hindices;
    (destruct indices as [| i0 is0]; [contradiction Hnonempty; reflexivity |]);
    cbn [no_indices bind ret py_iter];
    destruct content as [| | | | | [| kv d] | | df |]; try reflexivity;
    destruct (df_empty df); reflexivity.
Qed.

(** An empty table gives [None] before any lookup. *)
Lemma empty_table_is_absent (df : DataFrame) :
  load_file fs (probed (div results_folder sample_name) (of_str load_path))
  = inr (VFrame df) ->
  df_empty df = true ->
  load_contents fs sample_name (Some results_folder) data = inr VNone.
Proof.
  intros Hload He. rewrite (load_contents_indexed _ Hload). rewrite He.
  reflexivity.
Qed.

(** A key absent from a mapping gives [None]. *)
Lemma absent_key_is_absent (d : list (string * value)) (pre post : list value)
      (d' : list (string * value)) (k : string) :
  load_file fs (probed (div results_folder sample_name) (of_str load_path))
  = inr (VDict d) ->
  indices = pre ++ VStr k :: post ->
  get_chain (VDict d) pre = inr (VDict d') -> dict_lookup k d' = None ->
  load_contents fs sample_name (Some results_folder) data = inr VNone.
Proof.
  intros Hload Hi Hpre Hk. rewrite (load_contents_indexed _ Hload).
  destruct d as [| kv d0].
  - reflexivity.
  - rewrite Hi. apply (get_chain_absent_key _ pre post d' k Hpre Hk).
Qed.

(** A label absent from a table that is not empty raises [KeyError]. *)
Lemma absent_label_raises (df : DataFrame) (k : string) (post : list value) :
  load_file fs (probed (div results_folder sample_name) (of_str load_path))
  = inr (VFrame df) ->
  df_empty df = false ->
  indices = VStr k :: post ->
  select (LStr k) (df_index df) (df_data df) = [] ->
  load_contents fs sample_name (Some results_folder) data = inl KeyError.
Proof.
  intros Hload He Hi Hs. rewrite (load_contents_indexed _ Hload). rewrite He.
  rewrite Hi. apply loc_chain_absent_label. exact Hs.
Qed.

End file_backed.

(** C2 (the code departs from it): the node asks for the row [row5] of a
    table whose rows are [row1] and [row2]; resolution raises [KeyError]
    instead of giving the absent result. *)
Theorem absent_row_raises_KeyError :
  load_layout_files table_fs "s" (Some (of_str "/r")) row5_node = inl KeyError.
Proof. reflexivity. Qed.

(* ================================================================== *)
(** ** The copy of the layout                                          *)
(* ================================================================== *)

Lemma mapO_ext {A B : Type} (f g : A -> option B) (l : list A) (l' : list B) :
  (forall a b, In a l -> f a = Some b -> g a = Some b) ->
  heap.mapO f l = Some l' -> heap.mapO g l = Some l'.
Proof.
  revert l'. induction l as [| a l IH]; simpl; intros l' Hfg H.
  - exact H.
  - destruct (f a) as [b |] eqn:Hfa; [| discriminate].
    destruct (heap.mapO f l) as [bs |] eqn:Hfl; [| discriminate].
    rewrite (Hfg a b (or_introl eq_refl) Hfa).
    rewrite (IH bs (fun x y Hx => Hfg x y (or_intror Hx)) eq_refl).
    exact H.
Qed.

(** Reading is stable under more fuel and a longer store. *)
Lemma read_mono_ext (ext : heap.store) (f : nat) :
  forall (f' : nat) (h : heap.store) (r : heap.ref) (v : value),
    f <= f' -> heap.read f h r = Some v -> heap.read f' (h ++ ext) r = Some v.
Proof.
  induction f as [| f IH]; intros f' h r v Hle H.
  - destruct r as [x | l]; simpl in H.
    + destruct f'; exact H.
    + discriminate.
  - destruct r as [x | l].
    + destruct f'; exact H.
    + destruct f' as [| f']; [lia |].
      simpl in H |- *.
      destruct (nth_error h l) as [o |] eqn:Hn; [| discriminate].
      assert (Hl : l < List.length h)
        by (apply nth_error_Some; rewrite Hn; discriminate).
      rewrite nth_error_app1 by exact Hl.
      rewrite Hn.
      destruct o as [items | pairs].
      * destruct (heap.mapO (heap.read f h) items) as [vs |] eqn:Hm; [| discriminate].
        rewrite (mapO_ext (heap.read f h) (heap.read f' (h ++ ext)) items vs); [exact H | | exact Hm].
        intros a b _ Ha. apply IH; [lia | exact Ha].
      * destruct (heap.mapO (fun kr => option_map (pair (fst kr)) (heap.read f h (snd kr)))
                       pairs) as [vs |] eqn:Hm; [| discriminate].
        rewrite (mapO_ext (fun kr => option_map (pair (fst kr))
                                                (heap.read f h (snd kr)))
                          (fun kr => option_map (pair (fst kr))
                                                (heap.read f' (h ++ ext) (snd kr)))
                          pairs vs); [exact H | | exact Hm].
        intros a b _ Ha.
        destruct (heap.read f h (snd a)) as [x |] eqn:Hr; [| discriminate].
        rewrite (IH f' h (snd a) x); [exact Ha | lia | exact Hr].
Qed.

Lemma closed_from_join (n : nat) (n1 n2 : heap.store) :
  closed_from n n1 ->
  (forall j o r, nth_error n2 j = Some o -> In r (heap.refs_of o) ->
                 in_range n (n + List.length n1 + j) r) ->
  closed_from n (n1 ++ n2).
Proof.
  intros H1 H2 i o r Hi Hr.
  destruct (Nat.lt_ge_cases i (List.length n1)) as [Hlt | Hge].
  - rewrite nth_error_app1 in Hi by exact Hlt. exact (H1 i o r Hi Hr).
  - rewrite nth_error_app2 in Hi by exact Hge.
    pose proof (H2 _ o r Hi Hr) as H.
    destruct r as [x | l]; simpl in *; [exact I | lia].
Qed.

Lemma closed_from_app (n : nat) (n1 n2 : heap.store) :
  closed_from n n1 -> closed_from (n + List.length n1) n2 ->
  closed_from n (n1 ++ n2).
Proof.
  intros H1 H2. apply closed_from_join; [exact H1 |].
  intros j o r Hj Hr. pose proof (H2 j o r Hj Hr) as H.
  destruct r as [x | l]; simpl in *; [exact I | lia].
Qed.

Lemma in_range_weaken (lo hi lo' hi' : nat) (r : heap.ref) :
  lo' <= lo -> hi <= hi' -> in_range lo hi r -> in_range lo' hi' r.
Proof. destruct r as [x | l]; simpl; [trivial | lia]. Qed.

(** Allocating the elements of a list, one after the other. *)
Lemma mapS_alloc_ok (items : list value) :
  Forall alloc_ok items ->
  forall h rs h1,
    heap.mapS heap.alloc items h = (rs, h1) ->
    exists new,
      h1 = h ++ new
      /\ closed_from (List.length h) new
      /\ Forall (in_range (List.length h) (List.length h1)) rs
      /\ heap.mapO (heap.read (List.length h1) h1) rs = Some items.
Proof.
  induction 1 as [| x items Hx _ IH]; intros h rs h1 Hm; simpl in Hm.
  - injection Hm as <- <-. exists []. rewrite app_nil_r.
    repeat split; [intros [| i] o r Hi; discriminate | constructor].
  - destruct (heap.alloc x h) as [r h0] eqn:Ha.
    destruct (heap.mapS heap.alloc items h0) as [rs' h1'] eqn:Hs.
    injection Hm as <- <-.
    destruct (Hx h r h0 Ha) as [n1 [-> [Hc1 [Hr1 Hread1]]]].
    destruct (IH (h ++ n1) rs' h1' Hs) as [n2 [-> [Hc2 [Hr2 Hread2]]]].
    exists (n1 ++ n2). rewrite app_assoc. rewrite !length_app in *.
    repeat split.
    + apply closed_from_app; assumption.
    + constructor.
      * eapply in_range_weaken; [| | exact Hr1]; lia.
      * eapply Forall_impl; [| exact Hr2].
        intros a Hra. eapply in_range_weaken; [| | exact Hra]; lia.
    + simpl.
      rewrite (read_mono_ext n2 (List.length h + List.length n1) _
                             (h ++ n1) r x); [| lia | exact Hread1].
      rewrite Hread2. reflexivity.
Qed.

(** The same for the values of a dictionary. *)
Lemma mapS_alloc_pairs_ok (pairs : list (string * value)) :
  Forall (fun kv => alloc_ok (snd kv)) pairs ->
  forall h rs h1,
    heap.mapS (fun kv h => let (r, h') := heap.alloc (snd kv) h in ((fst kv, r), h'))
         pairs h = (rs, h1) ->
    exists new,
      h1 = h ++ new
      /\ closed_from (List.length h) new
      /\ Forall (fun kr => in_range (List.length h) (List.length h1) (snd kr)) rs
      /\ heap.mapO (fun kr => option_map (pair (fst kr))
                                    (heap.read (List.length h1) h1 (snd kr))) rs
         = Some pairs.
Proof.
  induction 1 as [| [k x] pairs Hx _ IH]; intros h rs h1 Hm; simpl in Hm.
  - injection Hm as <- <-. exists []. rewrite app_nil_r.
    repeat split; [intros [| i] o r Hi; discriminate | constructor].
  - destruct (heap.alloc x h) as [r h0] eqn:Ha.
    destruct (heap.mapS _ pairs h0) as [rs' h1'] eqn:Hs.
    injection Hm as <- <-.
    destruct (Hx h r h0 Ha) as [n1 [-> [Hc1 [Hr1 Hread1]]]].
    destruct (IH (h ++ n1) rs' h1' Hs) as [n2 [-> [Hc2 [Hr2 Hread2]]]].
    exists (n1 ++ n2). rewrite app_assoc. rewrite !length_app in *.
    repeat split.
    + apply closed_from_app; assumption.
    + constructor.
      * eapply in_range_weaken; [| | exact Hr1]; lia.
      * eapply Forall_impl; [| exact Hr2].
        intros a Hra. eapply in_range_weaken; [| | exact Hra]; lia.
    + simpl.
      rewrite (read_mono_ext n2 (List.length h + List.length n1) _
                             (h ++ n1) r x); [| lia | exact Hread1].
      simpl. rewrite Hread2. reflexivity.
Qed.

Lemma closed_from_snoc (n : nat) (new : heap.store) (o : heap.obj) :
  closed_from n new ->
  Forall (in_range n (n + List.length new)) (heap.refs_of o) ->
  closed_from n (new ++ [o]).
Proof.
  intros Hc Ho. apply closed_from_join; [exact Hc |].
  intros [| i] o' r Hi Hr; simpl in Hi; [| destruct i; discriminate].
  injection Hi as <-. rewrite Forall_forall in Ho. specialize (Ho r Hr).
  destruct r as [x | l]; simpl in *; [exact I | lia].
Qed.

Lemma alloc_spec (v : value) : alloc_ok v.
Proof.
  induction v as [| b | z | s | items IH | pairs IH | p | df | sr]
    using value_ind;
    try (intros h r h' Ha; simpl in Ha; injection Ha as <- <-;
         exists []; rewrite app_nil_r;
         repeat split; try exact I;
         [intros [| i] o r Hi; discriminate | destruct (List.length h); reflexivity]).
  - intros h r h' Ha. simpl in Ha.
    destruct (heap.mapS heap.alloc items h) as [rs h1] eqn:Hs.
    injection Ha as <- <-.
    destruct (mapS_alloc_ok items IH h rs h1 Hs) as [new [-> [Hc [Hr Hread]]]].
    exists (new ++ [heap.OList rs]). rewrite app_assoc. rewrite !length_app. simpl.
    repeat split; try lia.
    + apply closed_from_snoc; [exact Hc |]. simpl.
      rewrite length_app in Hr. exact Hr.
    + rewrite Nat.add_1_r. simpl.
      rewrite nth_error_app2 by (rewrite length_app; lia).
      rewrite length_app, Nat.sub_diag. simpl.
      rewrite length_app in Hread.
      rewrite (mapO_ext (heap.read (List.length h + List.length new) (h ++ new))
                        (heap.read (List.length h + List.length new)
                              ((h ++ new) ++ [heap.OList rs])) rs items).
      * reflexivity.
      * intros a b _ Hab.
        apply (read_mono_ext [heap.OList rs] (List.length h + List.length new) _
                             (h ++ new) a b); [lia | exact Hab].
      * exact Hread.
  - intros h r h' Ha. simpl in Ha.
    destruct (heap.mapS _ pairs h) as [rs h1] eqn:Hs.
    injection Ha as <- <-.
    destruct (mapS_alloc_pairs_ok pairs IH h rs h1 Hs)
      as [new [-> [Hc [Hr Hread]]]].
    exists (new ++ [heap.ODict rs]). rewrite app_assoc. rewrite !length_app. simpl.
    repeat split; try lia.
    + apply closed_from_snoc; [exact Hc |]. simpl.
      rewrite length_app in Hr. rewrite Forall_map. exact Hr.
    + rewrite Nat.add_1_r. simpl.
      rewrite nth_error_app2 by (rewrite length_app; lia).
      rewrite length_app, Nat.sub_diag. simpl.
      rewrite length_app in Hread.
      rewrite (mapO_ext (fun kr => option_map (pair (fst kr))
                             (heap.read (List.length h + List.length new)
                                   (h ++ new) (snd kr)))
                        (fun kr => option_map (pair (fst kr))
                             (heap.read (List.length h + List.length new)
                                   ((h ++ new) ++ [heap.ODict rs]) (snd kr)))
                        rs pairs).
      * reflexivity.
      * intros a b _ Hab.
        destruct (heap.read (List.length h + List.length new) (h ++ new) (snd a))
          as [x |] eqn:Hx; [| discriminate].
        rewrite (read_mono_ext [heap.ODict rs] (List.length h + List.length new) _
                               (h ++ new) (snd a) x);
          [exact Hab | lia | exact Hx].
      * exact Hread.
Qed.

(** From a reference into the new objects only new objects are reached. *)
Lemma reachable_stays_new (h new : heap.store) (r : heap.ref) (l : heap.loc) :
  closed_from (List.length h) new ->
  heap.reachable (h ++ new) r l ->
  in_range (List.length h) (List.length h + List.length new) r ->
  List.length h <= l < List.length h + List.length new.
Proof.
  intros Hc Hreach. induction Hreach as [l | l o r l' Hn Hin _ IH]; intros Hr.
  - exact Hr.
  - simpl in Hr. apply IH.
    rewrite nth_error_app2 in Hn by lia.
    pose proof (Hc _ o r Hn Hin) as H.
    eapply in_range_weaken; [| | exact H]; lia.
Qed.

Lemma alloc_frame (v : value) (h h' : heap.store) (r : heap.ref) (l : heap.loc) :
  heap.alloc v h = (r, h') -> l < List.length h -> nth_error h' l = nth_error h l.
Proof.
  intros Ha Hl. destruct (alloc_spec v h r h' Ha) as [new [-> _]].
  apply nth_error_app1. exact Hl.
Qed.

(** What the copy of line 124 is: the tree decoded from the substituted
    text, built from new objects appended to the store. *)
Lemma copy_layout_spec (h : heap.store) (layout : heap.ref) (folder_name : string)
      (copy : heap.ref) (h' : heap.store) :
  heap.copy_layout h layout folder_name = inr (copy, h') ->
  exists text tree new,
    heap.dumps h layout = inr text
    /\ json.loads (replace placeholder folder_name text) = inr tree
    /\ h' = h ++ new
    /\ closed_from (List.length h) new
    /\ in_range (List.length h) (List.length h + List.length new) copy
    /\ heap.read (List.length h') h' copy = Some tree.
Proof.
  unfold heap.copy_layout, heap.loads. intros H.
  apply bind_inr_inv in H. destruct H as [text [Hd H]].
  apply bind_inr_inv in H. destruct H as [tree [Hl H]].
  injection H as H.
  destruct (alloc_spec tree h copy h' H) as [new [-> [Hc [Hr Hread]]]].
  exists text, tree, new. rewrite length_app in Hr.
  repeat apply conj; try assumption. reflexivity.
Qed.



(** The copies made for two samples share no object. *)
Lemma copies_are_disjoint (h h1 h2 : heap.store) (layout c1 c2 : heap.ref)
      (name1 name2 : string) (l1 l2 : heap.loc) :
  heap.copy_layout h layout name1 = inr (c1, h1) ->
  heap.copy_layout h1 layout name2 = inr (c2, h2) ->
  heap.reachable h1 c1 l1 -> heap.reachable h2 c2 l2 -> l1 <> l2.
Proof.
  intros H1 H2 R1 R2.
  destruct (copy_layout_spec _ _ _ _ _ H1)
    as [_ [_ [n1 [_ [_ [-> [Hc1 [Hr1 _]]]]]]]].
  destruct (copy_layout_spec _ _ _ _ _ H2)
    as [_ [_ [n2 [_ [_ [-> [Hc2 [Hr2 _]]]]]]]].
  pose proof (reachable_stays_new _ _ _ _ Hc1 R1 Hr1) as B1.
  pose proof (reachable_stays_new _ _ _ _ Hc2 R2 Hr2) as B2.
  rewrite length_app in B2. lia.
Qed.

(** Popping a key off a dictionary of the copy, as
    [make_gradio_components] does, is a write to an address of the copy:
    it leaves every object of the layout as it is. *)
Lemma write_to_copy_keeps_layout (h h' : heap.store) (layout copy : heap.ref)
      (folder_name : string) (l l0 : heap.loc) (o : heap.obj) :
  heap.copy_layout h layout folder_name = inr (copy, h') ->
  heap.reachable h' copy l -> l0 < List.length h ->
  nth_error (firstn l h' ++ o :: skipn (S l) h') l0 = nth_error h l0.
Proof.
  intros H R Hl0.
  destruct (copy_layout_spec _ _ _ _ _ H)
    as [_ [_ [new [_ [_ [-> [Hc [Hr _]]]]]]]].
  pose proof (reachable_stays_new _ _ _ _ Hc R Hr) as B.
  rewrite nth_error_app1 by (rewrite length_firstn, length_app; lia).
  rewrite nth_error_firstn.
  destruct (Nat.ltb_spec l0 l) as [_ | Hge]; [| lia].
  apply nth_error_app1. exact Hl0.
Qed.

(** *** Stores that the encoder can walk

    In a store where every object refers to objects built before it, no
    walk is circular, and the length of the store is fuel enough. *)

Lemma mapO_total {A B : Type} (f : A -> option B) (l : list A) :
  (forall a, In a l -> exists b, f a = Some b) ->
  exists bs, heap.mapO f l = Some bs.
Proof.
  induction l as [| a l IH]; intros H; simpl.
  - exists []. reflexivity.
  - destruct (H a (or_introl eq_refl)) as [b ->].
    destruct (IH (fun x Hx => H x (or_intror Hx))) as [bs ->].
    exists (b :: bs). reflexivity.
Qed.

Lemma read_mono (f f' : nat) (h : heap.store) (r : heap.ref) (v : value) :
  f <= f' -> heap.read f h r = Some v -> heap.read f' h r = Some v.
Proof.
  intros Hle H. pose proof (read_mono_ext [] f f' h r v Hle H) as H'.
  rewrite app_nil_r in H'. exact H'.
Qed.

Lemma read_ordered (h : heap.store) :
  heap.ordered h ->
  forall l, l < List.length h ->
            exists v, heap.read (S l) h (heap.RLoc l) = Some v.
Proof.
  intros Ho l. induction l as [l IH] using lt_wf_ind. intros Hl.
  destruct (nth_error h l) as [o |] eqn:Hn;
    [| apply nth_error_None in Hn; lia].
  assert (Hitem : forall r, In r (heap.refs_of o) ->
                            exists v, heap.read l h r = Some v).
  { intros [x | l'] Hin.
    - exists x. destruct l; reflexivity.
    - pose proof (Ho l o _ l' Hn Hin eq_refl) as Hlt.
      destruct (IH l' Hlt ltac:(lia)) as [v Hv].
      exists v. apply (read_mono (S l') l); [lia | exact Hv]. }
  cbn [heap.read]. rewrite Hn. destruct o as [items | pairs]; cbn [heap.refs_of] in Hitem.
  - destruct (mapO_total (heap.read l h) items Hitem) as [vs ->].
    eexists. reflexivity.
  - destruct (mapO_total
                (fun kr => option_map (pair (fst kr)) (heap.read l h (snd kr)))
                pairs) as [vs ->].
    + intros [k r] Hin. cbn [fst snd].
      destruct (Hitem r (in_map snd pairs (k, r) Hin)) as [v ->].
      eexists. reflexivity.
    + eexists. reflexivity.
Qed.

(** On such a store the encoder reaches the text of every reference in
    range: [dumps] reports no circular reference. *)
Lemma read_ordered_any (h : heap.store) (r : heap.ref) :
  heap.ordered h -> in_range 0 (List.length h) r ->
  exists v, heap.read (List.length h) h r = Some v.
Proof.
  intros Ho Hr. destruct r as [x | l].
  - exists x. destruct (List.length h); reflexivity.
  - simpl in Hr. destruct (read_ordered h Ho l ltac:(lia)) as [v Hv].
    exists v. apply (read_mono (S l)); [lia | exact Hv].
Qed.

(** Decoding keeps a store in that order. *)
Lemma alloc_ordered (v : value) (h h' : heap.store) (r : heap.ref) :
  heap.ordered h -> heap.alloc v h = (r, h') -> heap.ordered h'.
Proof.
  intros Ho Ha. destruct (alloc_spec v h r h' Ha) as [new [-> [Hc _]]].
  intros l o r' l' Hn Hin ->.
  destruct (Nat.lt_ge_cases l (List.length h)) as [Hlt | Hge].
  - rewrite nth_error_app1 in Hn by exact Hlt.
    exact (Ho l o _ l' Hn Hin eq_refl).
  - rewrite nth_error_app2 in Hn by exact Hge.
    pose proof (Hc _ o _ Hn Hin) as H. simpl in H. lia.
Qed.

(** The traversal of the stored layout gives what the traversal of a tree
    gives: the functional reading of [prepare_layout_components]. *)
Lemma prepare_on_store (fs : FileSystem) (h : heap.store) (root : heap.ref)
      (cfg : GradioConfig) (folder_name : string) :
  heap.read (List.length h) h root = Some (layout cfg) ->
  match heap.prepare_layout_components fs h root (results_folder cfg)
                                       folder_name with
  | inr (r, _) => inr r
  | inl e => inl e
  end
  = prepare_layout_components fs cfg folder_name.
Proof.
  intros Hread.
  unfold heap.prepare_layout_components, prepare_layout_components,
    heap.copy_layout, heap.dumps, heap.loads.
  rewrite Hread.
  destruct (json.dumps (layout cfg)) as [e | text]; [reflexivity |].
  cbn [bind].
  destruct (json.loads (replace placeholder folder_name text)) as [e | tree];
    [reflexivity |].
  cbn [bind ret].
  destruct (heap.alloc tree h) as [copy h'] eqn:Ha. cbn [fst snd].
  destruct (alloc_spec tree h copy h' Ha) as [new [_ [_ [_ Hr]]]].
  rewrite Hr.
  destruct (load_layout_files fs folder_name (results_folder cfg) tree);
    reflexivity.
Qed.

(* ================================================================== *)
(** ** [str.replace]                                                   *)
(* ================================================================== *)

Lemma append_nil_r (s : string) : (s ++ EmptyString)%string = s.
Proof. induction s as [| c s IH]; simpl; [reflexivity | rewrite IH; reflexivity]. Qed.

Lemma append_assoc (a b c : string) :
  ((a ++ b) ++ c)%string = (a ++ (b ++ c))%string.
Proof. induction a as [| x a IH]; simpl; [reflexivity | rewrite IH; reflexivity]. Qed.

Lemma prefix_cons (a b : ascii) (p s : string) :
  String.prefix (String a p) (String b s)
  = if Ascii.eqb a b then String.prefix p s else false.
Proof.
  simpl. destruct (ascii_dec a b) as [-> | Hne].
  - rewrite Ascii.eqb_refl. reflexivity.
  - apply Ascii.eqb_neq in Hne. rewrite Hne. reflexivity.
Qed.

Lemma prefix_nil (s : string) : String.prefix EmptyString s = true.
Proof. destruct s; reflexivity. Qed.

Lemma prefix_app (p t : string) : String.prefix p (p ++ t) = true.
Proof.
  induction p as [| a p IH].
  - apply prefix_nil.
  - change (String a p ++ t)%string with (String a (p ++ t)).
    rewrite prefix_cons, Ascii.eqb_refl. exact IH.
Qed.

Lemma prefix_split (p s : string) :
  String.prefix p s = true -> s = (p ++ drop (String.length p) s)%string.
Proof.
  revert s. induction p as [| a p IH]; intros s H.
  - reflexivity.
  - destruct s as [| b s]; [discriminate |].
    rewrite prefix_cons in H.
    destruct (Ascii.eqb a b) eqn:Hab; [| discriminate].
    apply Ascii.eqb_eq in Hab. subst b. simpl. f_equal. apply IH. exact H.
Qed.

Lemma prefix_extend (p a b : string) :
  String.prefix p a = true -> String.prefix p (a ++ b) = true.
Proof.
  intros H. rewrite (prefix_split p a H). rewrite append_assoc. apply prefix_app.
Qed.

(** A prefix without the character [q] ends before [q]. *)
Lemma prefix_before (q : ascii) (p a b : string) :
  has_char q p = false ->
  String.prefix p (a ++ String q b) = true -> String.prefix p a = true.
Proof.
  revert a. induction p as [| x p IH]; intros a Hq H.
  - apply prefix_nil.
  - simpl in Hq. apply orb_false_iff in Hq. destruct Hq as [Hx Hp].
    destruct a as [| y a].
    + change (EmptyString ++ String q b)%string with (String q b) in H.
      rewrite prefix_cons, Hx in H. discriminate.
    + change (String y a ++ String q b)%string
        with (String y (a ++ String q b)) in H.
      rewrite prefix_cons in H |- *.
      destruct (Ascii.eqb x y); [| discriminate].
      apply IH; assumption.
Qed.

Lemma drop_app (n : nat) (a b : string) :
  n <= String.length a -> drop n (a ++ b) = (drop n a ++ b)%string.
Proof.
  revert a. induction n as [| n IH]; intros a H.
  - reflexivity.
  - destruct a as [| c a]; simpl in *; [lia |]. apply IH. lia.
Qed.

Lemma drop_length_app (a b : string) : drop (String.length a) (a ++ b) = b.
Proof. induction a as [| c a IH]; simpl; [destruct b; reflexivity | exact IH]. Qed.

Lemma length_drop (n : nat) (s : string) :
  String.length (drop n s) = String.length s - n.
Proof.
  revert s. induction n as [| n IH]; intros s.
  - simpl. lia.
  - destruct s as [| c s]; simpl; [reflexivity | apply IH].
Qed.

Section replace_facts.

Variables (old' new : string) (c0 : ascii).

(** The pattern is not empty: [c0] is its first character. *)
Let old : string := String c0 old'.

Lemma replace_from_drop (k : nat) (s : string) :
  replace_from old new k s = replace_from old new 0 (drop k s).
Proof.
  revert k. induction s as [| c s IH]; intros k.
  - destruct k; reflexivity.
  - destruct k as [| k]; [reflexivity |]. simpl. apply IH.
Qed.

Lemma replace_nil : replace old new EmptyString = EmptyString.
Proof. reflexivity. Qed.

Lemma replace_hit (s : string) :
  String.prefix old s = true ->
  replace old new s = (new ++ replace old new (drop (String.length old) s))%string.
Proof.
  intros H. destruct s as [| c s]; [discriminate |].
  unfold replace, old in *. cbn [replace_from]. rewrite H.
  f_equal. rewrite replace_from_drop. simpl. rewrite Nat.sub_0_r. reflexivity.
Qed.

Lemma replace_miss (c : ascii) (s : string) :
  String.prefix old (String c s) = false ->
  replace old new (String c s) = String c (replace old new s).
Proof.
  intros H. unfold replace, old in *. cbn [replace_from]. rewrite H.
  reflexivity.
Qed.

(** Text without the first character of the pattern is kept. *)
Lemma replace_no_head (a b : string) :
  has_char c0 a = false ->
  replace old new (a ++ b) = (a ++ replace old new b)%string.
Proof.
  induction a as [| c a IH]; intros H.
  - reflexivity.
  - simpl in H. apply orb_false_iff in H. destruct H as [Hc Ha].
    change (String c a ++ b)%string with (String c (a ++ b)).
    rewrite replace_miss.
    + simpl. f_equal. apply IH. exact Ha.
    + unfold old. rewrite prefix_cons.
      rewrite Ascii.eqb_sym, Hc. reflexivity.
Qed.

(** No occurrence spans a character that the pattern does not contain. *)
Lemma replace_across (q : ascii) (a b : string) :
  has_char q old = false ->
  replace old new (a ++ String q b)
  = (replace old new a ++ String q (replace old new b))%string.
Proof.
  intros Hq.
  remember (String.length a) as n eqn:Hn. revert a Hn.
  induction n as [n IH] using lt_wf_ind. intros a Hn.
  destruct (String.prefix old (a ++ String q b)) eqn:Hp.
  - pose proof (prefix_before q old a b Hq Hp) as Hpa.
    rewrite (replace_hit _ Hp), (replace_hit _ Hpa).
    assert (Hlen : String.length old <= String.length a).
    { rewrite (prefix_split old a Hpa). rewrite length_append. lia. }
    rewrite drop_app by exact Hlen.
    rewrite (IH (String.length (drop (String.length old) a))).
    + rewrite append_assoc. reflexivity.
    + rewrite length_drop. unfold old in *. simpl in *. lia.
    + reflexivity.
  - destruct a as [| c a].
    + change (EmptyString ++ String q b)%string with (String q b) in *.
      rewrite (replace_miss _ _ Hp). reflexivity.
    + change (String c a ++ String q b)%string
        with (String c (a ++ String q b)) in *.
      rewrite (replace_miss _ _ Hp).
      assert (Hpa : String.prefix old (String c a) = false).
      { destruct (String.prefix old (String c a)) eqn:E; [| reflexivity].
        apply (prefix_extend old (String c a) (String q b)) in E.
        change (String c a ++ String q b)%string
          with (String c (a ++ String q b)) in E.
        rewrite E in Hp. discriminate. }
      rewrite (replace_miss _ _ Hpa).
      rewrite (IH (String.length a)); [reflexivity | | reflexivity].
      subst n. simpl. lia.
Qed.

End replace_facts.

(* ================================================================== *)
(** ** String literals                                                 *)
(* ================================================================== *)

Ltac each_char c :=
  destruct c as [[] [] [] [] [] [] [] []].

Lemma scan_escape_char (c : ascii) (rest : string) :
  json.scanstring (json.escape_char c ++ rest)
  = json.cons_char c (json.scanstring rest).
Proof. each_char c; reflexivity. Qed.

Lemma escape_char_plain (c : ascii) :
  json.plain c = true -> json.escape_char c = str1 c.
Proof. each_char c; intros H; first [reflexivity | discriminate H]. Qed.

Lemma escape_char_not_plain (c : ascii) :
  json.plain c = false ->
  exists t, json.escape_char c = String json.backslash t.
Proof.
  each_char c; intros H; first [discriminate H | eexists; reflexivity].
Qed.

Lemma escape_char_no_dollar (c : ascii) :
  Ascii.eqb c "$" = false -> has_char "$" (json.escape_char c) = false.
Proof. each_char c; intros H; first [reflexivity | discriminate H]. Qed.

Lemma escape_app (a b : string) :
  json.escape (a ++ b) = (json.escape a ++ json.escape b)%string.
Proof.
  induction a as [| c a IH]; simpl.
  - reflexivity.
  - rewrite IH. symmetry. apply append_assoc.
Qed.

Lemma escape_plain (s : string) : all_plain s = true -> json.escape s = s.
Proof.
  induction s as [| c s IH]; simpl; intros H.
  - reflexivity.
  - apply andb_true_iff in H. destruct H as [Hc Hs].
    rewrite (escape_char_plain c Hc), (IH Hs). reflexivity.
Qed.

(** A plain prefix of an escaped string is a prefix of the string. *)
Lemma prefix_escape (p s : string) :
  all_plain p = true ->
  String.prefix p (json.escape s) = true -> String.prefix p s = true.
Proof.
  revert s. induction p as [| x p IH]; intros s Hp H.
  - apply prefix_nil.
  - simpl in Hp. apply andb_true_iff in Hp. destruct Hp as [Hx Hp].
    destruct s as [| d s]; [discriminate |].
    cbn [json.escape] in H.
    destruct (json.plain d) eqn:Hd.
    + rewrite (escape_char_plain d Hd) in H.
      change (str1 d ++ json.escape s)%string with (String d (json.escape s)) in H.
      rewrite prefix_cons in H |- *.
      destruct (Ascii.eqb x d); [| discriminate].
      apply IH; assumption.
    + destruct (escape_char_not_plain d Hd) as [t Ht]. rewrite Ht in H.
      change (String json.backslash t ++ json.escape s)%string
        with (String json.backslash (t ++ json.escape s)) in H.
      rewrite prefix_cons in H.
      destruct (Ascii.eqb x json.backslash) eqn:Hb; [| discriminate].
      apply Ascii.eqb_eq in Hb. subst x. discriminate Hx.
Qed.

Lemma prepend_nil (r : result (string * string)) : prepend EmptyString r = r.
Proof. destruct r as [e | [a b]]; reflexivity. Qed.

Lemma cons_char_prepend (c : ascii) (a : string) (r : result (string * string)) :
  json.cons_char c (prepend a r) = prepend (String c a) r.
Proof. destruct r as [e | [x y]]; reflexivity. Qed.

Lemma scan_plain (a rest : string) :
  all_plain a = true ->
  json.scanstring (a ++ rest) = prepend a (json.scanstring rest).
Proof.
  induction a as [| c a IH]; intros H.
  - symmetry. apply prepend_nil.
  - simpl in H. apply andb_true_iff in H. destruct H as [Hc Ha].
    change (String c a ++ rest)%string with (str1 c ++ (a ++ rest))%string.
    rewrite <- (escape_char_plain c Hc), scan_escape_char.
    rewrite (IH Ha). apply cons_char_prepend.
Qed.

Lemma safe_name_all_plain (s : string) : safe_name s = all_plain s.
Proof.
  unfold safe_name. induction s as [| c s IH]; simpl;
    [reflexivity | rewrite IH; reflexivity].
Qed.

Section literal.

Variable folder_name : string.
Hypothesis Hsafe : safe_name folder_name = true.

Let R := replace placeholder folder_name.

(** The body of a literal after the textual substitution scans to the
    substituted string. *)
Lemma scan_replaced_literal (s rest : string) :
  json.scanstring (R (json.escape s) ++ String json.quote rest)
  = inr (R s, rest).
Proof.
  remember (String.length s) as n eqn:Hn. revert s Hn.
  induction n as [n IH] using lt_wf_ind. intros s Hn.
  destruct (String.prefix placeholder s) eqn:Hp.
  - (* an occurrence starts here *)
    pose proof (prefix_split placeholder s Hp) as Hs.
    set (t := drop (String.length placeholder) s) in *.
    assert (Ht : String.length t < n).
    { pose proof (f_equal String.length Hs) as Hl.
      rewrite length_append in Hl. simpl in Hl. lia. }
    rewrite Hs. rewrite escape_app.
    rewrite (escape_plain placeholder eq_refl).
    unfold R, placeholder.
    rewrite !(replace_hit _ _ _ _ (prefix_app _ _)).
    rewrite !drop_length_app. fold placeholder. fold R.
    rewrite append_assoc.
    rewrite scan_plain by (rewrite <- safe_name_all_plain; exact Hsafe).
    rewrite (IH (String.length t) Ht t eq_refl). reflexivity.
  - destruct s as [| c s].
    + reflexivity.
    + assert (Hlt : String.length s < n) by (subst n; simpl; lia).
      unfold R at 2. unfold placeholder.
      rewrite (replace_miss _ _ _ _ _ Hp). fold placeholder. fold R.
      cbn [json.escape].
      destruct (Ascii.eqb c "$") eqn:Hc.
      * (* a dollar that starts no occurrence *)
        apply Ascii.eqb_eq in Hc. subst c.
        change (json.escape_char "$" ++ json.escape s)%string
          with (String "$" (json.escape s)).
        assert (Hp' : String.prefix placeholder (String "$" (json.escape s))
                      = false).
        { destruct (String.prefix placeholder (String "$" (json.escape s)))
            eqn:E; [| reflexivity].
          unfold placeholder in E, Hp. rewrite prefix_cons in E, Hp.
          rewrite Ascii.eqb_refl in E, Hp.
          apply prefix_escape in E; [| reflexivity].
          rewrite E in Hp. discriminate. }
        unfold R at 1. unfold placeholder.
        rewrite (replace_miss _ _ _ _ _ Hp'). fold placeholder. fold R.
        change (String "$" (R (json.escape s)) ++ String json.quote rest)%string
          with (json.escape_char "$"
                ++ (R (json.escape s) ++ String json.quote rest))%string.
        rewrite scan_escape_char.
        rewrite (IH (String.length s) Hlt s eq_refl). reflexivity.
      * unfold R at 1. unfold placeholder.
        rewrite (replace_no_head _ _ _ _ _ (escape_char_no_dollar c Hc)).
        fold placeholder. fold R.
        rewrite append_assoc, scan_escape_char.
        rewrite (IH (String.length s) Hlt s eq_refl). reflexivity.
Qed.

End literal.

(* ================================================================== *)
(** ** Numbers                                                         *)
(* ================================================================== *)

Lemma lex_digits_of_uint (d : Decimal.uint) (rest : string) :
  head_not_digit rest = true ->
  json.lex_digits (DecimalString.NilEmpty.string_of_uint d ++ rest) = (d, rest).
Proof.
  intros H. induction d as [| d IH | d IH | d IH | d IH | d IH | d IH
                            | d IH | d IH | d IH | d IH];
    try (cbn [DecimalString.NilEmpty.string_of_uint append json.lex_digits
              json.digit_of]; rewrite IH; reflexivity).
  destruct rest as [| c r]; [reflexivity |].
  cbn [DecimalString.NilEmpty.string_of_uint append]. simpl in H.
  unfold json.is_digit in H. simpl.
  destruct (json.digit_of c); [discriminate | reflexivity].
Qed.

(** The decimal digits of a positive number do not start with a zero. *)
Lemma to_uint_head (p : positive) :
  Pos.to_uint p <> Decimal.Nil /\ forall d, Pos.to_uint p <> Decimal.D0 d.
Proof.
  split; [apply DecimalPos.Unsigned.to_uint_nonnil |].
  intros d Hd.
  assert (Hn : Decimal.unorm (Pos.to_uint p) = Pos.to_uint p).
  { rewrite <- DecimalPos.Unsigned.to_of.
    rewrite DecimalPos.Unsigned.of_to. reflexivity. }
  rewrite Hd in Hn. rewrite DecimalFacts.unorm_D0 in Hn.
  assert (Hcase : d = Decimal.Nil \/ d <> Decimal.Nil)
    by (destruct d; [left; reflexivity | right; discriminate ..]).
  destruct Hcase as [-> | Hne].
  - apply (DecimalPos.Unsigned.to_uint_nonzero p). exact Hd.
  - pose proof (DecimalFacts.nb_digits_unorm d Hne) as Hb.
    rewrite Hn in Hb. simpl in Hb. lia.
Qed.

Lemma delimits_head (rest : string) :
  delimits rest = true ->
  head_not_digit rest = true
  /\ json.starts_frac rest = false /\ json.starts_exp rest = false
  /\ json.skip_ws rest = rest.
Proof.
  destruct rest as [| c r]; [intros _; repeat apply conj; reflexivity |].
  unfold delimits. intros H.
  apply orb_true_iff in H. destruct H as [H | H];
    [apply orb_true_iff in H; destruct H as [H | H] |];
    apply Ascii.eqb_eq in H; subst c; repeat apply conj;
    try reflexivity; destruct r; reflexivity.
Qed.

Lemma match_integer_digits (d : Decimal.uint) (rest : string) :
  d <> Decimal.Nil -> (forall d', d <> Decimal.D0 d') ->
  head_not_digit rest = true ->
  json.match_integer (DecimalString.NilEmpty.string_of_uint d ++ rest)
  = Some (d, rest).
Proof.
  intros Hnil Hzero Hrest.
  pose proof (lex_digits_of_uint d rest Hrest) as Hlex.
  destruct d as [| d | d | d | d | d | d | d | d | d | d];
    [contradiction Hnil; reflexivity | contradiction (Hzero d); reflexivity | ..];
    cbn [DecimalString.NilEmpty.string_of_uint append] in Hlex |- *;
    unfold json.match_integer; cbn [Ascii.eqb Bool.eqb json.is_digit json.digit_of];
    rewrite Hlex; reflexivity.
Qed.

Lemma of_uint_to_uint (p : positive) : Z.of_uint (Pos.to_uint p) = Zpos p.
Proof.
  unfold Z.of_uint. rewrite DecimalPos.Unsigned.of_to. reflexivity.
Qed.

(** The decimal text of an integer lexes back to it. *)
Lemma match_number_of_Z (z : Z) (rest : string) :
  delimits rest = true ->
  json.match_number (json.string_of_Z z ++ rest) = Some (ret (VInt z), rest).
Proof.
  intros Hd. destruct (delimits_head rest Hd) as [Hnd [Hf [He _]]].
  destruct z as [| p | p]; unfold json.string_of_Z, Z.to_int.
  - cbn. rewrite Hf, He. reflexivity.
  - destruct (to_uint_head p) as [Hnil Hzero].
    pose proof (match_integer_digits _ rest Hnil Hzero Hnd) as Hm.
    unfold DecimalString.NilZero.string_of_int,
      DecimalString.NilZero.string_of_uint.
    destruct (Pos.to_uint p) as [| d | d | d | d | d | d | d | d | d | d] eqn:Hp;
      [contradiction Hnil; reflexivity | contradiction (Hzero d); reflexivity | ..];
      unfold json.match_number;
      cbn [DecimalString.NilEmpty.string_of_uint append] in Hm |- *;
      rewrite Hm, Hf, He; cbn [orb]; rewrite <- Hp, of_uint_to_uint; reflexivity.
  - destruct (to_uint_head p) as [Hnil Hzero].
    pose proof (match_integer_digits _ rest Hnil Hzero Hnd) as Hm.
    unfold DecimalString.NilZero.string_of_int,
      DecimalString.NilZero.string_of_uint.
    assert (Hs : match Pos.to_uint p with
                 | Decimal.Nil => "0"
                 | _ => DecimalString.NilEmpty.string_of_uint (Pos.to_uint p)
                 end = DecimalString.NilEmpty.string_of_uint (Pos.to_uint p)).
    { destruct (Pos.to_uint p); [contradiction Hnil |..]; reflexivity. }
    rewrite Hs. unfold json.match_number.
    cbn [append]. rewrite Hm, Hf, He. cbn [orb].
    rewrite of_uint_to_uint. reflexivity.
Qed.

(* ================================================================== *)
(** ** The text of a tree                                              *)
(* ================================================================== *)

Lemma forallb_Forall {A : Type} (f : A -> bool) (l : list A) :
  forallb f l = true -> Forall (fun a => f a = true) l.
Proof. intros H. apply Forall_forall. apply forallb_forall. exact H. Qed.

Section text.

Variable enc : string -> string.

Lemma encode_items_render (l : list value) :
  Forall (fun v => json_tree v = true ->
                   json.encode enc v = inr (render enc v)) l ->
  forallb json_tree l = true ->
  json.encode_items (json.encode enc) l = inr (map (render enc) l).
Proof.
  induction 1 as [| v l Hv _ IH]; intros Hj; simpl in *.
  - reflexivity.
  - apply andb_true_iff in Hj. destruct Hj as [Hjv Hjl].
    rewrite (Hv Hjv). simpl. rewrite (IH Hjl). reflexivity.
Qed.

Lemma encode_members_render (d : list (string * value)) :
  Forall (fun kv => json_tree (snd kv) = true ->
                    json.encode enc (snd kv) = inr (render enc (snd kv))) d ->
  forallb (fun kv => json_tree (snd kv)) d = true ->
  json.encode_members enc (json.encode enc) d
  = inr (map (fun kv => (json.literal enc (fst kv) ++ ": "
                         ++ render enc (snd kv))%string) d).
Proof.
  induction 1 as [| [k v] d Hv _ IH]; intros Hj; simpl in *.
  - reflexivity.
  - apply andb_true_iff in Hj. destruct Hj as [Hjv Hjl].
    rewrite (Hv Hjv). simpl. rewrite (IH Hjl). reflexivity.
Qed.

(** On a tree of JSON kinds the encoder does not fail. *)
Lemma encode_render (v : value) :
  json_tree v = true -> json.encode enc v = inr (render enc v).
Proof.
  induction v as [| b | z | s | items IH | pairs IH | p | df | sr]
    using value_ind; intros Hj; try discriminate Hj; try reflexivity.
  - destruct b; reflexivity.
  - cbn [json.encode render]. simpl in Hj.
    rewrite (encode_items_render items IH Hj). reflexivity.
  - cbn [json.encode render]. simpl in Hj.
    rewrite (encode_members_render pairs IH Hj). reflexivity.
Qed.

End text.

Lemma string_of_uint_no_dollar (d : Decimal.uint) :
  has_char "$" (DecimalString.NilEmpty.string_of_uint d) = false.
Proof. induction d; simpl; assumption || reflexivity. Qed.

Lemma string_of_Z_no_dollar (z : Z) : has_char "$" (json.string_of_Z z) = false.
Proof.
  unfold json.string_of_Z, DecimalString.NilZero.string_of_int,
    DecimalString.NilZero.string_of_uint.
  destruct z as [| p | p]; simpl; [reflexivity | |];
    destruct (Pos.to_uint p) eqn:E; try reflexivity;
    rewrite <- E; apply string_of_uint_no_dollar.
Qed.

Lemma string_of_Z_head (z : Z) (rest : string) :
  head_ok (json.string_of_Z z ++ rest) = true.
Proof.
  unfold json.string_of_Z, DecimalString.NilZero.string_of_int,
    DecimalString.NilZero.string_of_uint.
  destruct z as [| p | p]; simpl; [reflexivity | | reflexivity].
  destruct (Pos.to_uint p); reflexivity.
Qed.

Lemma render_head_ok (enc : string -> string) (v : value) (rest : string) :
  json_tree v = true -> head_ok (render enc v ++ rest) = true.
Proof.
  destruct v as [| [|] | z | s | items | pairs | p | df | sr]; intros Hj;
    try discriminate Hj; try reflexivity.
  apply string_of_Z_head.
Qed.

Lemma skip_ws_head_ok (s : string) : head_ok s = true -> json.skip_ws s = s.
Proof.
  destruct s as [| c s]; [reflexivity |]. simpl. intros H.
  apply andb_true_iff in H. destruct H as [H _].
  apply negb_true_iff in H. rewrite H. reflexivity.
Qed.

(* ================================================================== *)
(** ** Substitution in the text                                        *)
(* ================================================================== *)

Section substitution.

Variable folder_name : string.

Let R := replace placeholder folder_name.
Let enc' := fun s => R (json.escape s).

Lemma R_no_dollar (a b : string) :
  has_char "$" a = false -> R (a ++ b) = (a ++ R b)%string.
Proof. intros H. unfold R, placeholder. apply replace_no_head. exact H. Qed.

Lemma R_literal (s rest : string) :
  R (json.literal json.escape s ++ rest)
  = (json.literal enc' s ++ R rest)%string.
Proof.
  unfold json.literal, enc'.
  change (String json.quote (json.escape s ++ str1 json.quote) ++ rest)%string
    with (str1 json.quote ++ ((json.escape s ++ str1 json.quote) ++ rest))%string.
  rewrite R_no_dollar by reflexivity.
  rewrite append_assoc.
  change (str1 json.quote ++ rest)%string with (String json.quote rest).
  unfold R at 1, placeholder.
  rewrite replace_across by reflexivity.
  fold placeholder. fold R. simpl. rewrite append_assoc. reflexivity.
Qed.

Lemma R_items (l : list value) (tail : string) :
  Forall (fun v => json_tree v = true ->
                   forall rest, R (render json.escape v ++ rest)
                                = (render enc' v ++ R rest)%string) l ->
  forallb json_tree l = true ->
  R (join_with ", " (map (render json.escape) l) ++ tail)
  = (join_with ", " (map (render enc') l) ++ R tail)%string.
Proof.
  induction 1 as [| v l Hv _ IH]; intros Hj.
  - reflexivity.
  - simpl in Hj. apply andb_true_iff in Hj. destruct Hj as [Hjv Hjl].
    destruct l as [| w l].
    + simpl. apply Hv. exact Hjv.
    + change (join_with ", " (map (render json.escape) (v :: w :: l)))
        with (render json.escape v ++ ", "
              ++ join_with ", " (map (render json.escape) (w :: l)))%string.
      change (join_with ", " (map (render enc') (v :: w :: l)))
        with (render enc' v ++ ", "
              ++ join_with ", " (map (render enc') (w :: l)))%string.
      rewrite !append_assoc. rewrite (Hv Hjv).
      rewrite R_no_dollar by reflexivity.
      rewrite (IH Hjl). reflexivity.
Qed.

Lemma R_members (d : list (string * value)) (tail : string) :
  Forall (fun kv => json_tree (snd kv) = true ->
                    forall rest, R (render json.escape (snd kv) ++ rest)
                                 = (render enc' (snd kv) ++ R rest)%string) d ->
  forallb (fun kv => json_tree (snd kv)) d = true ->
  R (join_with ", "
       (map (fun kv => (json.literal json.escape (fst kv) ++ ": "
                        ++ render json.escape (snd kv))%string) d) ++ tail)
  = (join_with ", "
       (map (fun kv => (json.literal enc' (fst kv) ++ ": "
                        ++ render enc' (snd kv))%string) d) ++ R tail)%string.
Proof.
  induction 1 as [| [k v] d Hv _ IH]; intros Hj.
  - reflexivity.
  - simpl in Hj. apply andb_true_iff in Hj. destruct Hj as [Hjv Hjl].
    cbn [fst snd] in Hv.
    destruct d as [| w d].
    + cbn [map join_with fst snd]. rewrite !append_assoc.
      rewrite R_literal, R_no_dollar by reflexivity.
      rewrite (Hv Hjv). reflexivity.
    + cbn [map fst snd].
      match goal with
      | |- R (join_with ", " (?a :: ?b :: ?m) ++ tail) = _ =>
          change (join_with ", " (a :: b :: m))
            with (a ++ ", " ++ join_with ", " (b :: m))%string
      end.
      match goal with
      | |- _ = (join_with ", " (?a :: ?b :: ?m) ++ R tail)%string =>
          change (join_with ", " (a :: b :: m))
            with (a ++ ", " ++ join_with ", " (b :: m))%string
      end.
      rewrite !append_assoc.
      rewrite R_literal, R_no_dollar by reflexivity.
      rewrite (Hv Hjv), R_no_dollar by reflexivity.
      cbn [map fst snd] in IH. rewrite (IH Hjl). reflexivity.
Qed.

(** Replacing in the text of a tree replaces in the bodies of its string
    literals and nowhere else. *)
Lemma R_render (v : value) :
  json_tree v = true ->
  forall rest, R (render json.escape v ++ rest)
               = (render enc' v ++ R rest)%string.
Proof.
  induction v as [| b | z | s | items IH | pairs IH | p | df | sr]
    using value_ind; intros Hj rest; try discriminate Hj.
  - apply R_no_dollar. reflexivity.
  - destruct b; apply R_no_dollar; reflexivity.
  - apply R_no_dollar. apply string_of_Z_no_dollar.
  - apply R_literal.
  - cbn [render]. simpl in Hj. rewrite !append_assoc.
    rewrite R_no_dollar by reflexivity.
    rewrite (R_items items _ IH Hj).
    rewrite R_no_dollar by reflexivity. reflexivity.
  - cbn [render]. simpl in Hj. rewrite !append_assoc.
    rewrite R_no_dollar by reflexivity.
    rewrite (R_members pairs _ IH Hj).
    rewrite R_no_dollar by reflexivity. reflexivity.
Qed.

End substitution.

(* ================================================================== *)
(** ** Decoding the text of a tree                                     *)
(* ================================================================== *)

Lemma scan_once_literal (f : nat) (s : string) :
  json.scan_once (S f) (String json.quote s)
  = (p <- json.scanstring s ;; ret (VStr (fst p), snd p)).
Proof. reflexivity. Qed.

Lemma scan_once_array (f : nat) (s : string) :
  head_ok s = true ->
  json.scan_once (S f) (String "[" s)
  = (p <- json.array_items f s ;; ret (VList (fst p), snd p)).
Proof.
  intros H. cbn [json.scan_once]. cbn.
  rewrite (skip_ws_head_ok s H).
  destruct s as [| c r]; [discriminate |].
  simpl in H. apply andb_true_iff in H. destruct H as [_ H].
  apply negb_true_iff in H. rewrite H. reflexivity.
Qed.

Lemma scan_once_object (f : nat) (s : string) :
  json.scan_once (S f) (String "{" (String json.quote s))
  = (p <- json.object_members f s ;;
     ret (VDict (dict_of_pairs (fst p)), snd p)).
Proof. reflexivity. Qed.

Lemma array_items_step (f : nat) (s : string) :
  json.array_items (S f) s
  = (p <- json.scan_once f s ;;
     match json.skip_ws (snd p) with
     | String c r =>
         if Ascii.eqb c "]" then ret ([fst p], r)
         else if Ascii.eqb c "," then
           q <- json.array_items f (json.skip_ws r) ;;
           ret (fst p :: fst q, snd q)
         else raise JSONDecodeError
     | EmptyString => raise JSONDecodeError
     end).
Proof. reflexivity. Qed.

Lemma object_members_step (f : nat) (s : string) :
  json.object_members (S f) s
  = (k <- json.scanstring s ;;
     match json.skip_ws (snd k) with
     | String c r =>
         if Ascii.eqb c ":" then
           p <- json.scan_once f (json.skip_ws r) ;;
           match json.skip_ws (snd p) with
           | String c1 r1 =>
               if Ascii.eqb c1 "}" then ret ([(fst k, fst p)], r1)
               else if Ascii.eqb c1 "," then
                 match json.skip_ws r1 with
                 | String c2 r2 =>
                     if Ascii.eqb c2 json.quote then
                       q <- json.object_members f r2 ;;
                       ret ((fst k, fst p) :: fst q, snd q)
                     else raise JSONDecodeError
                 | EmptyString => raise JSONDecodeError
                 end
               else raise JSONDecodeError
           | EmptyString => raise JSONDecodeError
           end
         else raise JSONDecodeError
     | EmptyString => raise JSONDecodeError
     end).
Proof. reflexivity. Qed.

(** A text that lexes as a number scans as that number. *)
Lemma scan_once_number (f : nat) (s r : string) (v : value) :
  json.match_number s = Some (inr v, r) -> json.scan_once (S f) s = inr (v, r).
Proof.
  destruct s as [| c s]; [discriminate |].
  each_char c; intros H; try discriminate H;
    cbn [json.scan_once]; cbn -[json.match_number];
    rewrite H; reflexivity.
Qed.

Lemma array_items_last (f : nat) (s r : string) (x : value) :
  json.scan_once f s = inr (x, String "]" r) ->
  json.array_items (S f) s = inr ([x], r).
Proof. intros H. rewrite array_items_step, H. reflexivity. Qed.

Lemma array_items_next (f : nat) (s t : string) (x : value) :
  json.scan_once f s = inr (x, String "," (String " " t)) ->
  head_ok t = true ->
  json.array_items (S f) s
  = (q <- json.array_items f t ;; ret (x :: fst q, snd q)).
Proof.
  intros H Ht. rewrite array_items_step, H.
  transitivity (q <- json.array_items f (json.skip_ws t) ;;
                ret (x :: fst q, snd q)); [reflexivity |].
  rewrite (skip_ws_head_ok t Ht). reflexivity.
Qed.

Lemma object_members_colon (f : nat) (s t k : string) :
  json.scanstring s = inr (k, String ":" (String " " t)) ->
  json.object_members (S f) s = after_colon f k (String " " t).
Proof. intros Hk. rewrite object_members_step, Hk. reflexivity. Qed.

Lemma object_members_last (f : nat) (s t r k : string) (x : value) :
  json.scanstring s = inr (k, String ":" (String " " t)) ->
  head_ok t = true ->
  json.scan_once f t = inr (x, String "}" r) ->
  json.object_members (S f) s = inr ([(k, x)], r).
Proof.
  intros Hk Ht Hx. rewrite (object_members_colon f s t k Hk).
  unfold after_colon.
  change (json.skip_ws (String " " t)) with (json.skip_ws t).
  rewrite (skip_ws_head_ok t Ht), Hx. reflexivity.
Qed.

Lemma object_members_next (f : nat) (s t u k : string) (x : value) :
  json.scanstring s = inr (k, String ":" (String " " t)) ->
  head_ok t = true ->
  json.scan_once f t
  = inr (x, String "," (String " " (String json.quote u))) ->
  json.object_members (S f) s
  = (q <- json.object_members f u ;; ret ((k, x) :: fst q, snd q)).
Proof.
  intros Hk Ht Hx. rewrite (object_members_colon f s t k Hk).
  unfold after_colon.
  change (json.skip_ws (String " " t)) with (json.skip_ws t).
  rewrite (skip_ws_head_ok t Ht), Hx. reflexivity.
Qed.

Ltac lengths H :=
  repeat first [ rewrite length_append in H
               | progress (cbn [String.length str1 append] in H) ].

Section decode.

Variables enc dec : string -> string.

(** The decoder reads the body [enc s] of a literal as [dec s]. *)
Hypothesis Henc : forall s rest,
    json.scanstring (enc s ++ String json.quote rest) = inr (dec s, rest).

(** What scanning the text of [v] gives. *)
Let scans (v : value) : Prop :=
  json_tree v = true ->
  forall fuel rest,
    String.length (render enc v) < fuel -> delimits rest = true ->
    json.scan_once fuel (render enc v ++ rest)
    = inr (map_strings dec v, rest).

Let member (kv : string * value) : string :=
  (json.literal enc (fst kv) ++ ": " ++ render enc (snd kv))%string.

Lemma head_ok_items (l : list value) (tail : string) :
  l <> [] -> forallb json_tree l = true ->
  head_ok (join_with ", " (map (render enc) l) ++ tail) = true.
Proof.
  destruct l as [| v [| w l]]; intros Hne Hj; [contradiction Hne; reflexivity | |];
    simpl in Hj; apply andb_true_iff in Hj; destruct Hj as [Hv _].
  - simpl. apply render_head_ok. exact Hv.
  - change (join_with ", " (map (render enc) (v :: w :: l)))
      with (render enc v ++ ", " ++ join_with ", " (map (render enc) (w :: l)))%string.
    rewrite append_assoc. apply render_head_ok. exact Hv.
Qed.

Lemma array_items_render (l : list value) :
  Forall scans l -> forallb json_tree l = true -> l <> [] ->
  forall fuel rest,
    S (String.length (join_with ", " (map (render enc) l))) < fuel ->
    json.array_items fuel
      (join_with ", " (map (render enc) l) ++ String "]" rest)
    = inr (map (map_strings dec) l, rest).
Proof.
  induction 1 as [| v l Hv _ IH]; intros Hj Hne fuel rest Hf;
    [contradiction Hne; reflexivity |].
  simpl in Hj. apply andb_true_iff in Hj. destruct Hj as [Hjv Hjl].
  destruct fuel as [| f]; [lia |].
  destruct l as [| w l].
  - cbn [map join_with] in Hf |- *.
    apply array_items_last. apply (Hv Hjv); [lia | reflexivity].
  - change (join_with ", " (map (render enc) (v :: w :: l)))
      with (render enc v ++ ", "
            ++ join_with ", " (map (render enc) (w :: l)))%string in Hf |- *.
    lengths Hf.
    rewrite !append_assoc.
    rewrite (array_items_next f _
               (join_with ", " (map (render enc) (w :: l)) ++ String "]" rest)
               (map_strings dec v)).
    + rewrite (IH Hjl ltac:(discriminate) f rest) by lia. reflexivity.
    + apply (Hv Hjv); [lia | reflexivity].
    + apply head_ok_items; [discriminate | exact Hjl].
Qed.

Lemma members_head (kv : string * value) (d : list (string * value)) :
  exists t, join_with ", " (map member (kv :: d)) = String json.quote t.
Proof.
  destruct d as [| w d].
  - simpl. unfold member, json.literal. simpl. eexists. reflexivity.
  - change (join_with ", " (map member (kv :: w :: d)))
      with (member kv ++ ", " ++ join_with ", " (map member (w :: d)))%string.
    unfold member at 1, json.literal. simpl. eexists. reflexivity.
Qed.

Lemma object_members_render (d : list (string * value)) :
  Forall (fun kv => scans (snd kv)) d ->
  forallb (fun kv => json_tree (snd kv)) d = true ->
  forall fuel rest t,
    join_with ", " (map member d) = String json.quote t ->
    String.length t < fuel ->
    json.object_members fuel (t ++ String "}" rest)
    = inr (map (fun kv => (dec (fst kv), map_strings dec (snd kv))) d, rest).
Proof.
  induction 1 as [| [k v] d Hv _ IH]; intros Hj fuel rest t Ht Hf;
    [discriminate Ht |].
  simpl in Hj. apply andb_true_iff in Hj. destruct Hj as [Hjv Hjl].
  cbn [snd] in Hv.
  destruct fuel as [| f]; [lia |].
  destruct d as [| w d].
  - cbn [map join_with] in Ht. unfold member, json.literal in Ht.
    cbn [fst snd append] in Ht. injection Ht as <-.
    lengths Hf.
    repeat first [ rewrite append_assoc | progress cbn [str1 append] ].
    apply (object_members_last f _ (render enc v ++ String "}" rest) rest
                               (dec k) (map_strings dec v)).
    + apply Henc.
    + apply render_head_ok. exact Hjv.
    + apply (Hv Hjv); [lia | reflexivity].
  - change (join_with ", " (map member ((k, v) :: w :: d)))
      with (member (k, v) ++ ", " ++ join_with ", " (map member (w :: d)))%string
      in Ht.
    destruct (members_head w d) as [u Hu]. rewrite Hu in Ht.
    unfold member, json.literal in Ht. cbn [fst snd append] in Ht.
    injection Ht as <-.
    lengths Hf.
    repeat first [ rewrite append_assoc | progress cbn [str1 append] ].
    rewrite (object_members_next f _
               (render enc v
                ++ String "," (String " " (String json.quote
                                             (u ++ String "}" rest))))
               (u ++ String "}" rest) (dec k) (map_strings dec v)).
    + rewrite (IH Hjl f rest u Hu) by lia. reflexivity.
    + apply Henc.
    + apply render_head_ok. exact Hjv.
    + apply (Hv Hjv); [lia | reflexivity].
Qed.

(** Scanning the text of a tree gives the tree, with every string
    decoded. *)
Lemma scan_render (v : value) : scans v.
Proof.
  induction v as [| b | z | s | items IH | pairs IH | p | df | sr]
    using value_ind; intros Hj fuel rest Hf Hd; try discriminate Hj;
    (destruct fuel as [| f]; [lia |]).
  - reflexivity.
  - destruct b; reflexivity.
  - apply scan_once_number. cbn [render map_strings].
    apply match_number_of_Z. exact Hd.
  - cbn [render map_strings]. unfold json.literal.
    cbn [append]. rewrite scan_once_literal.
    rewrite append_assoc. cbn [str1 append]. rewrite Henc. reflexivity.
  - cbn [render map_strings] in Hf |- *. simpl in Hj.
    destruct items as [| x items].
    + reflexivity.
    + rewrite !append_assoc. cbn [append].
      lengths Hf.
      rewrite scan_once_array
        by (apply head_ok_items; [discriminate | exact Hj]).
      rewrite (array_items_render (x :: items) IH Hj ltac:(discriminate))
        by lia.
      reflexivity.
  - cbn [render map_strings] in Hf |- *. simpl in Hj.
    destruct pairs as [| kv pairs].
    + reflexivity.
    + fold member in Hf |- *.
      destruct (members_head kv pairs) as [t Ht].
      rewrite Ht in Hf |- *.
      rewrite !append_assoc. cbn [append].
      lengths Hf.
      rewrite scan_once_object.
      rewrite (object_members_render (kv :: pairs) IH Hj f rest t Ht) by lia.
      reflexivity.
Qed.

(** [loads] of the text of a tree. *)
Lemma loads_render (v : value) :
  json_tree v = true -> json.loads (render enc v) = inr (map_strings dec v).
Proof.
  intros Hj. unfold json.loads.
  pose proof (render_head_ok enc v EmptyString Hj) as Hh.
  rewrite append_nil_r in Hh. rewrite (skip_ws_head_ok _ Hh).
  pose proof (scan_render v Hj (S (String.length (render enc v)))
                          EmptyString (Nat.lt_succ_diag_r _) eq_refl) as Hs.
  rewrite append_nil_r in Hs. rewrite Hs. reflexivity.
Qed.

End decode.

(* ================================================================== *)
(** ** Trees that pass through the traversal                           *)
(* ================================================================== *)

Lemma mapM_id {A : Type} (f : A -> result A) (l : list A) :
  (forall a, In a l -> f a = inr a) -> mapM f l = inr l.
Proof.
  intros H. rewrite (mapM_ok f (fun a => a) l H). rewrite map_id. reflexivity.
Qed.

(** A tree without [first_path_exists] and [load_contents] nodes comes
    back from the traversal as it went in. *)
Lemma load_layout_files_passive (fs : FileSystem) (sample_name : string)
      (results_folder : option Path) (v : value) :
  passive v = true ->
  load_layout_files fs sample_name results_folder v = inr v.
Proof.
  induction v as [| b | z | s | items IH | pairs IH | p | df | sr]
    using value_ind; intros Hp; try discriminate Hp.
  - cbn [load_layout_files]. simpl in Hp.
    rewrite mapM_id; [reflexivity |].
    intros a Ha. rewrite Forall_forall in IH. apply (IH a Ha).
    rewrite forallb_forall in Hp. apply Hp. exact Ha.
  - cbn [load_layout_files]. simpl in Hp.
    apply andb_true_iff in Hp. destruct Hp as [Hp Hall].
    apply andb_true_iff in Hp. destruct Hp as [Hfpe Hlc].
    unfold dict_mem in Hfpe.
    destruct (dict_lookup "first_path_exists" pairs); [discriminate |].
    unfold load_contents_off in Hlc.
    assert (Hflag : truthy (match dict_lookup "load_contents" pairs with
                            | Some x => x
                            | None => VBool false
                            end) = inr false).
    { destruct (dict_lookup "load_contents" pairs) as [x |]; [| reflexivity].
      destruct (truthy x) as [e | [|]]; try discriminate. reflexivity. }
    rewrite Hflag. cbn [bind negb].
    rewrite mapM_id; [reflexivity |].
    intros [k x] Hin. rewrite Forall_forall in IH.
    rewrite forallb_forall in Hall. specialize (Hall (k, x) Hin).
    cbn [snd] in Hall.
    destruct (is_container x) eqn:Hc; cbn [negb] in *.
    + pose proof (IH (k, x) Hin Hall) as Hx. cbn [snd] in Hx.
      rewrite Hx. reflexivity.
    + reflexivity.
Qed.

(* ================================================================== *)
(** ** Resolution of a layout without file-backed nodes                *)
(* ================================================================== *)

(** C6, as stated, fails: a mapping value that is a sequence of strings,
    such as the choices of a dropdown, makes the traversal raise
    [TypeError], although the layout has no [first_path_exists] and no
    [load_contents] node. *)
Lemma sequence_of_scalars_is_rejected :
  ~ (forall (fs : FileSystem) (cfg : GradioConfig) (folder_name : string),
        json_tree (layout cfg) = true ->
        plain_nodes (layout cfg) = true ->
        is_container (layout cfg) = true ->
        prepare_layout_components fs cfg folder_name
        = inr (subst_tree folder_name (layout cfg))).
Proof.
  intros H.
  specialize (H empty_fs dropdown_config "s1" eq_refl eq_refl eq_refl).
  vm_compute in H. discriminate H.
Qed.

(** C6 (amended): for every layout tree of JSON kinds and every folder
    name made of plain characters (printable ASCII without the quote and
    the backslash), if the tree after substitution has no
    [first_path_exists] key and no true [load_contents], and every element
    of its sequences is a sequence or a mapping, then
    [prepare_layout_components] returns the tree with the placeholder
    replaced in every string, keys included, and changes nothing else. *)
Theorem resolve_is_substitution
        (fs : FileSystem) (cfg : GradioConfig) (folder_name : string) :
  json_tree (layout cfg) = true ->
  safe_name folder_name = true ->
  passive (subst_tree folder_name (layout cfg)) = true ->
  prepare_layout_components fs cfg folder_name
  = inr (subst_tree folder_name (layout cfg)).
Proof.
  intros Hj Hs Hp. unfold prepare_layout_components, json.dumps.
  rewrite (encode_render json.escape (layout cfg) Hj). cbn [bind].
  pose proof (R_render folder_name (layout cfg) Hj EmptyString) as Hr.
  rewrite append_nil_r in Hr. rewrite Hr.
  change (replace placeholder folder_name EmptyString) with EmptyString.
  rewrite append_nil_r.
  rewrite (loads_render
             (fun s => replace placeholder folder_name (json.escape s))
             (replace placeholder folder_name)
             (scan_replaced_literal folder_name Hs) (layout cfg) Hj).
  cbn [bind]. apply load_layout_files_passive. exact Hp.
Qed.

Lemma resolve_is_substitution_witness :
  prepare_layout_components empty_fs title_config "s1"
  = inr (VList [VDict [("type", VStr "Markdown");
                       ("value", VStr "# s1");
                       ("visible", VBool true)]]).
Proof.
  apply (resolve_is_substitution empty_fs title_config "s1");
    reflexivity.
Defined.

(** The folder name is spliced into the serialised text as it is. A name
    with a double quote ends the string literal it lands in, and the text
    no longer decodes. *)
Example quote_in_name_breaks_the_document :
  prepare_layout_components empty_fs title_config
                            (String (ascii_of_nat 34) "x")
  = inl JSONDecodeError.
Proof. vm_compute. reflexivity. Qed.

(** A name with a backslash is read as an escape: the characters [\t]
    in the name come back as one tabulation. *)
Example backslash_in_name_is_an_escape :
  prepare_layout_components empty_fs title_config
                            (String (ascii_of_nat 92) "t")
  = inr (VList [VDict [("type", VStr "Markdown");
                       ("value", VStr (String "#" (String " "
                                        (String (ascii_of_nat 9) EmptyString))));
                       ("visible", VBool true)]]).
Proof. vm_compute. reflexivity. Qed.

(* ================================================================== *)
(** ** Further properties: the path resolver                           *)
(* ================================================================== *)

(** X1: the resolver returns the full path of the first candidate that
    exists: when every candidate before [c] is a string or a path whose
    full path does not exist and the full path of [c] exists, the result
    is that full path, whatever comes after [c]. *)
Theorem first_existing_candidate_wins
        (fs : FileSystem) (base : Path) (pre post : list value)
        (c : value) (p : Path) :
  Forall (fun v => pathlike v = true) pre ->
  none_exists fs base pre ->
  to_Path c = inr p ->
  path_exists fs (probed base p) = inr true ->
  get_first_path_exists fs (VList (pre ++ c :: post)) base
  = inr (VPath (probed base p)).
Proof.
  intros Hl Hn Hc He. rewrite get_first_path_exists_list.
  assert (Hf : first_existing fs (pre ++ c :: post) base
               = inr (Some (probed base p))).
  { induction pre as [| v pre IH]; simpl.
    - rewrite Hc. simpl. unfold probed in He. rewrite He. reflexivity.
    - inversion Hl as [| ? ? Hv Hl']; subst.
      destruct (pathlike_to_Path v Hv) as [q [Hq _]].
      rewrite Hq. simpl.
      pose proof (Hn v q (or_introl eq_refl) Hq) as Hq'.
      unfold probed in Hq'. rewrite Hq'. simpl.
      apply IH; [exact Hl' |].
      intros v' p' Hin. apply Hn. right. exact Hin. }
  rewrite Hf. reflexivity.
Qed.

Lemma first_existing_candidate_wins_witness :
  get_first_path_exists table_fs
    (VList [VStr "a.csv"; VStr "table.csv"; VInt 5]) (of_str "/r/s")
  = inr (VPath (of_str "/r/s/table.csv")).
Proof.
  apply (first_existing_candidate_wins table_fs (of_str "/r/s")
           [VStr "a.csv"] [VInt 5] (VStr "table.csv") (of_str "table.csv")).
  - repeat constructor.
  - intros v p [<- | []] H. injection H as <-. reflexivity.
  - reflexivity.
  - reflexivity.
Defined.

(** X2: candidates that are absolute paths are probed as they are: the
    result does not depend on the sample folder. *)
Theorem absolute_candidates_ignore_folder
        (fs : FileSystem) (l : list value) (base1 base2 : Path) :
  Forall (fun v => exists p, to_Path v = inr p /\ is_absolute p = true) l ->
  get_first_path_exists fs (VList l) base1
  = get_first_path_exists fs (VList l) base2.
Proof.
  intros Hl. rewrite !get_first_path_exists_list.
  assert (Hf : first_existing fs l base1 = first_existing fs l base2).
  { induction Hl as [| v l [p [Hp Ha]] _ IH]; simpl.
    - reflexivity.
    - rewrite Hp. simpl. rewrite Ha. simpl.
      destruct (path_exists fs p) as [e | [|]]; simpl;
        [reflexivity | reflexivity | exact IH]. }
  rewrite Hf. reflexivity.
Qed.

Lemma absolute_candidates_ignore_folder_witness :
  get_first_path_exists table_fs
    (VList [VStr "/x/a.csv"; VStr "/r/s/table.csv"]) (of_str "/r/s")
  = get_first_path_exists table_fs
      (VList [VStr "/x/a.csv"; VStr "/r/s/table.csv"]) (of_str "/other").
Proof.
  apply (absolute_candidates_ignore_folder table_fs
           [VStr "/x/a.csv"; VStr "/r/s/table.csv"]
           (of_str "/r/s") (of_str "/other")).
  repeat constructor; eexists; split; reflexivity.
Defined.

(* ================================================================== *)
(** ** Further properties: the value of a component                    *)
(* ================================================================== *)

(** X3: a value that is no string and no path, a value whose text holds
    [://], and an absolute path are handed on as they are, without a look
    at the file system; so is every value when there is no sample
    folder. *)
Theorem urls_and_absolute_values_are_kept
        (fs : FileSystem) (v : value) (sample_folder : option Path) :
  sample_folder = None
  \/ pathlike v = false
  \/ contains "://" (path_text v) = true
  \/ (exists p, to_Path v = inr p /\ is_absolute p = true) ->
  resolve_relative_path fs v sample_folder = inr v.
Proof.
  intros H. unfold resolve_relative_path.
  destruct sample_folder as [folder |]; [| reflexivity].
  destruct H as [H | [H | [H | [p [Hp Ha]]]]].
  - discriminate H.
  - destruct v; try reflexivity; discriminate H.
  - destruct v; try reflexivity; rewrite H; reflexivity.
  - destruct v; try reflexivity;
      destruct (contains "://" _); try reflexivity;
      rewrite Hp; simpl; rewrite Ha; reflexivity.
Qed.

Lemma urls_and_absolute_values_are_kept_witness :
  resolve_relative_path empty_fs (VStr "https://host/a.png")
                        (Some (of_str "/r/s"))
  = inr (VStr "https://host/a.png").
Proof.
  apply (urls_and_absolute_values_are_kept empty_fs
           (VStr "https://host/a.png") (Some (of_str "/r/s"))).
  right. right. left. reflexivity.
Defined.

(** X4: whatever [_resolve_relative_path] returns is the value it was
    given, or the path of that value under the sample folder, and then
    this path exists. *)
Theorem resolved_value_is_given_or_exists
        (fs : FileSystem) (v : value) (sample_folder : option Path)
        (r : value) :
  resolve_relative_path fs v sample_folder = inr r ->
  r = v
  \/ exists folder p,
      sample_folder = Some folder /\ to_Path v = inr p
      /\ is_absolute p = false
      /\ r = VPath (joinpath folder p)
      /\ path_exists fs (joinpath folder p) = inr true.
Proof.
  unfold resolve_relative_path. intros H.
  destruct sample_folder as [folder |];
    [| injection H as <-; left; reflexivity].
  destruct v; try (injection H as <-; left; reflexivity);
    destruct (contains "://" _);
    try (injection H as <-; left; reflexivity);
    cbn [to_Path bind ret] in H;
    match type of H with
    | context [is_absolute ?q] =>
        destruct (is_absolute q) eqn:Ha;
        [injection H as <-; left; reflexivity |];
        destruct (path_exists fs (joinpath folder q)) as [e | [|]] eqn:He;
        cbn [bind ret] in H;
        [discriminate H
        | injection H as <-; right; exists folder, q;
          repeat split; try reflexivity; assumption
        | injection H as <-; left; reflexivity]
    end.
Qed.

Lemma resolved_value_is_given_or_exists_witness :
  VPath (of_str "/r/s/table.csv") = VStr "table.csv"
  \/ exists folder p,
      Some (of_str "/r/s") = Some folder
      /\ to_Path (VStr "table.csv") = inr p
      /\ is_absolute p = false
      /\ VPath (of_str "/r/s/table.csv") = VPath (joinpath folder p)
      /\ path_exists table_fs (joinpath folder p) = inr true.
Proof.
  apply (resolved_value_is_given_or_exists table_fs (VStr "table.csv")
           (Some (of_str "/r/s")) (VPath (of_str "/r/s/table.csv"))).
  reflexivity.
Defined.

(* ================================================================== *)
(** ** Further properties: file-backed nodes of a layout               *)
(* ================================================================== *)

(** A mapping with a true [load_contents] and no [first_path_exists] is
    resolved by loading its file. *)
Lemma file_backed_node (fs : FileSystem) (name : string) (rf : option Path)
      (d : list (string * value)) (x : value) :
  dict_lookup "first_path_exists" d = None ->
  dict_lookup "load_contents" d = Some x -> truthy x = inr true ->
  load_layout_files fs name rf (VDict d) = load_contents fs name rf d.
Proof.
  intros H1 H2 H3. cbn [load_layout_files]. rewrite H1, H2, H3. reflexivity.
Qed.

(** The part of [load_contents] after the file is found. *)
Lemma load_contents_found (fs : FileSystem) (name : string) (rf : Path)
      (d : list (string * value)) (lp : value) (p : Path) :
  dict_lookup "load_path" d = Some lp -> to_Path lp = inr p ->
  path_exists fs (probed (div rf name) p) = inr true ->
  load_contents fs name (Some rf) d
  = (file_contents <- load_file fs (probed (div rf name) p) ;;
     none <- no_indices (match dict_lookup "indices" d with
                         | Some i => i
                         | None => VNone
                         end) ;;
     if none then ret file_contents
     else
       match file_contents with
       | VDict [] => ret VNone
       | VDict (_ :: _) =>
           keys <- py_iter (match dict_lookup "indices" d with
                            | Some i => i
                            | None => VNone
                            end) ;;
           get_chain file_contents keys
       | VFrame df =>
           if df_empty df then ret VNone
           else keys <- py_iter (match dict_lookup "indices" d with
                                 | Some i => i
                                 | None => VNone
                                 end) ;;
                loc_chain file_contents keys
       | _ => raise TypeError
       end).
Proof.
  intros Hlp Hp He. unfold load_contents. rewrite Hlp, Hp.
  cbn [bind]. unfold probed in He |- *. unfold sample_folder.
  destruct (negb (is_absolute p)); cbn [bind ret]; rewrite He;
    cbn [bind negb];
    destruct (load_file fs _) as [e | content]; cbn [bind];
    try reflexivity;
    destruct (no_indices _) as [e | [|]]; cbn [bind]; try reflexivity;
    destruct content as [| | | | | [| kv d0] | | df |]; reflexivity.
Qed.

(** X5: a node that asks for file contents and names no [load_path]
    raises [ValueError], on every file system and for every sample. *)
Theorem file_backed_node_needs_load_path
        (fs : FileSystem) (name : string) (rf : option Path)
        (d : list (string * value)) (x : value) :
  dict_lookup "first_path_exists" d = None ->
  dict_lookup "load_contents" d = Some x -> truthy x = inr true ->
  dict_lookup "load_path" d = None ->
  load_layout_files fs name rf (VDict d) = inl ValueError.
Proof.
  intros H1 H2 H3 H4. rewrite (file_backed_node fs name rf d x H1 H2 H3).
  unfold load_contents. rewrite H4. reflexivity.
Qed.

Lemma file_backed_node_needs_load_path_witness :
  load_layout_files empty_fs "s" (Some (of_str "/r"))
    (VDict [("type", VStr "Textbox"); ("load_contents", VBool true)])
  = inl ValueError.
Proof.
  apply (file_backed_node_needs_load_path empty_fs "s" (Some (of_str "/r"))
           [("type", VStr "Textbox"); ("load_contents", VBool true)]
           (VBool true)); reflexivity.
Defined.

(** X6: a node whose file does not exist raises [FileNotFoundError]; a
    relative [load_path] is looked for under the sample folder. *)
Theorem missing_file_raises_FileNotFoundError
        (fs : FileSystem) (name : string) (rf : Path)
        (d : list (string * value)) (x lp : value) (p : Path) :
  dict_lookup "first_path_exists" d = None ->
  dict_lookup "load_contents" d = Some x -> truthy x = inr true ->
  dict_lookup "load_path" d = Some lp -> to_Path lp = inr p ->
  path_exists fs (probed (div rf name) p) = inr false ->
  load_layout_files fs name (Some rf) (VDict d) = inl FileNotFoundError.
Proof.
  intros H1 H2 H3 Hlp Hp He.
  rewrite (file_backed_node fs name (Some rf) d x H1 H2 H3).
  unfold load_contents. rewrite Hlp, Hp. cbn [bind].
  unfold probed in He. unfold sample_folder.
  destruct (negb (is_absolute p)); cbn [bind ret]; rewrite He; reflexivity.
Qed.

Lemma missing_file_raises_FileNotFoundError_witness :
  load_layout_files notes_fs "s" (Some (of_str "/r"))
                    (VDict (file_node "other.txt" []))
  = inl FileNotFoundError.
Proof.
  apply (missing_file_raises_FileNotFoundError notes_fs "s" (of_str "/r")
           (file_node "other.txt" []) (VBool true) (VStr "other.txt")
           (of_str "other.txt")); reflexivity.
Defined.

(** X8: [indices] that are given select from a mapping or a table only:
    on any other file contents, such as the text of a [.txt] file, the
    node raises [TypeError]. *)
Theorem indices_into_text_raise_TypeError
        (fs : FileSystem) (name : string) (rf : Path)
        (d : list (string * value)) (x lp : value) (p : Path)
        (content i : value) :
  dict_lookup "first_path_exists" d = None ->
  dict_lookup "load_contents" d = Some x -> truthy x = inr true ->
  dict_lookup "load_path" d = Some lp -> to_Path lp = inr p ->
  path_exists fs (probed (div rf name) p) = inr true ->
  load_file fs (probed (div rf name) p) = inr content ->
  indexable content = false ->
  dict_lookup "indices" d = Some i -> no_indices i = inr false ->
  load_layout_files fs name (Some rf) (VDict d) = inl TypeError.
Proof.
  intros H1 H2 H3 Hlp Hp He Hf Hc Hi Hn.
  rewrite (file_backed_node fs name (Some rf) d x H1 H2 H3).
  rewrite (load_contents_found fs name rf d lp p Hlp Hp He).
  rewrite Hf, Hi, Hn. cbn [bind].
  destruct content; try reflexivity; discriminate Hc.
Qed.

Lemma indices_into_text_raise_TypeError_witness :
  load_layout_files notes_fs "s" (Some (of_str "/r"))
    (VDict (file_node "notes.txt" [("indices", VList [VStr "a"])]))
  = inl TypeError.
Proof.
  apply (indices_into_text_raise_TypeError notes_fs "s" (of_str "/r")
           (file_node "notes.txt" [("indices", VList [VStr "a"])])
           (VBool true) (VStr "notes.txt") (of_str "notes.txt")
           (VStr "hello") (VList [VStr "a"]));
    reflexivity.
Defined.

(* ================================================================== *)
(** ** Further properties: plain nodes of a layout                     *)
(* ================================================================== *)

Section plain_node.

Variable fs : FileSystem.
Variable name : string.
Variable rf : option Path.

Let step (kv : string * value) : result (string * value) :=
  let (k, v) := kv in
  if negb (is_container v) then ret (k, v)
  else x <- load_layout_files fs name rf v ;; ret (k, x).

Lemma step_keeps (d d' : list (string * value)) :
  mapM step d = inr d' ->
  map fst d' = map fst d
  /\ forall k v, In (k, v) d -> is_container v = false -> In (k, v) d'.
Proof.
  revert d'. induction d as [| [k v] d IH]; intros d' H.
  - injection H as <-. split; [reflexivity | intros k v []].
  - cbn [mapM] in H.
    destruct (step (k, v)) as [e | [k1 v1]] eqn:Hs; [discriminate H |].
    cbn [bind] in H.
    destruct (mapM step d) as [e | r] eqn:Hm; [discriminate H |].
    cbn [bind ret] in H. injection H as <-.
    destruct (IH r eq_refl) as [Hk Hv].
    assert (Hk1 : k1 = k
                  /\ (is_container v = false -> v1 = v)).
    { unfold step in Hs. destruct (is_container v); cbn [negb] in Hs.
      - destruct (load_layout_files fs name rf v) as [e | y];
          [discriminate Hs |].
        cbn [bind ret] in Hs. injection Hs as <- <-.
        split; [reflexivity | discriminate].
      - injection Hs as <- <-. split; reflexivity. }
    destruct Hk1 as [-> Hv1]. split.
    + cbn [map fst]. rewrite Hk. reflexivity.
    + intros k' v' [Heq | Hin] Hc.
      * injection Heq as <- <-. left. rewrite (Hv1 Hc). reflexivity.
      * right. apply Hv; assumption.
Qed.

End plain_node.

(** X10: a mapping without [first_path_exists] and without a true
    [load_contents] resolves to a mapping with the same keys in the same
    order, in which every value that is no list and no mapping is the one
    given. *)
Theorem plain_node_keeps_keys_and_scalars
        (fs : FileSystem) (name : string) (rf : option Path)
        (d : list (string * value)) (r : value) :
  dict_lookup "first_path_exists" d = None ->
  load_contents_off d = true ->
  load_layout_files fs name rf (VDict d) = inr r ->
  exists d', r = VDict d'
             /\ map fst d' = map fst d
             /\ forall k v, In (k, v) d -> is_container v = false ->
                            In (k, v) d'.
Proof.
  intros H1 H2 H. cbn [load_layout_files] in H. rewrite H1 in H.
  assert (Hflag : truthy (match dict_lookup "load_contents" d with
                          | Some x => x
                          | None => VBool false
                          end) = inr false).
  { unfold load_contents_off in H2.
    destruct (dict_lookup "load_contents" d) as [x |]; [| reflexivity].
    destruct (truthy x) as [e | [|]]; try discriminate H2. reflexivity. }
  rewrite Hflag in H. cbn [bind negb] in H.
  match type of H with
  | context [mapM ?f d] => destruct (mapM f d) as [e | d'] eqn:Hm
  end; [discriminate H |].
  cbn [bind ret] in H. injection H as <-.
  exists d'. split; [reflexivity |].
  exact (step_keeps fs name rf d d' Hm).
Qed.

Lemma plain_node_keeps_keys_and_scalars_witness :
  exists d', VDict [("type", VStr "Row"); ("components", VList [])] = VDict d'
             /\ map fst d' = ["type"; "components"]
             /\ forall k v,
                 In (k, v) [("type", VStr "Row"); ("components", VList [])] ->
                 is_container v = false -> In (k, v) d'.
Proof.
  apply (plain_node_keeps_keys_and_scalars empty_fs "s" None
           [("type", VStr "Row"); ("components", VList [])]
           (VDict [("type", VStr "Row"); ("components", VList [])]));
    reflexivity.
Defined.

(* ================================================================== *)
(** ** Further properties: the copy of the layout                      *)
(* ================================================================== *)

(** The decoder reads back the body of every string literal of the
    encoder. *)
Lemma scan_escape (s rest : string) :
  json.scanstring (json.escape s ++ String json.quote rest) = inr (s, rest).
Proof.
  induction s as [| c s IH].
  - cbn [json.escape append json.scanstring].
    unfold json.quote. rewrite Ascii.eqb_refl. reflexivity.
  - cbn [json.escape]. rewrite append_assoc, scan_escape_char, IH.
    reflexivity.
Qed.

Lemma dict_set_fresh (k : string) (v : value) (acc : list (string * value)) :
  existsb (String.eqb k) (map fst acc) = false ->
  dict_set k v acc = acc ++ [(k, v)].
Proof.
  induction acc as [| [k' v'] acc IH]; intros H.
  - reflexivity.
  - cbn [map fst existsb] in H. apply orb_false_iff in H.
    destruct H as [Hk Hacc]. cbn [dict_set]. rewrite Hk.
    rewrite (IH Hacc). reflexivity.
Qed.

Lemma existsb_app_false {A : Type} (f : A -> bool) (l m : list A) :
  existsb f l = false -> existsb f m = false -> existsb f (l ++ m) = false.
Proof.
  intros Hl Hm. rewrite existsb_app, Hl, Hm. reflexivity.
Qed.

Lemma dict_from_distinct (d acc : list (string * value)) :
  distinct (map fst d) = true ->
  (forall k, In k (map fst d) -> existsb (String.eqb k) (map fst acc) = false) ->
  fold_left (fun a kv => dict_set (fst kv) (snd kv) a) d acc = acc ++ d.
Proof.
  revert acc. induction d as [| [k v] d IH]; intros acc Hd Hacc.
  - symmetry. apply app_nil_r.
  - cbn [map fst distinct] in Hd. apply andb_true_iff in Hd.
    destruct Hd as [Hk Hd]. apply negb_true_iff in Hk.
    cbn [fold_left fst snd].
    rewrite dict_set_fresh by (apply Hacc; left; reflexivity).
    rewrite IH.
    + rewrite <- app_assoc. reflexivity.
    + exact Hd.
    + intros k' Hin. rewrite map_app. apply existsb_app_false.
      * apply Hacc. right. exact Hin.
      * cbn [map fst existsb]. rewrite orb_false_r.
        destruct (String.eqb k' k) eqn:E; [| reflexivity].
        apply String.eqb_eq in E. subst k'.
        assert (Hex : existsb (String.eqb k) (map fst d) = true).
        { apply existsb_exists. exists k. split;
            [exact Hin | apply String.eqb_refl]. }
        rewrite Hex in Hk. discriminate Hk.
Qed.

Lemma dict_of_distinct_pairs (d : list (string * value)) :
  distinct (map fst d) = true -> dict_of_pairs d = d.
Proof.
  intros Hd. unfold dict_of_pairs.
  rewrite (dict_from_distinct d [] Hd); [reflexivity |].
  intros k _. reflexivity.
Qed.

(** Reading every string as it is gives the tree back. *)
Lemma map_strings_same (v : value) :
  unique_keys v = true -> map_strings (fun s => s) v = v.
Proof.
  induction v as [| b | z | s | items IH | pairs IH | p | df | sr]
    using value_ind; intros Hu; try reflexivity.
  - cbn [map_strings]. f_equal. simpl in Hu.
    induction IH as [| x l Hx _ IHl]; [reflexivity |].
    simpl in Hu. apply andb_true_iff in Hu. destruct Hu as [Hux Hul].
    cbn [map]. rewrite (Hx Hux), (IHl Hul). reflexivity.
  - cbn [map_strings]. simpl in Hu. apply andb_true_iff in Hu.
    destruct Hu as [Hd Hu].
    assert (Hm : map (fun kv : string * value =>
                        (fst kv, map_strings (fun s => s) (snd kv))) pairs
                 = pairs).
    { clear Hd. induction IH as [| [k x] l Hx _ IHl]; [reflexivity |].
      simpl in Hu. apply andb_true_iff in Hu. destruct Hu as [Hux Hul].
      cbn [map fst snd] in *. rewrite (Hx Hux), (IHl Hul). reflexivity. }
    rewrite Hm. rewrite (dict_of_distinct_pairs pairs Hd). reflexivity.
Qed.

(** [json.loads] undoes [json.dumps] on a tree of JSON kinds. *)
Lemma loads_dumps (v : value) :
  json_tree v = true -> unique_keys v = true ->
  (text <- json.dumps v ;; json.loads text) = inr v.
Proof.
  intros Hj Hu. unfold json.dumps.
  rewrite (encode_render json.escape v Hj). cbn [bind].
  rewrite (loads_render json.escape (fun s => s) scan_escape v Hj).
  rewrite (map_strings_same v Hu). reflexivity.
Qed.

Lemma has_char_app (c : ascii) (a b : string) :
  has_char c (a ++ b) = has_char c a || has_char c b.
Proof.
  induction a as [| d a IH]; simpl.
  - reflexivity.
  - rewrite IH. apply orb_assoc.
Qed.

Lemma escape_no_dollar (s : string) :
  has_char "$" s = false -> has_char "$" (json.escape s) = false.
Proof.
  induction s as [| c s IH]; intros H.
  - reflexivity.
  - simpl in H. apply orb_false_iff in H. destruct H as [Hc Hs].
    cbn [json.escape]. rewrite has_char_app.
    rewrite (escape_char_no_dollar c Hc), (IH Hs). reflexivity.
Qed.

Lemma replace_no_dollar (new s : string) :
  has_char "$" s = false -> replace placeholder new s = s.
Proof.
  intros H. rewrite <- (append_nil_r s) at 1.
  unfold placeholder. rewrite (replace_no_head _ new "$" s EmptyString H).
  apply append_nil_r.
Qed.

(** The text of a tree without a dollar sign is the same with and without
    the replacement in its literals. *)
Lemma render_dollar_free (new : string) (v : value) :
  dollar_free v = true ->
  render (fun s => replace placeholder new (json.escape s)) v
  = render json.escape v.
Proof.
  induction v as [| b | z | s | items IH | pairs IH | p | df | sr]
    using value_ind; intros Hd; try reflexivity.
  - cbn [render]. unfold json.literal. cbn beta.
    simpl in Hd. apply negb_true_iff in Hd.
    rewrite (replace_no_dollar new _ (escape_no_dollar s Hd)). reflexivity.
  - cbn [render]. simpl in Hd. do 3 f_equal.
    induction IH as [| x l Hx _ IHl]; [reflexivity |].
    simpl in Hd. apply andb_true_iff in Hd. destruct Hd as [Hdx Hdl].
    cbn [map]. rewrite (Hx Hdx), (IHl Hdl). reflexivity.
  - cbn [render]. simpl in Hd. do 3 f_equal.
    induction IH as [| [k x] l Hx _ IHl]; [reflexivity |].
    simpl in Hd. apply andb_true_iff in Hd. destruct Hd as [Hdx Hdl].
    apply andb_true_iff in Hdx. destruct Hdx as [Hk Hdx].
    apply negb_true_iff in Hk.
    cbn [map fst snd] in *. rewrite (Hx Hdx), (IHl Hdl).
    unfold json.literal. cbn beta.
    rewrite (replace_no_dollar new _ (escape_no_dollar k Hk)). reflexivity.
Qed.

(** X11: a layout that is a sequence or a mapping of JSON kinds, whose
    mappings have keys that differ from each other, in which no string
    holds a dollar sign, no mapping has the key [first_path_exists] or a
    true [load_contents], and every element of a sequence is itself a
    sequence or a mapping (a scalar is the value of a mapping key only),
    comes back from [prepare_layout_components] as it is, for every folder
    name, quotes and backslashes in the name included. *)
Theorem layout_without_placeholder_is_kept
        (fs : FileSystem) (cfg : GradioConfig) (folder_name : string) :
  json_tree (layout cfg) = true ->
  unique_keys (layout cfg) = true ->
  dollar_free (layout cfg) = true ->
  passive (layout cfg) = true ->
  prepare_layout_components fs cfg folder_name = inr (layout cfg).
Proof.
  intros Hj Hu Hd Hp. unfold prepare_layout_components, json.dumps.
  rewrite (encode_render json.escape (layout cfg) Hj). cbn [bind].
  pose proof (R_render folder_name (layout cfg) Hj EmptyString) as Hr.
  rewrite append_nil_r in Hr. rewrite Hr.
  change (replace placeholder folder_name EmptyString) with EmptyString.
  rewrite append_nil_r.
  rewrite (render_dollar_free folder_name (layout cfg) Hd).
  rewrite (loads_render json.escape (fun s => s) scan_escape (layout cfg) Hj).
  rewrite (map_strings_same (layout cfg) Hu). cbn [bind].
  apply load_layout_files_passive. exact Hp.
Qed.

Lemma layout_without_placeholder_is_kept_witness :
  prepare_layout_components empty_fs fixed_config
                            (String (ascii_of_nat 34) "x")
  = inr (layout fixed_config).
Proof.
  apply (layout_without_placeholder_is_kept empty_fs fixed_config
           (String (ascii_of_nat 34) "x"));
    reflexivity.
Defined.

(* ================================================================== *)
(** ** Further properties: paths and their text                        *)
(* ================================================================== *)

Lemma split_on_sep_app (n t : string) :
  no_slash n = true ->
  split_on slash (n ++ String slash t) = n :: split_on slash t.
Proof.
  unfold no_slash. induction n as [| c n IH]; simpl; intros H.
  - reflexivity.
  - apply andb_true_iff in H. destruct H as [Hc Hn].
    apply negb_true_iff in Hc. rewrite Hc. rewrite (IH Hn). reflexivity.
Qed.

Lemma normal_name_no_slash (s : string) :
  normal_name s = true -> no_slash s = true.
Proof.
  unfold normal_name. intros H. apply andb_true_iff in H. apply H.
Qed.

Lemma split_join (n : string) (ns : list string) :
  forallb normal_name (n :: ns) = true ->
  split_on slash (join_with "/" (n :: ns)) = n :: ns.
Proof.
  revert n. induction ns as [| m ns IH]; intros n H.
  - simpl in H. rewrite andb_true_r in H.
    apply split_on_no_sep, normal_name_no_slash, H.
  - cbn [forallb] in H. apply andb_true_iff in H. destruct H as [Hn Hm].
    change (join_with "/" (n :: m :: ns))
      with (n ++ String slash (join_with "/" (m :: ns)))%string.
    rewrite (split_on_sep_app _ _ (normal_name_no_slash n Hn)).
    rewrite (IH m Hm). reflexivity.
Qed.

Lemma filter_normal (ns : list string) :
  forallb normal_name ns = true ->
  filter (fun w => negb (is_empty_str w) && negb (w =? ".")) ns = ns.
Proof.
  induction ns as [| n ns IH]; intros H.
  - reflexivity.
  - cbn [forallb] in H. apply andb_true_iff in H. destruct H as [Hn Hns].
    cbn [filter]. unfold normal_name in Hn.
    apply andb_true_iff in Hn. destruct Hn as [Hn _]. rewrite Hn.
    rewrite (IH Hns). reflexivity.
Qed.

Lemma leading_join (n : string) (ns : list string) :
  normal_name n = true -> leading slash (join_with "/" (n :: ns)) = 0.
Proof.
  intros H. unfold normal_name in H.
  apply andb_true_iff in H. destruct H as [H Hs].
  apply andb_true_iff in H. destruct H as [He _].
  destruct n as [| c n]; [discriminate He |].
  unfold no_slash in Hs. simpl in Hs.
  apply andb_true_iff in Hs. destruct Hs as [Hc _].
  apply negb_true_iff in Hc.
  destruct ns as [| m ns]; simpl; rewrite Hc; reflexivity.
Qed.

Lemma filter_skip_empty (l : list string) :
  filter (fun w => negb (is_empty_str w) && negb (w =? ".")) (EmptyString :: l)
  = filter (fun w => negb (is_empty_str w) && negb (w =? ".")) l.
Proof. reflexivity. Qed.

(** A path is read back from its text. *)
Lemma of_str_as_posix (p : Path) : normal p = true -> of_str (as_posix p) = p.
Proof.
  destruct p as [r ns]. unfold normal. cbn [root names]. intros H.
  apply andb_true_iff in H. destruct H as [Hr Hns].
  destruct ns as [| n ns].
  - apply orb_true_iff in Hr. destruct Hr as [Hr | Hr];
      [apply orb_true_iff in Hr; destruct Hr as [Hr | Hr] |];
      apply String.eqb_eq in Hr; subst r; reflexivity.
  - pose proof Hns as Hall. cbn [forallb] in Hns.
    apply andb_true_iff in Hns. destruct Hns as [Hn _].
    pose proof (leading_join n ns Hn) as Hlead.
    pose proof (split_join n ns Hall) as Hsplit.
    pose proof (filter_normal (n :: ns) Hall) as Hfilter.
    set (t := join_with "/" (n :: ns)) in *.
    apply orb_true_iff in Hr. destruct Hr as [Hr | Hr];
      [apply orb_true_iff in Hr; destruct Hr as [Hr | Hr] |];
      apply String.eqb_eq in Hr; subst r.
    + change (as_posix {| root := EmptyString; names := n :: ns |}) with t.
      unfold of_str. rewrite Hlead, Hsplit, Hfilter. reflexivity.
    + change (as_posix {| root := "/"; names := n :: ns |})
        with (String slash t).
      unfold of_str.
      change (leading slash (String slash t)) with (S (leading slash t)).
      change (split_on slash (String slash t))
        with (EmptyString :: split_on slash t).
      rewrite Hlead, Hsplit, filter_skip_empty, Hfilter. reflexivity.
    + change (as_posix {| root := "//"; names := n :: ns |})
        with (String slash (String slash t)).
      unfold of_str.
      change (leading slash (String slash (String slash t)))
        with (S (S (leading slash t))).
      change (split_on slash (String slash (String slash t)))
        with (EmptyString :: EmptyString :: split_on slash t).
      rewrite Hlead, Hsplit, !filter_skip_empty, Hfilter. reflexivity.
Qed.

(* ================================================================== *)
(** ** Further properties: the order of the sample list                *)
(* ================================================================== *)



(* ================================================================== *)
(** ** Further properties: the cache of the sample list                *)
(* ================================================================== *)

Lemma mapM_to_Path_strs (l : list string) :
  mapM to_Path (map VStr l) = inr (map of_str l).
Proof.
  rewrite (mapM_ok to_Path (fun v => match v with
                                     | VStr s => of_str s
                                     | _ => of_str EmptyString
                                     end)).
  - rewrite map_map. reflexivity.
  - intros a Ha. apply in_map_iff in Ha. destruct Ha as [s [<- _]].
    reflexivity.
Qed.

Lemma forallb_json_strs (l : list string) :
  forallb json_tree (map VStr l) = true.
Proof. induction l; simpl; [reflexivity | assumption]. Qed.

Lemma forallb_unique_strs (l : list string) :
  forallb unique_keys (map VStr l) = true.
Proof. induction l; simpl; [reflexivity | assumption]. Qed.

(** The text of a list of strings is read back as that list. *)
Lemma loads_dumps_strs (l : list string) (text : string) :
  json.dumps (VList (map VStr l)) = inr text ->
  json.loads text = inr (VList (map VStr l)).
Proof.
  intros H.
  pose proof (loads_dumps (VList (map VStr l)) (forallb_json_strs l)
                          (forallb_unique_strs l)) as Hr.
  rewrite H in Hr. exact Hr.
Qed.

Lemma map_of_str_as_posix (dirs : list Path) :
  Forall (fun p => normal p = true) dirs ->
  map of_str (map as_posix dirs) = dirs.
Proof.
  induction 1 as [| p l Hp _ IH]; simpl.
  - reflexivity.
  - rewrite (of_str_as_posix p Hp), IH. reflexivity.
Qed.

(** What a discovery that sets the sample list has done. *)
Lemma discover_sets (w w1 : World) (b b1 : Backend) (dirs : list Path) :
  all_samples_dirs b = None ->
  discover_all_samples w b = inr (w1, b1) ->
  all_samples_dirs b1 = Some dirs ->
  exists text,
    json.dumps (VList (map VStr (map as_posix dirs))) = inr text
    /\ files w1 = write_text (files w) (cached_path b) text
    /\ b1 = set_samples b dirs.
Proof.
  intros Hnone H Hd. unfold discover_all_samples in H.
  destruct (results_path b) as [rp |].
  - apply bind_inr_inv in H. destruct H as [found [_ H]].
    destruct found; cbn [negb] in H.
    + apply bind_inr_inv in H. destruct H as [folders [_ H]].
      apply bind_inr_inv in H. destruct H as [text [Ht H]].
      injection H as <- <-. cbn [all_samples_dirs set_samples] in Hd.
      injection Hd as <-. exists text.
      rewrite map_map. split; [exact Ht |]. split; reflexivity.
    + injection H as _ <-. rewrite Hnone in Hd. discriminate Hd.
  - injection H as _ <-. rewrite Hnone in Hd. discriminate Hd.
Qed.

Lemma is_ancestor_self (dir : Path) : is_ancestor_or_self dir dir = true.
Proof.
  unfold is_ancestor_or_self. rewrite String.eqb_refl.
  assert (H : forall l, strip_prefix l l = Some []).
  { induction l as [| a l IH]; simpl;
      [reflexivity | rewrite String.eqb_refl; exact IH]. }
  rewrite H. reflexivity.
Qed.

(** X13: a backend constructed over the files that an earlier
    construction has left takes its sample list from the cache file: it is
    the same backend, and nothing is logged, hence nothing is scanned. *)
Theorem second_construction_reads_the_cache
        (w w1 : World) (config : GradioConfig) (root : Path)
        (b1 : Backend) (dirs : list Path) :
  init w config root = inr (w1, b1) ->
  all_samples_dirs b1 = Some dirs ->
  Forall (fun p => normal p = true) dirs ->
  exists w2, init w1 config root = inr (w2, b1) /\ log w2 = log w1.
Proof.
  intros H Hd Hn. unfold init in H |- *.
  set (dir := cache_dir (files w) config) in *.
  set (b := new_backend (files w) config root) in *.
  cbn [files log] in H.
  destruct (path_exists (mkdir_parents (files w) dir) (cached_path b))
    as [e | found] eqn:Hfound; [discriminate H |].
  cbn [bind] in H. destruct found.
  - (* the first construction has read the cache *)
    apply bind_inr_inv in H. destruct H as [text [Ht H]].
    apply bind_inr_inv in H. destruct H as [listed [Hl H]].
    apply bind_inr_inv in H. destruct H as [items [Hi H]].
    apply bind_inr_inv in H. destruct H as [ds [Hds H]].
    injection H as <- <-. cbn [files log].
    change (cache_dir (mkdir_parents (files w) dir) config) with dir.
    change (new_backend (mkdir_parents (files w) dir) config root) with b.
    assert (He : path_exists (mkdir_parents (mkdir_parents (files w) dir) dir)
                             (cached_path b) = inr true).
    { cbn [path_exists mkdir_parents] in Hfound |- *.
      destruct (is_ancestor_or_self (cached_path b) dir);
        [reflexivity | exact Hfound]. }
    rewrite He. cbn [bind].
    change (read_text (mkdir_parents (mkdir_parents (files w) dir) dir))
      with (read_text (mkdir_parents (files w) dir)).
    rewrite Ht. cbn [bind]. rewrite Hl. cbn [bind]. rewrite Hi. cbn [bind].
    rewrite Hds. cbn [bind ret]. eexists. split; reflexivity.
  - (* the first construction has discovered the samples *)
    destruct (discover_sets _ w1 b b1 dirs eq_refl H Hd)
      as [text [Ht [Hw ->]]].
    cbn [files] in Hw. rewrite Hw.
    change (cache_dir (write_text (mkdir_parents (files w) dir)
                                  (cached_path b) text) config) with dir.
    change (new_backend (write_text (mkdir_parents (files w) dir)
                                    (cached_path b) text) config root) with b.
    assert (He : path_exists
                   (mkdir_parents
                      (write_text (mkdir_parents (files w) dir)
                                  (cached_path b) text) dir)
                   (cached_path b) = inr true).
    { cbn [path_exists mkdir_parents write_text].
      rewrite path_eqb_refl.
      destruct (is_ancestor_or_self (cached_path b) dir); reflexivity. }
    cbn [files]. rewrite He. cbn [bind].
    cbn [read_text mkdir_parents write_text]. rewrite path_eqb_refl.
    cbn [bind ret].
    rewrite (loads_dumps_strs _ text Ht). cbn [bind py_iter ret].
    rewrite mapM_to_Path_strs. cbn [bind ret].
    rewrite (map_of_str_as_posix dirs Hn).
    eexists. split; reflexivity.
Qed.

Lemma second_construction_reads_the_cache_witness :
  match init (world_of listing_fs) listing_config (of_str ".") with
  | inr (w1, b1) =>
      exists w2, init w1 listing_config (of_str ".") = inr (w2, b1)
                 /\ log w2 = log w1
  | inl _ => False
  end.
Proof.
  destruct (init (world_of listing_fs) listing_config (of_str "."))
    as [e | [w1 b1]] eqn:E.
  - vm_compute in E. discriminate E.
  - apply (second_construction_reads_the_cache (world_of listing_fs) w1
             listing_config (of_str ".") b1
             [of_str "/r/a"; of_str "/r/b"] E).
    + vm_compute in E. injection E as _ <-. reflexivity.
    + repeat constructor.
Defined.

(** A discovery removes no path. *)
Lemma discover_keeps_paths (w w' : World) (b b' : Backend) (q : Path) :
  discover_all_samples w b = inr (w', b') ->
  path_exists (files w) q = inr true ->
  path_exists (files w') q = inr true.
Proof.
  intros H Hq. unfold discover_all_samples in H.
  destruct (results_path b) as [rp |].
  - apply bind_inr_inv in H. destruct H as [found [_ H]].
    destruct found; cbn [negb] in H.
    + apply bind_inr_inv in H. destruct H as [folders [_ H]].
      apply bind_inr_inv in H. destruct H as [text [_ H]].
      injection H as <- _. cbn [files path_exists write_text emit].
      destruct (pathlib.eqb q (cached_path b)); [reflexivity | exact Hq].
    + injection H as <- _. exact Hq.
  - injection H as <- _. exact Hq.
Qed.

(** X14: after a construction the folder of the cache file exists, and so
    does every folder above it. *)
Theorem construction_creates_cache_folder
        (w w' : World) (config : GradioConfig) (root : Path) (b' : Backend)
        (q : Path) :
  init w config root = inr (w', b') ->
  is_ancestor_or_self q (cache_dir (files w) config) = true ->
  path_exists (files w') q = inr true.
Proof.
  intros H Hq. unfold init in H.
  set (dir := cache_dir (files w) config) in *.
  set (b := new_backend (files w) config root) in *.
  cbn [files log] in H.
  assert (Hm : path_exists (mkdir_parents (files w) dir) q = inr true).
  { cbn [path_exists mkdir_parents]. rewrite Hq. reflexivity. }
  apply bind_inr_inv in H. destruct H as [found [_ H]].
  destruct found.
  - apply bind_inr_inv in H. destruct H as [text [_ H]].
    apply bind_inr_inv in H. destruct H as [listed [_ H]].
    apply bind_inr_inv in H. destruct H as [items [_ H]].
    apply bind_inr_inv in H. destruct H as [ds [_ H]].
    injection H as <- _. exact Hm.
  - apply (discover_keeps_paths _ w' b b' q H). exact Hm.
Qed.

Lemma construction_creates_cache_folder_witness :
  match init (world_of empty_fs) meta_config (of_str ".") with
  | inr (w', _) => path_exists (files w') (of_str "/cache") = inr true
  | inl _ => False
  end.
Proof.
  destruct (init (world_of empty_fs) meta_config (of_str "."))
    as [e | [w' b']] eqn:E.
  - vm_compute in E. discriminate E.
  - apply (construction_creates_cache_folder (world_of empty_fs) w'
             meta_config (of_str ".") b' (of_str "/cache") E).
    reflexivity.
Defined.

(* ================================================================== *)
(** ** Further properties: pages                                       *)
(* ================================================================== *)

Lemma py_slice_length {A : Type} (l : list A) (offset limit : Z) :
  (0 <= limit)%Z ->
  List.length (py_slice l offset (offset + limit)) <= Z.to_nat limit.
Proof.
  intros Hl. unfold py_slice.
  set (len := Z.of_nat (List.length l)).
  assert (Hlen : (0 <= len)%Z) by (subst len; lia).
  eapply Nat.le_trans; [apply firstn_le_length |].
  unfold clamp.
  destruct (Z.ltb_spec offset 0), (Z.ltb_spec (offset + limit) 0); lia.
Qed.

(** X15: for a limit that is not negative a page has at most [limit]
    entries, for every offset, negative ones included, and whether or not
    the thumbnails resolve. *)
Theorem page_has_at_most_limit_entries
        (w : World) (b : Backend) (offset limit : Z) :
  (0 <= limit)%Z ->
  List.length (snd (get_samples_metadata w b offset limit)) <= Z.to_nat limit.
Proof.
  intros Hl. unfold get_samples_metadata, list_samples.
  destruct (all_samples_dirs b) as [dirs |]; [| simpl; lia].
  destruct (mapM (sample_meta (files w) b)
                 (py_slice dirs offset (offset + limit)))
    as [e | results] eqn:Hm; [simpl; lia |].
  cbn [snd]. rewrite (mapM_length _ _ _ Hm).
  apply py_slice_length. exact Hl.
Qed.

Lemma page_has_at_most_limit_entries_witness :
  List.length
    (snd (get_samples_metadata
            (world_of empty_fs)
            (backend_at (VStr "thumb.png") None (Some abc_dirs)) (-2) 1))
  <= Z.to_nat 1.
Proof.
  apply (page_has_at_most_limit_entries
           (world_of empty_fs)
           (backend_at (VStr "thumb.png") None (Some abc_dirs)) (-2) 1).
  lia.
Defined.

Lemma firstn_skipn_join {A : Type} (a c : nat) (m : list A) :
  firstn a m ++ firstn c (skipn a m) = firstn (a + c) m.
Proof.
  revert m. induction a as [| a IH]; intros m.
  - reflexivity.
  - destruct m as [| x m]; simpl.
    + rewrite !firstn_nil. reflexivity.
    + rewrite IH. reflexivity.
Qed.

Lemma py_slice_join {A : Type} (l : list A) (offset l1 l2 : Z) :
  (0 <= offset)%Z -> (0 <= l1)%Z -> (0 <= l2)%Z ->
  py_slice l offset (offset + l1)
  ++ py_slice l (offset + l1) (offset + l1 + l2)
  = py_slice l offset (offset + (l1 + l2)).
Proof.
  intros Ho H1 H2. rewrite !py_slice_nonneg by lia.
  rewrite Z2Nat.inj_add by lia.
  rewrite (Nat.add_comm (Z.to_nat offset)), <- skipn_skipn.
  rewrite Z2Nat.inj_add by lia. apply firstn_skipn_join.
Qed.

Lemma mapM_app {A B : Type} (f : A -> result B) (l m : list A)
      (r s : list B) :
  mapM f l = inr r -> mapM f m = inr s -> mapM f (l ++ m) = inr (r ++ s).
Proof.
  revert r. induction l as [| a l IH]; intros r Hl Hm.
  - injection Hl as <-. exact Hm.
  - cbn [mapM app] in Hl |- *.
    destruct (f a) as [e | x]; [discriminate Hl |]. cbn [bind] in Hl |- *.
    destruct (mapM f l) as [e | r']; [discriminate Hl |].
    cbn [bind ret] in Hl. injection Hl as <-.
    rewrite (IH r' eq_refl Hm). reflexivity.
Qed.

Lemma mapM_all_ok {A B : Type} (f : A -> result B) (l : list A) :
  (forall a, In a l -> is_ok (f a) = true) -> exists r, mapM f l = inr r.
Proof.
  induction l as [| a l IH]; intros H.
  - exists []. reflexivity.
  - cbn [mapM].
    pose proof (H a (or_introl eq_refl)) as Ha.
    destruct (f a) as [e | x]; [discriminate Ha |].
    destruct (IH (fun y Hy => H y (or_intror Hy))) as [r ->].
    exists (x :: r). reflexivity.
Qed.

(** X16: two pages that follow each other join to the page of both: when
    the thumbnails of the samples concerned resolve, the page of [l1]
    entries from [offset] followed by the page of [l2] entries from
    [offset + l1] is the page of [l1 + l2] entries from [offset]. *)
Theorem consecutive_pages_join
        (w : World) (b : Backend) (dirs : list Path) (offset l1 l2 : Z) :
  all_samples_dirs b = Some dirs ->
  (0 <= offset)%Z -> (0 <= l1)%Z -> (0 <= l2)%Z ->
  (forall d, In d (py_slice dirs offset (offset + (l1 + l2))) ->
             is_ok (sample_meta (files w) b d) = true) ->
  snd (get_samples_metadata w b offset l1)
  ++ snd (get_samples_metadata w b (offset + l1) l2)
  = snd (get_samples_metadata w b offset (l1 + l2)).
Proof.
  intros Hd Ho H1 H2 Hok. unfold get_samples_metadata, list_samples.
  rewrite Hd. rewrite <- (py_slice_join dirs offset l1 l2 Ho H1 H2) in Hok |- *.
  destruct (mapM_all_ok (sample_meta (files w) b)
                        (py_slice dirs offset (offset + l1))) as [r Hr].
  { intros d Hin. apply Hok. apply in_or_app. left. exact Hin. }
  destruct (mapM_all_ok (sample_meta (files w) b)
                        (py_slice dirs (offset + l1) (offset + l1 + l2)))
    as [s Hs].
  { intros d Hin. apply Hok. apply in_or_app. right. exact Hin. }
  rewrite (mapM_app _ _ _ r s Hr Hs), Hr, Hs. reflexivity.
Qed.

Lemma consecutive_pages_join_witness :
  snd (get_samples_metadata
         (world_of empty_fs)
         (backend_at (VStr "thumb.png") None (Some abc_dirs)) 0 2)
  ++ snd (get_samples_metadata
            (world_of empty_fs)
            (backend_at (VStr "thumb.png") None (Some abc_dirs)) (0 + 2) 2)
  = snd (get_samples_metadata
           (world_of empty_fs)
           (backend_at (VStr "thumb.png") None (Some abc_dirs)) 0 (2 + 2)).
Proof.
  apply (consecutive_pages_join
           (world_of empty_fs)
           (backend_at (VStr "thumb.png") None (Some abc_dirs))
           abc_dirs 0 2 2).
  - reflexivity.
  - lia.
  - lia.
  - lia.
  - intros d _. reflexivity.
Defined.

(* ================================================================== *)
(** ** Further properties: the thumbnail specification                 *)
(* ================================================================== *)

(** X17: a thumbnail given as a [Path] object passes the validation of the
    configuration, and the backend, which tests for a string only, then
    fails on every page that is not empty: the error is logged and the
    page comes back empty. *)
Theorem path_thumbnail_is_accepted_and_empties_pages
        (fs : FileSystem) (cfg : GradioConfig) (p : Path) :
  thumbnail_path cfg = VPath p ->
  is_ok (post_init fs cfg) = true
  /\ forall (w : World) (b : Backend) (dirs : list Path) (offset limit : Z),
      b_thumbnail_path b = thumbnail_path cfg ->
      all_samples_dirs b = Some dirs ->
      py_slice dirs offset (offset + limit) <> [] ->
      get_samples_metadata w b offset limit
      = (emit w (LogException "Error listing samples" TypeError), []).
Proof.
  intros Ht. split.
  - unfold post_init. rewrite Ht. reflexivity.
  - intros w b dirs offset limit Hb Hd Hne.
    unfold get_samples_metadata, list_samples. rewrite Hd.
    destruct (py_slice dirs offset (offset + limit)) as [| d rest];
      [contradiction Hne; reflexivity |].
    cbn [mapM]. unfold sample_meta. rewrite Hb, Ht. reflexivity.
Qed.

Lemma path_thumbnail_is_accepted_and_empties_pages_witness :
  is_ok (post_init empty_fs
                   (with_thumbnail meta_config (VPath (of_str "thumb.png"))))
  = true
  /\ get_samples_metadata
       (world_of empty_fs)
       (backend_at (VPath (of_str "thumb.png")) None (Some abc_dirs)) 0 2
     = (emit (world_of empty_fs)
             (LogException "Error listing samples" TypeError), []).
Proof.
  destruct (path_thumbnail_is_accepted_and_empties_pages
              empty_fs
              (with_thumbnail meta_config (VPath (of_str "thumb.png")))
              (of_str "thumb.png") eq_refl) as [Hv Hp].
  split; [exact Hv |].
  apply (Hp (world_of empty_fs)
            (backend_at (VPath (of_str "thumb.png")) None (Some abc_dirs))
            abc_dirs 0%Z 2%Z).
  - reflexivity.
  - reflexivity.
  - discriminate.
Defined.

(** X18: a configuration that has passed [__post_init__] always names a
    cache folder, the given one or [~/.cache/hoigen3d/gradio_app], so the
    backend built from it uses that folder and never its own default;
    nothing else of the configuration is changed. *)
Theorem validated_config_names_the_cache_folder
        (fs : FileSystem) (cfg cfg' : GradioConfig) :
  post_init fs cfg = inr cfg' ->
  (forall fs',
      cache_dir fs' cfg'
      = match cache_folder cfg with
        | Some c => c
        | None => div (div (div (home fs) ".cache") "hoigen3d") "gradio_app"
        end)
  /\ results_folder cfg' = results_folder cfg
  /\ layout cfg' = layout cfg
  /\ thumbnail_path cfg' = thumbnail_path cfg
  /\ filter_results_by_existance_of cfg' = filter_results_by_existance_of cfg
  /\ filename cfg' = filename cfg
  /\ page_limit cfg' = page_limit cfg.
Proof.
  unfold post_init. intros H.
  assert (Hc : cfg' = match cache_folder cfg with
                      | Some _ => cfg
                      | None =>
                          {| results_folder := results_folder cfg;
                             layout := layout cfg;
                             thumbnail_path := thumbnail_path cfg;
                             filter_results_by_existance_of :=
                               filter_results_by_existance_of cfg;
                             filename := filename cfg;
                             page_limit := page_limit cfg;
                             cache_folder :=
                               Some (div (div (div (home fs) ".cache")
                                              "hoigen3d") "gradio_app") |}
                      end).
  { destruct (thumbnail_path cfg) as [| | | | | d | | |];
      try discriminate H; try (injection H as <-; reflexivity).
    destruct (dict_lookup "first_path_exists" d) as [[| | | | l | | | |] |];
      try discriminate H.
    destruct l as [| [| | | | | | | |] l]; try discriminate H;
      injection H as <-; reflexivity. }
  subst cfg'. unfold cache_dir.
  destruct (cache_folder cfg) as [c |] eqn:E; cbn; rewrite ?E;
    repeat split; reflexivity.
Qed.

Lemma validated_config_names_the_cache_folder_witness :
  match post_init empty_fs uncached_config with
  | inr cfg' =>
      cache_dir listing_fs cfg' = of_str "/home/u/.cache/hoigen3d/gradio_app"
  | inl _ => False
  end.
Proof.
  destruct (post_init empty_fs uncached_config) as [e | cfg'] eqn:E.
  - discriminate E.
  - destruct (validated_config_names_the_cache_folder
                empty_fs uncached_config cfg' E) as [H _].
    rewrite (H listing_fs). reflexivity.
Defined.

(* ================================================================== *)
(** ** Further properties: loading more samples                        *)
(* ================================================================== *)

(** X19: [load_more] keeps the state of the page in step: when the images
    and the ids it is given are those of the loaded samples and the offset
    counts them, the same holds of what it returns, the gallery shows the
    images, and the choices of the dropdown are [all] followed by the
    ids. *)
Theorem load_more_keeps_state_in_step
        (w : World) (backend : Backend) (cfg : GradioConfig)
        (samples_state : list SampleMeta)
        (samples_imgs : list (value * string)) (samples_ids : list string)
        (offset_state pagination_limit : Z) (r : Loaded) :
  in_step samples_state samples_imgs samples_ids offset_state ->
  r = snd (load_more w backend cfg samples_state samples_imgs samples_ids
                     offset_state pagination_limit) ->
  in_step (out_state r) (out_imgs r) (out_ids r) (out_offset r)
  /\ out_gallery r = out_imgs r
  /\ choices (out_dropdown r) = "all" :: out_ids r.
Proof.
  intros [Hi [Hd Ho]] ->. unfold load_more.
  destruct (get_samples_metadata w backend (py_or offset_state 0)
              (py_or pagination_limit (page_limit cfg))) as [w' more].
  cbn [snd out_state out_imgs out_ids out_offset out_gallery out_dropdown
       choices].
  unfold in_step. rewrite !map_app, length_app, Nat2Z.inj_add.
  subst. repeat split.
Qed.

Lemma load_more_keeps_state_in_step_witness :
  in_step (out_state first_page) (out_imgs first_page) (out_ids first_page)
          (out_offset first_page)
  /\ out_gallery first_page = out_imgs first_page
  /\ choices (out_dropdown first_page) = "all" :: out_ids first_page.
Proof.
  apply (load_more_keeps_state_in_step
           (world_of empty_fs)
           (backend_at (VStr "thumb.png") None (Some abc_dirs))
           meta_config [] [] [] 0 2 first_page).
  - repeat split.
  - reflexivity.
Defined.

Lemma py_or_nat (n : nat) : py_or (Z.of_nat n) 0 = Z.of_nat n.
Proof.
  unfold py_or. destruct (Z.eqb_spec (Z.of_nat n) 0) as [H | _];
    [symmetry; exact H | reflexivity].
Qed.

Lemma py_or_positive (a b : Z) : (0 < a)%Z -> py_or a b = a.
Proof.
  intros H. unfold py_or. destruct (Z.eqb_spec a 0); [lia | reflexivity].
Qed.

(** X20: with a thumbnail given as a string, [load_more] neither skips nor
    repeats a sample: from a page that holds the first [n] samples of the
    list, a call with a positive limit returns the page of the first
    [n + limit] samples. *)
Theorem load_more_extends_the_prefix
        (w : World) (backend : Backend) (cfg : GradioConfig)
        (dirs : list Path) (s : string) (n : nat) (limit : Z)
        (shown : list SampleMeta) :
  all_samples_dirs backend = Some dirs ->
  b_thumbnail_path backend = VStr s ->
  (0 < limit)%Z ->
  shown = map (meta_of (VStr s)) (firstn n dirs) ->
  out_state (snd (load_more w backend cfg shown (map image shown)
                            (map id shown) (Z.of_nat n) limit))
  = map (meta_of (VStr s)) (firstn (n + Z.to_nat limit) dirs).
Proof.
  intros Hd Ht Hl ->. unfold load_more.
  rewrite py_or_nat, (py_or_positive limit _ Hl).
  unfold get_samples_metadata, list_samples. rewrite Hd.
  rewrite py_slice_nonneg by lia. rewrite Nat2Z.id.
  rewrite (mapM_ok _ (meta_of (VStr s)))
    by (intros d _; apply sample_meta_literal; exact Ht).
  cbn [snd out_state]. rewrite <- map_app, firstn_skipn_join. reflexivity.
Qed.

Lemma load_more_extends_the_prefix_witness :
  out_state
    (snd (load_more (world_of empty_fs)
            (backend_at (VStr "thumb.png") None (Some abc_dirs)) meta_config
            (map (meta_of (VStr "thumb.png")) (firstn 1 abc_dirs))
            (map image (map (meta_of (VStr "thumb.png")) (firstn 1 abc_dirs)))
            (map id (map (meta_of (VStr "thumb.png")) (firstn 1 abc_dirs)))
            (Z.of_nat 1) 1))
  = map (meta_of (VStr "thumb.png")) (firstn (1 + Z.to_nat 1) abc_dirs).
Proof.
  apply (load_more_extends_the_prefix
           (world_of empty_fs)
           (backend_at (VStr "thumb.png") None (Some abc_dirs)) meta_config
           abc_dirs "thumb.png" 1 1).
  - reflexivity.
  - reflexivity.
  - lia.
  - reflexivity.
Defined.

(** X21: at or past the end of the sample list [load_more] changes
    nothing: the samples, the images, the ids and the offset come back as
    they were given, and nothing is logged. *)
Theorem load_more_at_the_end_changes_nothing
        (w : World) (backend : Backend) (cfg : GradioConfig)
        (dirs : list Path) (samples_state : list SampleMeta)
        (samples_imgs : list (value * string)) (samples_ids : list string)
        (offset_state pagination_limit : Z) :
  all_samples_dirs backend = Some dirs ->
  (Z.of_nat (List.length dirs) <= offset_state)%Z ->
  load_more w backend cfg samples_state samples_imgs samples_ids
            offset_state pagination_limit
  = (w, {| out_text := "rerender";
           out_state := samples_state;
           out_imgs := samples_imgs;
           out_gallery := samples_imgs;
           out_ids := samples_ids;
           out_offset := offset_state;
           out_dropdown := {| choices := "all" :: samples_ids;
                              u_value := "all" |} |}).
Proof.
  intros Hd Ho. unfold load_more, get_samples_metadata, list_samples.
  rewrite Hd.
  assert (Hor : py_or offset_state 0 = offset_state).
  { unfold py_or. destruct (Z.eqb_spec offset_state 0) as [H | _];
      [symmetry; exact H | reflexivity]. }
  rewrite Hor, py_slice_out_of_range by exact Ho.
  cbn [mapM ret map List.length]. rewrite !app_nil_r, Z.add_0_r.
  reflexivity.
Qed.

Lemma load_more_at_the_end_changes_nothing_witness :
  load_more (world_of empty_fs)
            (backend_at (VStr "thumb.png") None (Some abc_dirs)) meta_config
            [] [] [] 3 2
  = (world_of empty_fs,
     {| out_text := "rerender";
        out_state := [];
        out_imgs := [];
        out_gallery := [];
        out_ids := [];
        out_offset := 3;
        out_dropdown := {| choices := ["all"]; u_value := "all" |} |}).
Proof.
  apply (load_more_at_the_end_changes_nothing
           (world_of empty_fs)
           (backend_at (VStr "thumb.png") None (Some abc_dirs)) meta_config
           abc_dirs [] [] [] 3 2).
  - reflexivity.
  - simpl. lia.
Defined.

(* ================================================================== *)
(** ** Further properties: showing a selection                         *)
(* ================================================================== *)

Lemma split_on_absent (sep : ascii) (t : string) :
  has_char sep t = false -> split_on sep t = [t].
Proof.
  induction t as [| c t IH]; simpl; intros H.
  - reflexivity.
  - apply orb_false_iff in H. destruct H as [Hc Ht].
    rewrite Hc, (IH Ht). reflexivity.
Qed.

Lemma string_of_uint_no_underscore (d : Decimal.uint) :
  has_char "_" (DecimalString.NilEmpty.string_of_uint d) = false.
Proof. induction d; simpl; assumption || reflexivity. Qed.

Lemma string_of_Z_no_underscore (z : Z) :
  has_char "_" (json.string_of_Z z) = false.
Proof.
  unfold json.string_of_Z, DecimalString.NilZero.string_of_int,
    DecimalString.NilZero.string_of_uint.
  destruct z as [| p | p]; simpl; [reflexivity | |];
    destruct (Pos.to_uint p) eqn:E; try reflexivity;
    rewrite <- E; apply string_of_uint_no_underscore.
Qed.

Lemma string_of_Z_not_all (z : Z) : (json.string_of_Z z =? "all") = false.
Proof.
  unfold json.string_of_Z, DecimalString.NilZero.string_of_int,
    DecimalString.NilZero.string_of_uint.
  destruct z as [| p | p]; simpl; [reflexivity | | reflexivity].
  destruct (Pos.to_uint p); reflexivity.
Qed.

Lemma int_digits_of_uint (d : Decimal.uint) :
  d <> Decimal.Nil ->
  int_digits (DecimalString.NilEmpty.string_of_uint d) = Some (Z.of_uint d).
Proof.
  intros Hnil.
  pose proof (lex_digits_of_uint d EmptyString eq_refl) as Hlex.
  rewrite append_nil_r in Hlex. unfold int_digits. rewrite Hlex.
  destruct d; [contradiction Hnil; reflexivity | reflexivity ..].
Qed.

(** [int] reads back the decimal text of an integer. *)
Lemma py_int_of_Z (z : Z) : py_int (json.string_of_Z z) = inr z.
Proof.
  destruct z as [| p | p]; unfold json.string_of_Z, Z.to_int;
    unfold DecimalString.NilZero.string_of_int,
      DecimalString.NilZero.string_of_uint.
  - reflexivity.
  - destruct (to_uint_head p) as [Hnil _].
    pose proof (int_digits_of_uint _ Hnil) as Hi.
    rewrite of_uint_to_uint in Hi.
    destruct (Pos.to_uint p) as [| d | d | d | d | d | d | d | d | d | d];
      [contradiction Hnil; reflexivity | ..];
      cbn [DecimalString.NilEmpty.string_of_uint] in Hi |- *;
      unfold py_int; rewrite Hi; reflexivity.
  - destruct (to_uint_head p) as [Hnil _].
    pose proof (int_digits_of_uint _ Hnil) as Hi.
    rewrite of_uint_to_uint in Hi.
    assert (Hs : match Pos.to_uint p with
                 | Decimal.Nil => "0"
                 | _ => DecimalString.NilEmpty.string_of_uint (Pos.to_uint p)
                 end = DecimalString.NilEmpty.string_of_uint (Pos.to_uint p)).
    { destruct (Pos.to_uint p); [contradiction Hnil |..]; reflexivity. }
    rewrite Hs. unfold py_int. cbn [append]. rewrite Hi. reflexivity.
Qed.

Lemma select_all_rows (rows : nat) :
  select_rows "all" rows = inr (map (fun _ => true) (seq 0 rows)).
Proof.
  unfold select_rows. apply mapM_ok. intros i _. reflexivity.
Qed.

Lemma select_one_row (idx : Z) (rows : nat) :
  select_rows (json.string_of_Z idx) rows
  = inr (map (fun i => (Z.of_nat i =? idx)%Z) (seq 0 rows)).
Proof.
  unfold select_rows. apply mapM_ok. intros i _.
  rewrite string_of_Z_not_all, py_int_of_Z. reflexivity.
Qed.

Lemma render_selected_idx (rows : nat) (idx : Z) :
  render_samples rows ("selected_" ++ json.string_of_Z idx)
  = inr (Selected (map (fun i => (Z.of_nat i =? idx)%Z) (seq 0 rows))).
Proof.
  unfold render_samples.
  assert (Hc : contains "selected" ("selected_" ++ json.string_of_Z idx)
               = true) by reflexivity.
  rewrite Hc.
  assert (Ha : after_last "_" ("selected_" ++ json.string_of_Z idx)
               = json.string_of_Z idx).
  { unfold after_last.
    change (split_on "_" ("selected_" ++ json.string_of_Z idx))
      with ("selected" :: split_on "_" (json.string_of_Z idx)).
    rewrite (split_on_absent _ _ (string_of_Z_no_underscore idx)).
    reflexivity. }
  rewrite Ha, select_one_row. reflexivity.
Qed.

(** X22: the text that [show_sample] hands to [render_samples] selects
    what the gallery shows: with it, every row is visible when no gallery
    index is selected, and otherwise the row at the selected index of the
    gallery is the only visible one. *)
Theorem selection_text_selects_the_gallery_row
        (event : SelectData) (samples_ids : list string) (sel : Selection)
        (rows : nat) :
  show_sample event samples_ids = inr sel ->
  render_samples rows (sel_text sel)
  = inr (Selected (map (fun i => match sel_gallery sel with
                                 | None => true
                                 | Some idx => (Z.of_nat i =? idx)%Z
                                 end) (seq 0 rows))).
Proof.
  unfold show_sample. intros H.
  apply bind_inr_inv in H. destruct H as [sample_id [_ H]].
  injection H as <-. cbn [sel_text sel_gallery].
  destruct (sample_id =? "all").
  - change ("selected_" ++ "all")%string with "selected_all".
    unfold render_samples.
    change (contains "selected" "selected_all") with true.
    change (after_last "_" "selected_all") with "all".
    cbv iota. rewrite select_all_rows. reflexivity.
  - apply render_selected_idx.
Qed.

Lemma selection_text_selects_the_gallery_row_witness :
  render_samples 3 "selected_1"
  = inr (Selected (map (fun i => (Z.of_nat i =? 1)%Z) (seq 0 3))).
Proof.
  apply (selection_text_selects_the_gallery_row
           {| ev_value := VStr "b"; ev_index := 2 |} ["a"; "b"; "c"]
           {| sel_dropdown := "b"; sel_gallery := Some 1%Z;
              sel_text := "selected_1" |} 3).
  reflexivity.
Defined.

Lemma py_index_nth {A : Type} (l : list A) (j : nat) (x : A) :
  nth_error l j = Some x -> py_index l (Z.of_nat j) = inr x.
Proof.
  intros H. unfold py_index. cbv zeta.
  assert (Hj : j < List.length l) by (apply nth_error_Some; congruence).
  assert (H0 : (Z.of_nat j <? 0)%Z = false) by (apply Z.ltb_ge; lia).
  assert (H1 : (Z.of_nat (List.length l) <=? Z.of_nat j)%Z = false)
    by (apply Z.leb_gt; lia).
  rewrite !H0, H1. cbn [orb]. rewrite Nat2Z.id, H. reflexivity.
Qed.

(** X23: a sample is selected in the same way from the dropdown and from
    the gallery: the choice at position [j + 1] of the dropdown, whose
    choices are [all] followed by the ids, and the image at position [j]
    of the gallery give the same dropdown value, the same gallery index
    and the same text. *)
Theorem dropdown_and_gallery_select_alike
        (samples_ids : list string) (j : nat) (s : string)
        (image : list (string * value)) :
  nth_error samples_ids j = Some s ->
  show_sample {| ev_value := VStr s; ev_index := Z.of_nat (S j) |} samples_ids
  = show_sample {| ev_value := VDict image; ev_index := Z.of_nat j |}
                samples_ids.
Proof.
  intros H. unfold show_sample. cbn [ev_value ev_index].
  rewrite (py_index_nth samples_ids j s H). cbn [bind ret].
  replace (Z.of_nat (S j) - 1)%Z with (Z.of_nat j - 0)%Z by lia.
  reflexivity.
Qed.

Lemma dropdown_and_gallery_select_alike_witness :
  show_sample {| ev_value := VStr "b"; ev_index := Z.of_nat 2 |}
              ["a"; "b"; "c"]
  = show_sample {| ev_value := VDict []; ev_index := Z.of_nat 1 |}
                ["a"; "b"; "c"].
Proof.
  apply (dropdown_and_gallery_select_alike ["a"; "b"; "c"] 1 "b" []).
  reflexivity.
Defined.

(** X24: a sample whose id is [all] cannot be shown alone: a click on its
    image in the gallery gives what [show_all] gives, no gallery index,
    and every row stays visible. *)
Theorem sample_named_all_shows_all
        (samples_ids : list string) (j : nat)
        (image : list (string * value)) (rows : nat) :
  nth_error samples_ids j = Some "all" ->
  show_sample {| ev_value := VDict image; ev_index := Z.of_nat j |}
              samples_ids
  = inr {| sel_dropdown := fst show_all; sel_gallery := None;
           sel_text := snd show_all |}
  /\ render_samples rows (snd show_all)
     = inr (Selected (map (fun _ => true) (seq 0 rows))).
Proof.
  intros H. split.
  - unfold show_sample. cbn [ev_value ev_index].
    rewrite (py_index_nth samples_ids j "all" H). reflexivity.
  - unfold show_all, render_samples. cbn [snd].
    change (contains "selected" "selected_all") with true.
    change (after_last "_" "selected_all") with "all".
    cbv iota. rewrite select_all_rows. reflexivity.
Qed.

Lemma sample_named_all_shows_all_witness :
  show_sample {| ev_value := VDict []; ev_index := Z.of_nat 1 |}
              ["a"; "all"]
  = inr {| sel_dropdown := fst show_all; sel_gallery := None;
           sel_text := snd show_all |}
  /\ render_samples 2 (snd show_all)
     = inr (Selected (map (fun _ => true) (seq 0 2))).
Proof.
  apply (sample_named_all_shows_all ["a"; "all"] 1 [] 2). reflexivity.
Defined.

(* ================================================================== *)
(** ** Further properties: the resolver of the configuration           *)
(* ================================================================== *)

Lemma lstrip_lstrip (s : string) : lstrip (lstrip s) = lstrip s.
Proof.
  induction s as [| c s IH]; simpl.
  - reflexivity.
  - destruct (isspace c) eqn:E; [exact IH |]. simpl. rewrite E. reflexivity.
Qed.

Lemma rstrip_cons (c : ascii) (s : string) :
  rstrip (String c s)
  = match rstrip s with
    | EmptyString => if isspace c then EmptyString else str1 c
    | String d r => String c (String d r)
    end.
Proof. reflexivity. Qed.

Lemma rstrip_rstrip (s : string) : rstrip (rstrip s) = rstrip s.
Proof.
  induction s as [| c s IH].
  - reflexivity.
  - rewrite rstrip_cons. destruct (rstrip s) as [| d r] eqn:E.
    + destruct (isspace c) eqn:Ec; [reflexivity |].
      unfold str1. rewrite rstrip_cons. cbn [rstrip]. rewrite Ec.
      reflexivity.
    + rewrite rstrip_cons, IH. reflexivity.
Qed.

Lemma rstrip_lstrip (s : string) : rstrip (lstrip s) = lstrip (rstrip s).
Proof.
  induction s as [| c s IH].
  - reflexivity.
  - rewrite rstrip_cons. cbn [lstrip].
    destruct (isspace c) eqn:Ec.
    + rewrite IH. destruct (rstrip s) as [| d r] eqn:E.
      * reflexivity.
      * cbn [lstrip]. rewrite Ec. reflexivity.
    + rewrite rstrip_cons.
      destruct (rstrip s) as [| d r] eqn:E; cbn [lstrip str1]; rewrite Ec;
        reflexivity.
Qed.

Lemma strip_strip (s : string) : strip (strip s) = strip s.
Proof.
  unfold strip. rewrite rstrip_lstrip, lstrip_lstrip, rstrip_rstrip.
  reflexivity.
Qed.

(** X25: the thumbnail specification that the [first_path_exists]
    resolver builds from one string argument or more is accepted by
    [__post_init__], and its candidates are the arguments without the
    blanks around them; built from no argument it is rejected with
    [IndexError]. *)
Theorem resolver_output_is_validated
        (fs : FileSystem) (cfg : GradioConfig) (s : string)
        (ss : list string) :
  (exists t,
      first_path_exists_resolver (map VStr (s :: ss)) = inr t
      /\ is_ok (post_init fs (with_thumbnail cfg t)) = true
      /\ getitem_first_path_exists t
         = inr (VList (map (fun x => VStr (strip x)) (s :: ss)))
      /\ forall x, In x (s :: ss) -> strip (strip x) = strip x)
  /\ (exists t,
         first_path_exists_resolver [] = inr t
         /\ post_init fs (with_thumbnail cfg t) = inl IndexError).
Proof.
  split.
  - exists (VDict [("first_path_exists",
                    VList (map (fun x => VStr (strip x)) (s :: ss)))]).
    assert (Hm : mapM strip_value (map VStr (s :: ss))
                 = inr (map (fun x => VStr (strip x)) (s :: ss))).
    { rewrite (mapM_ok strip_value
                       (fun v => match v with
                                 | VStr t => VStr (strip t)
                                 | other => other
                                 end)).
      - rewrite map_map. reflexivity.
      - intros a Ha. apply in_map_iff in Ha. destruct Ha as [x [<- _]].
        reflexivity. }
    repeat split.
    + unfold first_path_exists_resolver. rewrite Hm. reflexivity.
    + intros x _. apply strip_strip.
  - eexists. split; reflexivity.
Qed.

(* ================================================================== *)
(** ** Further properties: the cache file and the sample list          *)
(* ================================================================== *)

(** X26: a cache file that is there and does not decode makes the
    construction of the backend fail with the error of the decoder: the
    results folder is not scanned in its place. *)
Theorem undecodable_cache_fails_construction
        (w : World) (config : GradioConfig) (root : Path) (text : string)
        (e : exn) :
  path_exists (mkdir_parents (files w) (cache_dir (files w) config))
              (cached_path (new_backend (files w) config root)) = inr true ->
  read_text (files w) (cached_path (new_backend (files w) config root))
  = inr text ->
  json.loads text = inl e ->
  init w config root = inl e.
Proof.
  intros He Ht Hl. unfold init. cbn [files]. rewrite He. cbn [bind].
  cbn [read_text mkdir_parents]. rewrite Ht. cbn [bind]. rewrite Hl.
  reflexivity.
Qed.

Lemma undecodable_cache_fails_construction_witness :
  init (world_of broken_cache_fs) listing_config (of_str ".")
  = inl JSONDecodeError.
Proof.
  apply (undecodable_cache_fails_construction
           (world_of broken_cache_fs) listing_config (of_str ".") "[");
    reflexivity.
Defined.

(** X27: a discovery over an existing results folder that returns leaves
    the cache file in step with the backend: the file then decodes to the
    texts of the paths of the sample list, in the order of the list. *)
Theorem discovery_refreshes_the_cache
        (w w1 : World) (b b1 : Backend) (rp : Path) :
  results_path b = Some rp ->
  path_exists (files w) rp = inr true ->
  discover_all_samples w b = inr (w1, b1) ->
  exists dirs text,
    all_samples_dirs b1 = Some dirs
    /\ read_text (files w1) (cached_path b1) = inr text
    /\ json.loads text = inr (VList (map VStr (map as_posix dirs))).
Proof.
  intros Hrp He H. unfold discover_all_samples in H.
  rewrite Hrp, He in H. cbn [bind negb] in H.
  apply bind_inr_inv in H. destruct H as [folders [_ H]].
  apply bind_inr_inv in H. destruct H as [text [Ht H]].
  injection H as <- <-. exists folders, text.
  split; [reflexivity |]. split.
  - cbn [files read_text write_text cached_path set_samples].
    rewrite path_eqb_refl. reflexivity.
  - rewrite <- (map_map as_posix VStr) in Ht.
    apply loads_dumps_strs. exact Ht.
Qed.

Lemma discovery_refreshes_the_cache_witness :
  match discover_all_samples (world_of listing_fs)
                             (backend_at thumbs None (Some abc_dirs)) with
  | inr (w1, b1) =>
      exists dirs text,
        all_samples_dirs b1 = Some dirs
        /\ read_text (files w1) (cached_path b1) = inr text
        /\ json.loads text = inr (VList (map VStr (map as_posix dirs)))
  | inl _ => False
  end.
Proof.
  destruct (discover_all_samples (world_of listing_fs)
                                 (backend_at thumbs None (Some abc_dirs)))
    as [e | [w1 b1]] eqn:E.
  - vm_compute in E. discriminate E.
  - apply (discovery_refreshes_the_cache
             (world_of listing_fs) w1
             (backend_at thumbs None (Some abc_dirs)) b1 (of_str "/r")
             eq_refl eq_refl E).
Defined.

(* ================================================================== *)
(** ** Further properties: the contents of a file                      *)
(* ================================================================== *)

(** X28: a file-backed node whose file exists and is named with another
    suffix than [.json], [.csv] and [.txt] raises [NotImplementedError];
    the suffix is compared as it is written, so [.JSON] is such a
    suffix. *)
Theorem unsupported_suffix_raises_NotImplementedError
        (fs : FileSystem) (name : string) (rf : Path)
        (d : list (string * value)) (x lp : value) (p : Path) :
  dict_lookup "first_path_exists" d = None ->
  dict_lookup "load_contents" d = Some x -> truthy x = inr true ->
  dict_lookup "load_path" d = Some lp -> to_Path lp = inr p ->
  path_exists fs (probed (div rf name) p) = inr true ->
  suffix (probed (div rf name) p) <> ".json" ->
  suffix (probed (div rf name) p) <> ".csv" ->
  suffix (probed (div rf name) p) <> ".txt" ->
  load_layout_files fs name (Some rf) (VDict d) = inl NotImplementedError.
Proof.
  intros H1 H2 H3 Hlp Hp He Hj Hc Ht.
  rewrite (file_backed_node fs name (Some rf) d x H1 H2 H3).
  rewrite (load_contents_found fs name rf d lp p Hlp Hp He).
  unfold load_file.
  apply String.eqb_neq in Hj, Hc, Ht. rewrite Hj, Hc, Ht. reflexivity.
Qed.

Lemma unsupported_suffix_raises_NotImplementedError_witness :
  load_layout_files full_fs "s" (Some (of_str "/r"))
                    (VDict (file_node "DATA.JSON" []))
  = inl NotImplementedError.
Proof.
  apply (unsupported_suffix_raises_NotImplementedError
           full_fs "s" (of_str "/r") (file_node "DATA.JSON" [])
           (VBool true) (VStr "DATA.JSON") (of_str "DATA.JSON"));
    try reflexivity; discriminate.
Defined.

(** X29: on a table that is not empty, the indices [row, column] select a
    cell: when one row carries the row label and one column the column
    label, the node resolves to the value of the cell of that row in that
    column. *)
Theorem row_and_column_select_a_cell
        (fs : FileSystem) (name : string) (rf : Path)
        (d : list (string * value)) (x lp : value) (p : Path)
        (df : DataFrame) (r c : string) (row : list cell) (item : cell) :
  dict_lookup "first_path_exists" d = None ->
  dict_lookup "load_contents" d = Some x -> truthy x = inr true ->
  dict_lookup "load_path" d = Some lp -> to_Path lp = inr p ->
  path_exists fs (probed (div rf name) p) = inr true ->
  load_file fs (probed (div rf name) p) = inr (VFrame df) ->
  df_empty df = false ->
  dict_lookup "indices" d = Some (VList [VStr r; VStr c]) ->
  select (LStr r) (df_index df) (df_data df) = [row] ->
  select (LStr c) (df_columns df) row = [item] ->
  load_layout_files fs name (Some rf) (VDict d) = inr (cell_value item).
Proof.
  intros H1 H2 H3 Hlp Hp He Hf Hne Hi Hrow Hcol.
  rewrite (file_backed_node fs name (Some rf) d x H1 H2 H3).
  rewrite (load_contents_found fs name rf d lp p Hlp Hp He).
  rewrite Hf, Hi. cbn [bind no_indices ret]. rewrite Hne.
  cbn [py_iter bind ret loc_chain py_loc frame_loc key_label].
  rewrite Hrow. cbn [bind ret py_loc series_loc key_label sr_index sr_data].
  rewrite Hcol. reflexivity.
Qed.

Lemma row_and_column_select_a_cell_witness :
  load_layout_files table_fs "s" (Some (of_str "/r"))
    (VDict (file_node "table.csv"
                      [("indices", VList [VStr "row2"; VStr "score"])]))
  = inr (VInt 2).
Proof.
  apply (row_and_column_select_a_cell
           table_fs "s" (of_str "/r")
           (file_node "table.csv"
                      [("indices", VList [VStr "row2"; VStr "score"])])
           (VBool true) (VStr "table.csv") (of_str "table.csv")
           {| df_index := [LStr "row1"; LStr "row2"];
              df_columns := [LStr "score"];
              df_data := [[CInt 1]; [CInt 2]] |}
           "row2" "score" [CInt 2] (CInt 2));
    reflexivity.
Defined.

(* ================================================================== *)
(** ** Further properties: the entries of a page                       *)
(* ================================================================== *)

Lemma mapM_In {A B : Type} (f : A -> result B) (l : list A) (r : list B)
      (y : B) :
  mapM f l = inr r -> In y r -> exists a, In a l /\ f a = inr y.
Proof.
  revert r. induction l as [| a l IH]; intros r H Hy.
  - injection H as <-. contradiction Hy.
  - cbn [mapM] in H. destruct (f a) as [e | b] eqn:Ha; [discriminate H |].
    cbn [bind] in H. destruct (mapM f l) as [e | r'] eqn:Hm;
      [discriminate H |].
    cbn [bind ret] in H. injection H as <-.
    destruct Hy as [<- | Hy].
    + exists a. split; [left; reflexivity | exact Ha].
    + destruct (IH r' eq_refl Hy) as [a' [Hin Hf]].
      exists a'. split; [right; exact Hin | exact Hf].
Qed.

Lemma In_firstn_list {A : Type} (n : nat) (l : list A) (a : A) :
  In a (firstn n l) -> In a l.
Proof.
  revert l. induction n as [| n IH]; intros [| x l] H;
    try contradiction H.
  destruct H as [<- | H]; [left; reflexivity | right; apply IH; exact H].
Qed.

Lemma In_skipn_list {A : Type} (n : nat) (l : list A) (a : A) :
  In a (skipn n l) -> In a l.
Proof.
  revert l. induction n as [| n IH]; intros l H; [exact H |].
  destruct l as [| x l]; [contradiction H |].
  right. apply IH. exact H.
Qed.

Lemma In_py_slice {A : Type} (l : list A) (lo hi : Z) (a : A) :
  In a (py_slice l lo hi) -> In a l.
Proof.
  unfold py_slice. intros H.
  apply In_firstn_list in H. apply In_skipn_list in H. exact H.
Qed.

(** X30: every entry of a page belongs to a sample of the list: its id is
    the name of one of the sample folders, and the image of the entry
    carries that id as its caption. *)
Theorem page_entries_are_listed_samples
        (w : World) (b : Backend) (dirs : list Path) (offset limit : Z)
        (m : SampleMeta) :
  all_samples_dirs b = Some dirs ->
  In m (snd (get_samples_metadata w b offset limit)) ->
  snd (image m) = id m /\ exists d, In d dirs /\ id m = name d.
Proof.
  intros Hd Hm. unfold get_samples_metadata, list_samples in Hm.
  rewrite Hd in Hm.
  destruct (mapM (sample_meta (files w) b)
                 (py_slice dirs offset (offset + limit)))
    as [e | results] eqn:Hr; [contradiction Hm |].
  cbn [snd] in Hm.
  destruct (mapM_In _ _ _ m Hr Hm) as [dir [Hin Hs]].
  unfold sample_meta in Hs.
  apply bind_inr_inv in Hs. destruct Hs as [thumbnail [_ Hs]].
  injection Hs as <-. cbn [image id snd]. split; [reflexivity |].
  exists dir. split; [| reflexivity].
  apply (In_py_slice dirs offset (offset + limit)). exact Hin.
Qed.

Lemma page_entries_are_listed_samples_witness :
  snd (image (meta_of (VStr "thumb.png") (of_str "/r/c")))
  = id (meta_of (VStr "thumb.png") (of_str "/r/c"))
  /\ exists d, In d abc_dirs
               /\ id (meta_of (VStr "thumb.png") (of_str "/r/c")) = name d.
Proof.
  apply (page_entries_are_listed_samples
           (world_of empty_fs)
           (backend_at (VStr "thumb.png") None (Some abc_dirs))
           abc_dirs 2 2 (meta_of (VStr "thumb.png") (of_str "/r/c"))).
  - reflexivity.
  - left. reflexivity.
Defined.

(* ================================================================== *)
(** ** Further properties: the memo of [load_file]                     *)
(* ================================================================== *)

Lemma names_eqb_eq (l m : list string) : names_eqb l m = true -> l = m.
Proof.
  revert m. induction l as [| a l IH]; intros [| b m] H;
    try discriminate H; [reflexivity |].
  simpl in H. apply andb_true_iff in H. destruct H as [Hab Hlm].
  apply String.eqb_eq in Hab. subst b. rewrite (IH m Hlm). reflexivity.
Qed.

Lemma path_eqb_eq (p q : Path) : pathlib.eqb p q = true -> p = q.
Proof.
  destruct p as [r ns], q as [r' ns']. unfold pathlib.eqb. cbn [root names].
  intros H. apply andb_true_iff in H. destruct H as [Hr Hn].
  apply String.eqb_eq in Hr. apply names_eqb_eq in Hn. subst. reflexivity.
Qed.

Lemma lookup_remove (p q : Path) (m : cached.memo) :
  pathlib.eqb q p = false ->
  cached.lookup q (cached.remove p m) = cached.lookup q m.
Proof.
  intros Hqp. unfold cached.remove.
  induction m as [| [r v] m IH]; [reflexivity |].
  cbn [filter fst cached.lookup].
  destruct (pathlib.eqb p r) eqn:Hpr; cbn [negb].
  - apply path_eqb_eq in Hpr. subst r. rewrite Hqp. exact IH.
  - cbn [cached.lookup]. rewrite IH. reflexivity.
Qed.

Lemma lookup_firstn (n : nat) (q : Path) (m : cached.memo) (v : value) :
  cached.lookup q (firstn n m) = Some v -> cached.lookup q m = Some v.
Proof.
  revert m. induction n as [| n IH]; intros [| [r x] m] H;
    try discriminate H.
  cbn [firstn cached.lookup] in H |- *.
  destruct (pathlib.eqb q r); [exact H | apply IH; exact H].
Qed.

Section agreement.

Variable fs : FileSystem.

Lemma refines_lift {A : Type} (r : result A) :
  refines fs (cached.lift r) r.
Proof. intros m Hm. split; [reflexivity | exact Hm]. Qed.

Lemma refines_ret {A : Type} (a : A) : refines fs (cached.retS a) (ret a).
Proof. intros m Hm. split; [reflexivity | exact Hm]. Qed.

Lemma refines_raise {A : Type} (e : exn) :
  refines fs (@cached.raiseS A e) (raise e).
Proof. intros m Hm. split; [reflexivity | exact Hm]. Qed.

Lemma refines_bind {A B : Type} (c : cached.M A) (r : result A)
      (k : A -> cached.M B) (k' : A -> result B) :
  refines fs c r -> (forall a, refines fs (k a) (k' a)) ->
  refines fs (cached.bindS c k) (bind r k').
Proof.
  intros Hc Hk m Hm. destruct (Hc m Hm) as [H1 H2].
  unfold cached.bindS. destruct (c m) as [[e | a] m']; cbn [fst snd] in *;
    subst r; cbn [bind].
  - split; [reflexivity | exact H2].
  - apply Hk. exact H2.
Qed.

Lemma refines_mapMS {A B : Type} (f : A -> cached.M B)
      (g : A -> result B) (l : list A) :
  (forall a, In a l -> refines fs (f a) (g a)) ->
  refines fs (cached.mapMS f l) (mapM g l).
Proof.
  induction l as [| a l IH]; intros H.
  - apply refines_ret.
  - cbn [cached.mapMS mapM]. apply refines_bind.
    + apply H. left. reflexivity.
    + intros b. apply refines_bind.
      * apply IH. intros x Hx. apply H. right. exact Hx.
      * intros bs. apply refines_ret.
Qed.

(** On a memo whose entries are what the files give, the decorated
    [load_file] gives what the function under the decorator gives. *)
Lemma load_file_refines (p : Path) :
  refines fs (cached.load_file fs p) (load_file fs p).
Proof.
  intros m Hm. unfold cached.load_file.
  destruct (cached.lookup p m) as [v |] eqn:Hl.
  - cbn [fst snd]. split; [symmetry; apply Hm; exact Hl |].
    intros q x Hq. cbn [cached.lookup] in Hq.
    destruct (pathlib.eqb q p) eqn:Hqp.
    + injection Hq as <-. apply path_eqb_eq in Hqp. subst q.
      apply Hm. exact Hl.
    + rewrite (lookup_remove p q m Hqp) in Hq. apply Hm. exact Hq.
  - destruct (load_file fs p) as [e | v] eqn:Hf; cbn [fst snd].
    + split; [reflexivity | exact Hm].
    + split; [reflexivity |].
      intros q x Hq. apply lookup_firstn in Hq. cbn [cached.lookup] in Hq.
      destruct (pathlib.eqb q p) eqn:Hqp.
      * injection Hq as <-. apply path_eqb_eq in Hqp. subst q. exact Hf.
      * apply Hm. exact Hq.
Qed.

Variable sample_name : string.
Variable results_folder : option Path.

Lemma load_contents_refines (d : list (string * value)) :
  refines fs (cached.load_contents fs sample_name results_folder d)
          (load_contents fs sample_name results_folder d).
Proof.
  unfold cached.load_contents, load_contents. cbv zeta.
  destruct (dict_lookup "load_path" d) as [lp |]; [| apply refines_raise].
  apply refines_bind; [apply refines_lift |]. intros p.
  apply refines_bind; [apply refines_lift |]. intros q.
  apply refines_bind; [apply refines_lift |]. intros found.
  destruct (negb found); [apply refines_raise |].
  apply refines_bind; [apply load_file_refines |]. intros content.
  apply refines_bind; [apply refines_lift |]. intros none.
  destruct none; [apply refines_ret |].
  destruct content as [| | | | | [| kv d0] | | df |];
    try apply refines_raise.
  - apply refines_ret.
  - apply refines_bind; [apply refines_lift |]. intros keys.
    apply refines_lift.
  - destruct (df_empty df); [apply refines_ret |].
    apply refines_bind; [apply refines_lift |]. intros keys.
    apply refines_lift.
Qed.

(** The resolution of a layout with the memo gives what the resolution
    without it gives, as long as the entries of the memo are what the
    files give; and it leaves such a memo. *)
Lemma load_layout_files_refines (data : value) :
  refines fs (cached.load_layout_files fs sample_name results_folder data)
          (load_layout_files fs sample_name results_folder data).
Proof.
  induction data as [| b | z | s | items IH | pairs IH | p | df | sr]
    using value_ind; try apply refines_raise.
  - cbn [cached.load_layout_files load_layout_files].
    apply refines_bind; [| intros r; apply refines_ret].
    apply refines_mapMS. rewrite Forall_forall in IH. exact IH.
  - cbn [cached.load_layout_files load_layout_files].
    destruct (dict_lookup "first_path_exists" pairs);
      [apply refines_lift |].
    apply refines_bind; [apply refines_lift |]. intros flag.
    destruct (negb flag); [| apply load_contents_refines].
    apply refines_bind; [| intros r; apply refines_ret].
    apply refines_mapMS. intros [k v] Hin.
    destruct (negb (is_container v)); [apply refines_ret |].
    apply refines_bind; [| intros x; apply refines_ret].
    rewrite Forall_forall in IH. exact (IH (k, v) Hin).
Qed.

End agreement.

(** So does the preparation of the layout of a sample. *)
Lemma prepare_layout_components_refines
      (fs : FileSystem) (cfg : GradioConfig) (folder_name : string) :
  refines fs (cached.prepare_layout_components fs cfg folder_name)
          (prepare_layout_components fs cfg folder_name).
Proof.
  intros m Hm.
  unfold cached.prepare_layout_components, prepare_layout_components.
  unfold cached.bindS, cached.lift.
  destruct (json.dumps (layout cfg)) as [e | text]; cbn [bind fst snd].
  - split; [reflexivity | exact Hm].
  - destruct (json.loads (replace placeholder folder_name text))
      as [e | tree]; cbn [bind fst snd].
    + split; [reflexivity | exact Hm].
    + apply load_layout_files_refines. exact Hm.
Qed.

(** The empty memo of a fresh process agrees with every file system. *)
Lemma empty_memo_agrees (fs : FileSystem) : cached.agrees [] fs.
Proof. intros p v H. discriminate H. Qed.

(** A file-backed node is resolved by loading its file, with the memo. *)
Lemma cached_file_backed_node (fs : FileSystem) (name : string)
      (rf : option Path) (d : list (string * value)) (x : value)
      (m : cached.memo) :
  dict_lookup "first_path_exists" d = None ->
  dict_lookup "load_contents" d = Some x -> truthy x = inr true ->
  cached.load_layout_files fs name rf (VDict d) m
  = cached.load_contents fs name rf d m.
Proof.
  intros H1 H2 H3. cbn [cached.load_layout_files]. rewrite H1, H2, H3.
  reflexivity.
Qed.

(** X7: a file-backed node whose file exists and whose indices are
    missing, [None] or the empty list resolves to the object that
    [load_file] gives for the path, and leaves the memo as [load_file]
    leaves it.  With an entry for the path that object is the entry,
    whatever the file holds; without one it is what the function under
    the decorator reads from the file. *)
Theorem node_without_indices_gives_the_loaded_object
        (fs : FileSystem) (name : string) (rf : Path)
        (d : list (string * value)) (x lp : value) (p : Path)
        (m : cached.memo) :
  dict_lookup "first_path_exists" d = None ->
  dict_lookup "load_contents" d = Some x -> truthy x = inr true ->
  dict_lookup "load_path" d = Some lp -> to_Path lp = inr p ->
  path_exists fs (probed (div rf name) p) = inr true ->
  dict_lookup "indices" d = None
  \/ dict_lookup "indices" d = Some VNone
  \/ dict_lookup "indices" d = Some (VList []) ->
  cached.load_layout_files fs name (Some rf) (VDict d) m
  = cached.load_file fs (probed (div rf name) p) m
  /\ (forall v, cached.lookup (probed (div rf name) p) m = Some v ->
                fst (cached.load_file fs (probed (div rf name) p) m) = inr v)
  /\ (cached.lookup (probed (div rf name) p) m = None ->
      fst (cached.load_file fs (probed (div rf name) p) m)
      = load_file fs (probed (div rf name) p)).
Proof.
  intros H1 H2 H3 Hlp Hp He Hi. split; [| split].
  - rewrite (cached_file_backed_node fs name (Some rf) d x m H1 H2 H3).
    unfold cached.load_contents. rewrite Hlp. unfold cached.bindS at 1.
    unfold cached.lift at 1. rewrite Hp.
    unfold cached.bindS at 1. unfold cached.lift at 1.
    unfold probed in He |- *. unfold sample_folder.
    destruct (negb (is_absolute p)); cbn [bind ret];
      unfold cached.bindS at 1; unfold cached.lift at 1; rewrite He;
      cbn [negb]; unfold cached.bindS at 1;
      match goal with
      | |- context [cached.load_file fs ?q m] =>
          destruct (cached.load_file fs q m) as [[e | content] m']
      end; try reflexivity;
      destruct Hi as [-> | [-> | ->]]; reflexivity.
  - intros v Hv. unfold cached.load_file. rewrite Hv. reflexivity.
  - intros Hn. unfold cached.load_file. rewrite Hn.
    destruct (load_file fs (probed (div rf name) p)); reflexivity.
Qed.

Lemma node_without_indices_gives_the_loaded_object_witness :
  fst (cached.load_layout_files notes_fs "s" (Some (of_str "/r"))
         (VDict (file_node "notes.txt" [])) stale_memo)
  = inr (VStr "old").
Proof.
  destruct (node_without_indices_gives_the_loaded_object
              notes_fs "s" (of_str "/r") (file_node "notes.txt" [])
              (VBool true) (VStr "notes.txt") (of_str "notes.txt")
              stale_memo eq_refl eq_refl eq_refl eq_refl eq_refl eq_refl
              (or_introl eq_refl)) as [H [Hhit _]].
  rewrite H. apply Hhit. reflexivity.
Defined.

(** X9: an absolute [load_path] is used as it is: from the same memo, the
    node resolves to the same result, with the same memo left, for every
    sample name and every results folder, also when no results folder is
    configured. *)
Theorem absolute_load_path_ignores_sample
        (fs : FileSystem) (d : list (string * value)) (x lp : value)
        (p : Path) (name1 name2 : string) (rf1 rf2 : option Path)
        (m : cached.memo) :
  dict_lookup "first_path_exists" d = None ->
  dict_lookup "load_contents" d = Some x -> truthy x = inr true ->
  dict_lookup "load_path" d = Some lp -> to_Path lp = inr p ->
  is_absolute p = true ->
  cached.load_layout_files fs name1 rf1 (VDict d) m
  = cached.load_layout_files fs name2 rf2 (VDict d) m.
Proof.
  intros H1 H2 H3 Hlp Hp Ha.
  rewrite (cached_file_backed_node fs name1 rf1 d x m H1 H2 H3).
  rewrite (cached_file_backed_node fs name2 rf2 d x m H1 H2 H3).
  unfold cached.load_contents. rewrite Hlp.
  unfold cached.bindS, cached.lift. rewrite Hp, Ha. reflexivity.
Qed.

Lemma absolute_load_path_ignores_sample_witness :
  cached.load_layout_files notes_fs "s" (Some (of_str "/r"))
                           (VDict (file_node "/r/s/notes.txt" [])) stale_memo
  = cached.load_layout_files notes_fs "other" None
                             (VDict (file_node "/r/s/notes.txt" []))
                             stale_memo.
Proof.
  apply (absolute_load_path_ignores_sample notes_fs
           (file_node "/r/s/notes.txt" []) (VBool true)
           (VStr "/r/s/notes.txt") (of_str "/r/s/notes.txt")
           "s" "other" (Some (of_str "/r")) None stale_memo);
    reflexivity.
Defined.

(** In a fresh process the memo is empty, and the first resolution of a
    node is the one without memo: the node that asks for the row [row5]
    raises [KeyError] and stores the table. *)
Example first_resolution_meets_the_absent_row :
  cached.load_layout_files table_fs "s" (Some (of_str "/r")) row5_node []
  = (inl KeyError,
     [(of_str "/r/s/table.csv",
       VFrame {| df_index := [LStr "row1"; LStr "row2"];
                 df_columns := [LStr "score"];
                 df_data := [[CInt 1]; [CInt 2]] |})]).
Proof. reflexivity. Qed.
